(** * Job lifecycle, retention and message dispatch of [ai_diffusion.ui.model]

    A shallow embedding of [src/ai_diffusion/ui/model.py] (classes [Job],
    [JobQueue], [Model], [ModelRegistry]) and of the part of
    [src/ai_diffusion/document.py] that [Model] calls.

    Python objects that are mutated in place and compared by identity
    ([Job], [Control], [krita.Node]) live in stores; a reference is an index
    into its store.  Objects are never deallocated, so a store is a list that
    only grows, and allocation returns the old length.  Code that can raise
    runs in a state-and-exception monad in which a raised exception keeps the
    mutations made before it, as in Python.

    Python floats ([_memory_usage], [strength], [progress]) are exact
    rationals here.  A footprint [size / 1024**2] is a multiple of 2^-20, so
    the sums and differences the queue computes are exact in binary floating
    point as long as they stay below 2^53 bytes. *)

From Stdlib Require Import ZArith NArith QArith Lqa Lia Bool String List DecimalString.
From stdpp Require Import base option list.
Import ListNotations.

Local Open Scope string_scope.
Local Open Scope list_scope.

(** ** References, exceptions and the monad *)

(** A reference to an object of some store. *)
Definition ref := nat.

(** The exceptions the modelled code raises or catches. *)
Inductive exn :=
| AssertionError (msg : string)
| IndexError
| ValueError
| AttributeError
| NetworkError (url : string) (code : Z) (msg : string)
| Exception (msg : string)
| CancelledError                     (* [asyncio.CancelledError] *)
| BaseException (msg : string).      (* any other exception outside [Exception] *)

(** [isinstance(e, Exception)]: what [except Exception] catches.  A
    cancelled task raises [CancelledError], which is a [BaseException]
    only. *)
Definition derives_from_Exception (e : exn) : bool :=
  match e with
  | CancelledError | BaseException _ => false
  | _ => true
  end.

(** [inl e]: exception [e] was raised; [inr a]: normal return of [a]. *)
Definition result (A : Type) := (exn + A)%type.

Definition M (S A : Type) : Type := S -> result A * S.

Definition ret {S A} (a : A) : M S A := fun s => (inr a, s).
Definition raise {S A} (e : exn) : M S A := fun s => (inl e, s).
Definition bind {S A B} (m : M S A) (k : A -> M S B) : M S B :=
  fun s => match m s with
           | (inr a, s') => k a s'
           | (inl e, s') => (inl e, s')
           end.
Definition get {S} : M S S := fun s => (inr s, s).
Definition gets {S A} (f : S -> A) : M S A := fun s => (inr (f s), s).
Definition modify {S} (f : S -> S) : M S unit := fun s => (inr tt, f s).
Definition assert {S} (b : bool) (msg : string) : M S unit :=
  if b then ret tt else raise (AssertionError msg).
Definition when {S} (b : bool) (m : M S unit) : M S unit :=
  if b then m else ret tt.

(** [o is None] *)
Definition is_None {A} (o : option A) : bool :=
  match o with None => true | Some _ => false end.

Notation "x <- m ;; k" := (bind m (fun x => k))
  (at level 90, m at next level, right associativity).
Notation "m ;;; k" := (bind m (fun _ => k))
  (at level 90, right associativity).

(** Run [m] on the component of the state selected by [proj]/[upd]. *)
Definition zoom {S T A} (proj : S -> T) (upd : T -> S -> S) (m : M T A) : M S A :=
  fun s => let (r, t) := m (proj s) in (r, upd t s).

(** [a > b] on exact rationals, the model of Python's float comparison. *)
Definition Qgtb (a b : Q) : bool := negb (Qle_bool a b).
Definition Qltb (a b : Q) : bool := negb (Qle_bool b a).

(** ** Geometry and images *)

Record Extent := mkExtent { width : Z; height : Z }.
Record Bounds := mkBounds { x : Z; y : Z; bwidth : Z; bheight : Z }.
Definition extent_of (b : Bounds) : Extent := mkExtent (bwidth b) (bheight b).

(** Modelled from the spec: [Image] and [ImageCollection]
    ([ai_diffusion/image.py] is not among the sources).  An image is known by
    its extent and by the number of bytes it occupies; a collection is an
    ordered sequence of images whose [size] is the total number of bytes. *)
Record Image := mkImage { img_extent : Extent; img_size : N }.

Module ImageCollection.
Definition t := list Image.
Definition size (c : t) : N := fold_right N.add 0%N (map img_size c).
End ImageCollection.

(** [results.size / (1024**2)]: the footprint of a collection in MB. *)
Definition size_mb (c : ImageCollection.t) : Q :=
  (inject_Z (Z.of_N (ImageCollection.size c)) / inject_Z (1024 ^ 2))%Q.

(** ** Jobs *)

Module State.
Inductive t := queued | executing | finished | cancelled.
Definition eqb (a b : t) : bool :=
  match a, b with
  | queued, queued | executing, executing
  | finished, finished | cancelled, cancelled => true
  | _, _ => false
  end.
End State.

Module JobKind.
Inductive t := diffusion | control_layer.
Definition eqb (a b : t) : bool :=
  match a, b with
  | diffusion, diffusion | control_layer, control_layer => true
  | _, _ => false
  end.
End JobKind.

Module Job.
Record t := mk {
  id : option string;
  kind : JobKind.t;
  state : State.t;
  prompt : string;
  bounds : Bounds;
  control : option ref;          (* reference to a [Control] object *)
  timestamp : nat;
  _results : ImageCollection.t }.

(** [Job.__init__]; [state] and [control] take their class defaults. *)
Definition __init__ (id : option string) (kind : JobKind.t) (prompt : string)
    (bounds : Bounds) (now : nat) : t :=
  mk id kind State.queued prompt bounds None now [].

Definition results (j : t) : ImageCollection.t := _results j.

Definition set_id (v : option string) (j : t) : t :=
  mk v (kind j) (state j) (prompt j) (bounds j) (control j) (timestamp j) (_results j).
Definition set_state (v : State.t) (j : t) : t :=
  mk (id j) (kind j) v (prompt j) (bounds j) (control j) (timestamp j) (_results j).
Definition set_control (v : option ref) (j : t) : t :=
  mk (id j) (kind j) (state j) (prompt j) (bounds j) v (timestamp j) (_results j).
Definition set_results (v : ImageCollection.t) (j : t) : t :=
  mk (id j) (kind j) (state j) (prompt j) (bounds j) (control j) (timestamp j) v.
End Job.

Global Instance Job_inhabited : Inhabited Job.t :=
  populate (Job.__init__ None JobKind.diffusion "" (mkBounds 0 0 0 0) 0).

(** ** Controls and layers *)

Record ControlMode := mkControlMode { text : string; is_lines : bool }.

(** What the [image] attribute of a [Control] holds: nothing, a layer of the
    document, or pixel data. *)
Inductive ControlImage :=
| NoImage
| LayerRef (layer : ref)
| ImageData (image : Image).

Module Control.
Record t := mk { mode : ControlMode; image : ControlImage; strength : Q }.
Definition set_image (v : ControlImage) (c : t) : t := mk (mode c) v (strength c).
End Control.

Global Instance Control_inhabited : Inhabited Control.t :=
  populate (Control.mk (mkControlMode "" false) NoImage 1).

(** A [krita.Node]: the attributes the code reads or writes. *)
Module Node.
Record t := mk {
  name : string;
  locked : bool;
  visible : bool;
  has_parent : bool;                       (* [parentNode() is not None] *)
  pixels : option (Image * Bounds) }.      (* last [setPixelData] *)
Definition setName (v : string) (n : t) := mk v (locked n) (visible n) (has_parent n) (pixels n).
Definition setLocked (v : bool) (n : t) := mk (name n) v (visible n) (has_parent n) (pixels n).
Definition setVisible (v : bool) (n : t) := mk (name n) (locked n) v (has_parent n) (pixels n).
Definition setParent (v : bool) (n : t) := mk (name n) (locked n) (visible n) v (pixels n).
Definition setPixelData (i : Image) (b : Bounds) (n : t) :=
  mk (name n) (locked n) (visible n) (has_parent n) (Some (i, b)).
End Node.

Global Instance Node_inhabited : Inhabited Node.t :=
  populate (Node.mk "" false false false None).

(** ** The global state *)

Inductive ConnectionState := disconnected | connecting | connected | conn_error.

Record Settings := mkSettings { history_size : Q }.      (* in MB *)

Record World := mkWorld {
  job_store : list Job.t;
  control_store : list Control.t;
  node_store : list Node.t;
  settings : Settings;
  connection_state : ConnectionState;     (* [Connection.instance().state] *)
  clock : nat }.                          (* [datetime.now()] *)

Definition with_jobs (f : list Job.t -> list Job.t) (w : World) : World :=
  mkWorld (f (job_store w)) (control_store w) (node_store w) (settings w)
          (connection_state w) (clock w).
Definition with_controls (f : list Control.t -> list Control.t) (w : World) : World :=
  mkWorld (job_store w) (f (control_store w)) (node_store w) (settings w)
          (connection_state w) (clock w).
Definition with_nodes (f : list Node.t -> list Node.t) (w : World) : World :=
  mkWorld (job_store w) (control_store w) (f (node_store w)) (settings w)
          (connection_state w) (clock w).

(** Attribute access through a reference.  A reference the program holds
    always points to an object of its store; outside the store the lookup
    yields the default object, which no run reaches. *)
Definition job (w : World) (r : ref) : Job.t := job_store w !!! r.
Definition the_control (w : World) (r : ref) : Control.t := control_store w !!! r.
Definition node (w : World) (r : ref) : Node.t := node_store w !!! r.

(** In-place mutation of the object behind a reference. *)
Definition update_job (r : ref) (f : Job.t -> Job.t) (w : World) : World :=
  with_jobs (fun st => <[r := f (st !!! r)]> st) w.
Definition update_control (r : ref) (f : Control.t -> Control.t) (w : World) : World :=
  with_controls (fun st => <[r := f (st !!! r)]> st) w.
Definition update_node (r : ref) (f : Node.t -> Node.t) (w : World) : World :=
  with_nodes (fun st => <[r := f (st !!! r)]> st) w.

(** ** JobQueue *)

Module JobQueue.
Record t := mk {
  _entries : list ref;             (* deque of [Job] references, oldest first *)
  _memory_usage : Q }.             (* in MB *)

Definition __init__ : t := mk [] 0.

Definition St : Type := World * t.

Definition set_entries (v : list ref) (q : t) : t := mk v (_memory_usage q).
Definition set_memory (v : Q) (q : t) : t := mk (_entries q) v.

(** Allocate a [Job] object and append a reference to it. *)
Definition append_new (j : Job.t) : M St ref :=
  fun '(w, q) =>
    let r := length (job_store w) in
    (inr r, (with_jobs (fun st => st ++ [j]) w, set_entries (_entries q ++ [r]) q)).

Definition add (id prompt : string) (bounds : Bounds) : M St unit :=
  now <- gets (fun s => clock (fst s)) ;;
  append_new (Job.__init__ (Some id) JobKind.diffusion prompt bounds now) ;;;
  ret tt.

Definition add_control (control : ref) (bounds : Bounds) : M St ref :=
  now <- gets (fun s => clock (fst s)) ;;
  mode <- gets (fun s => Control.mode (the_control (fst s) control)) ;;
  append_new
    (Job.set_control (Some control)
       (Job.__init__ None JobKind.control_layer ("[Control] " ++ text mode) bounds now)).

(** [deque.remove]: drop the first occurrence; [None] when there is none. *)
Fixpoint remove_first (r : ref) (l : list ref) : option (list ref) :=
  match l with
  | [] => None
  | e :: rest =>
      if Nat.eqb e r then Some rest
      else match remove_first r rest with
           | Some rest' => Some (e :: rest')
           | None => None
           end
  end.

Definition remove (j : ref) : M St unit :=
  k <- gets (fun s => Job.kind (job (fst s) j)) ;;
  assert (JobKind.eqb k JobKind.control_layer) "" ;;;
  es <- gets (fun s => _entries (snd s)) ;;
  match remove_first j es with
  | Some es' => modify (fun '(w, q) => (w, set_entries es' q))
  | None => raise ValueError
  end.

(** The argument of [find] as Python sees it at run time. *)
Inductive Key :=
| KStr (s : string)
| KControl (c : ref)
| KOther.

Definition id_is (w : World) (s : string) (r : ref) : bool :=
  match Job.id (job w r) with
  | Some i => String.eqb i s
  | None => false
  end.

Definition control_is (w : World) (c : ref) (r : ref) : bool :=
  match Job.control (job w r) with
  | Some c' => Nat.eqb c' c
  | None => false
  end.

Definition find (key : Key) : M St (option ref) :=
  match key with
  | KStr s => gets (fun '(w, q) => List.find (id_is w s) (_entries q))
  | KControl c => gets (fun '(w, q) => List.find (control_is w c) (_entries q))
  | KOther => raise (AssertionError "Invalid job id")
  end.

Definition count (state : State.t) : M St nat :=
  gets (fun '(w, q) =>
          length (List.filter (fun r => State.eqb (Job.state (job w r)) state) (_entries q))).

(** The [while] loop of [prune], by recursion on the deque: each round
    tests the footprint first and reads [self._entries[0]] only then. *)
Fixpoint prune_loop (w : World) (keep : ref) (entries : list ref) (mem : Q)
    : result unit * (list ref * Q) :=
  if Qgtb mem (history_size (settings w)) then
    match entries with
    | [] => (inl IndexError, ([], mem))
    | e :: rest =>
        if negb (Nat.eqb e keep)
        then prune_loop w keep rest (mem - size_mb (Job._results (job w e)))
        else (inr tt, (entries, mem))
    end
  else (inr tt, (entries, mem)).

Definition prune (keep : ref) : M St unit :=
  fun '(w, q) =>
    let '(r, (es, mem)) := prune_loop w keep (_entries q) (_memory_usage q) in
    (r, (w, mk es mem)).

Definition set_results (j : ref) (results : ImageCollection.t) : M St unit :=
  modify (fun '(w, q) => (update_job j (Job.set_results results) w, q)) ;;;
  k <- gets (fun s => Job.kind (job (fst s) j)) ;;
  when (JobKind.eqb k JobKind.diffusion)
    (modify (fun '(w, q) => (w, set_memory (_memory_usage q + size_mb results) q)) ;;;
     prune j).

Definition any_executing : M St bool :=
  gets (fun '(w, q) =>
          existsb (fun r => State.eqb (Job.state (job w r)) State.executing) (_entries q)).

Definition __len__ (q : t) : nat := length (_entries q).
Definition __getitem__ (q : t) (i : nat) : option ref := _entries q !! i.
Definition memory_usage (q : t) : Q := _memory_usage q.
End JobQueue.

(** ** Document ([src/ai_diffusion/document.py]) *)

Record Mask := mkMask { mask_bounds : Bounds; mask_data : N }.

Module Document.
(** The wrapped Krita document: what [Document] reads from it. *)
Record t := mk {
  kwidth : Z;
  kheight : Z;
  colorModel : string;
  colorDepth : string;
  childNodes : list ref;           (* [rootNode().childNodes()], bottom first *)
  activeNode : option ref }.

Definition St : Type := World * t.

Definition set_childNodes (v : list ref) (d : t) : t :=
  mk (kwidth d) (kheight d) (colorModel d) (colorDepth d) v (activeNode d).

Definition extent (d : t) : Extent := mkExtent (kwidth d) (kheight d).

Definition msg_fmt (a0 a1 a2 : string) : string :=
  "Incompatible document: Color " ++ a0 ++ " must be " ++ a1
    ++ " (current " ++ a0 ++ ": " ++ a2 ++ ")".

Definition check_color_mode (d : t) : bool * option string :=
  if negb (String.eqb (colorModel d) "RGBA") then
    (false, Some (msg_fmt "model" "RGB/Alpha" (colorModel d)))
  else if negb (String.eqb (colorDepth d) "U8") then
    (false, Some (msg_fmt "depth" "8-bit integer" (colorDepth d)))
  else (true, None).

(** The [QImage] in format ARGB32 built from the pixel data inside
    [bounds]: four bytes per pixel. *)
Definition read_pixels (b : Bounds) : Image :=
  mkImage (extent_of b) (Z.to_N (4 * bwidth b * bheight b)).

Definition get_image (bounds : option Bounds) (exclude_layer : option ref) : M St Image :=
  restore_layer <-
    (match exclude_layer with
     | Some l =>
         v <- gets (fun s => Node.visible (node (fst s) l)) ;;
         if v then
           modify (fun '(w, d) => (update_node l (Node.setVisible false) w, d)) ;;;
           ret true
         else ret false
     | None => ret false
     end) ;;
  d <- gets snd ;;
  let bounds := match bounds with
                | Some b => b
                | None => mkBounds 0 0 (kwidth d) (kheight d)
                end in
  let img := read_pixels bounds in
  match exclude_layer, restore_layer with
  | Some l, true =>
      modify (fun '(w, d) => (update_node l (Node.setVisible true) w, d)) ;;;
      ret img
  | _, _ => ret img
  end.

(** [nodes.index(below)] *)
Fixpoint index_of (r : ref) (l : list ref) : option nat :=
  match l with
  | [] => None
  | e :: rest => if Nat.eqb e r then Some 0%nat
                 else option_map S (index_of r rest)
  end.

(** [addChildNode(layer, above)]: the new child goes right above [above],
    or on top of the stack when [above] is [None]. *)
Fixpoint add_above (layer : ref) (above : ref) (l : list ref) : list ref :=
  match l with
  | [] => [layer]
  | e :: rest => if Nat.eqb e above then e :: layer :: rest
                 else e :: add_above layer above rest
  end.

Definition addChildNode (layer : ref) (above : option ref) (l : list ref) : list ref :=
  match above with
  | Some a => add_above layer a l
  | None => l ++ [layer]
  end.

Definition insert_layer (name : string) (img : Image) (bounds : Bounds)
    (below : option ref) : M St ref :=
  layer <- (fun '(w, d) =>
              (inr (length (node_store w)),
               (with_nodes (fun st => st ++ [Node.mk name false true false None]) w, d))) ;;
  above <-
    (match below with
     | Some b =>
         nodes <- gets (fun s => childNodes (snd s)) ;;
         match index_of b nodes with
         | None => raise ValueError
         | Some index =>
             if (1 <=? index)%nat then ret (nodes !! (index - 1)%nat) else ret None
         end
     | None => ret None
     end) ;;
  modify (fun '(w, d) =>
            (update_node layer (Node.setParent true) w,
             set_childNodes (addChildNode layer above (childNodes d)) d)) ;;;
  modify (fun '(w, d) => (update_node layer (Node.setPixelData img bounds) w, d)) ;;;
  ret layer.

(** Blanking the old extent only touches pixels; the node keeps the last
    image written and its bounds. *)
Definition set_layer_content (layer : ref) (img : Image) (bounds : Bounds) : M St ref :=
  modify (fun '(w, d) => (update_node layer (Node.setPixelData img bounds) w, d)) ;;;
  modify (fun '(w, d) => (update_node layer (Node.setVisible true) w, d)) ;;;
  ret layer.

Definition hide_layer (layer : ref) : M St ref :=
  modify (fun '(w, d) => (update_node layer (Node.setVisible false) w, d)) ;;;
  ret layer.

Definition active_layer (d : t) : option ref := activeNode d.
(** [get_layer_image(layer, bounds)]: the pixels of the layer inside
    [bounds], as an ARGB32 image. *)
Definition get_layer_image (layer : ref) (bounds : Bounds) : Image :=
  read_pixels bounds.

(** A Krita selection: its rectangle and its pixel data. *)
Record Selection := mkSelection {
  sel_x : Z; sel_y : Z; sel_width : Z; sel_height : Z; sel_data : N }.

(** What [create_mask_from_selection] takes from outside the sources:
    Krita's [grow] and [feather], the radius [int(0.07 * diagonal)] of an
    extent, [Bounds.pad(bounds, radius, multiple=8)], [Bounds.clamp] and the
    pixel data of a selection inside given bounds. *)
Record SelectionOps := mkSelectionOps {
  grow_and_feather : Z -> Selection -> Selection;
  feather_radius_of : Extent -> Z;
  pad : Bounds -> Z -> Bounds;
  clamp : Bounds -> Extent -> Bounds;
  pixelData : Selection -> Bounds -> N }.

Definition create_mask_from_selection (ops : SelectionOps)
    (user_selection : option Selection) (d : t) : option Mask :=
  match user_selection with
  | None => None
  | Some selection =>
      let feather_radius :=
        feather_radius_of ops (mkExtent (sel_width selection) (sel_height selection)) in
      let selection := grow_and_feather ops feather_radius selection in
      let bounds := mkBounds (sel_x selection) (sel_y selection)
                             (sel_width selection) (sel_height selection) in
      let bounds := pad ops bounds feather_radius in
      let bounds := clamp ops bounds (extent d) in
      Some (mkMask bounds (pixelData ops selection bounds))
  end.
End Document.

(** ** Collaborators: workflow, client, util *)

Definition Style := string.

(** [Conditioning(prompt, control)]; the controls are the fresh [Control]
    values built by [_get_control_image]. *)
Record Conditioning := mkConditioning {
  cond_prompt : string;
  cond_control : list Control.t }.

(** A call of one of the request builders of [workflow], with its arguments
    (the client argument is the ambient one). *)
Module workflow.
Inductive Request :=
| generate (style : Style) (extent : Extent) (cond : Conditioning)
| refine (style : Style) (image : Image) (cond : Conditioning) (strength : Q)
| inpaint (style : Style) (image : Image) (mask : Mask) (cond : Conditioning)
| refine_region (style : Style) (image : Image) (mask : Mask)
    (cond : Conditioning) (strength : Q)
| create_control_image (image : Image) (mode : ControlMode).
End workflow.

(** The behaviour of the collaborators that are not part of the sources:
    a builder may raise, [client.enqueue] answers with the id the server
    assigned or raises, [util.log_error] turns an exception into its text. *)
Record Env := mkEnv {
  workflow_raises : workflow.Request -> option exn;
  enqueue : workflow.Request -> result string;
  log_error : exn -> string }.

Module ClientEvent.
Inductive t := progress | finished | interrupted | error.
End ClientEvent.

Module ClientMessage.
Record t := mk {
  event : ClientEvent.t;
  job_id : string;
  progress : Q;
  images : ImageCollection.t;
  error : string }.
End ClientMessage.

(** [str(code)] *)
Definition str_of_int (z : Z) : string := NilZero.string_of_int (Z.to_int z).

(** [_report_errors(parent, coro)]: a [NetworkError] and any other
    [Exception] of [coro] is caught and handed to [parent.report_error]; the
    coroutine's value is returned only when it did not raise.  What is not
    an [Exception] passes through. *)
Definition _report_errors {S A} (env : Env) (report_error : string -> M S unit)
    (coro : M S A) : M S (option A) :=
  fun s =>
    match coro s with
    | (inr a, s') => (inr (Some a), s')
    | (inl (NetworkError url code msg as e), s') =>
        (report_error (log_error env e ++ " [url=" ++ url ++ ", code="
                         ++ str_of_int code ++ "]")%string ;;; ret None) s'
    | (inl (CancelledError as e), s') | (inl (BaseException _ as e), s') =>
        (inl e, s')
    | (inl e, s') => (report_error (log_error env e) ;;; ret None) s'
    end.

(** ** Model *)

Module Model.
(** The Qt signals of the model.  Emitting one is recorded; the slots
    connected to it belong to the widgets. *)
Inductive Signal :=
| changed
| job_finished (job : ref)
| progress_changed.

(** The coroutine handed to [eventloop.run]. *)
Inductive Task :=
| generate_task (bounds : Bounds) (conditioning : Conditioning)
    (image : option Image) (mask : option Mask)
| control_layer_task (job : ref) (image : Image) (mode : ControlMode).

Record t := mk {
  _doc : Document.t;
  _layer : option ref;
  style : Style;
  prompt : string;
  control : list ref;
  strength : Q;
  progress : Q;
  jobs : JobQueue.t;
  error : string;
  task : option Task;
  signals : list Signal }.         (* emitted so far, oldest first *)

Definition __init__ (document : Document.t) (default_style : Style) : t :=
  mk document None default_style "" [] 1 0 JobQueue.__init__ "" None [].

Definition St : Type := World * t.

Definition set_doc (v : Document.t) (m : t) : t :=
  mk v (_layer m) (style m) (prompt m) (control m) (strength m) (progress m)
     (jobs m) (error m) (task m) (signals m).
Definition set_layer (v : option ref) (m : t) : t :=
  mk (_doc m) v (style m) (prompt m) (control m) (strength m) (progress m)
     (jobs m) (error m) (task m) (signals m).
Definition set_progress (v : Q) (m : t) : t :=
  mk (_doc m) (_layer m) (style m) (prompt m) (control m) (strength m) v
     (jobs m) (error m) (task m) (signals m).
Definition set_jobs (v : JobQueue.t) (m : t) : t :=
  mk (_doc m) (_layer m) (style m) (prompt m) (control m) (strength m) (progress m)
     v (error m) (task m) (signals m).
Definition set_error (v : string) (m : t) : t :=
  mk (_doc m) (_layer m) (style m) (prompt m) (control m) (strength m) (progress m)
     (jobs m) v (task m) (signals m).
Definition set_task (v : option Task) (m : t) : t :=
  mk (_doc m) (_layer m) (style m) (prompt m) (control m) (strength m) (progress m)
     (jobs m) (error m) v (signals m).
Definition add_signal (v : Signal) (m : t) : t :=
  mk (_doc m) (_layer m) (style m) (prompt m) (control m) (strength m) (progress m)
     (jobs m) (error m) (task m) (signals m ++ [v]).

Definition on_self (f : t -> t) : M St unit := modify (fun '(w, m) => (w, f m)).
Definition on_world (f : World -> World) : M St unit := modify (fun '(w, m) => (f w, m)).
Definition emit (s : Signal) : M St unit := on_self (add_signal s).

(** Calls into [self.jobs] and [self._doc]. *)
Definition in_jobs {A} (op : M JobQueue.St A) : M St A :=
  zoom (fun '(w, m) => (w, jobs m)) (fun '(w', q) '(_, m) => (w', set_jobs q m)) op.
Definition in_doc {A} (op : M Document.St A) : M St A :=
  zoom (fun '(w, m) => (w, _doc m)) (fun '(w', d) '(_, m) => (w', set_doc d m)) op.

Definition report_progress (value : Q) : M St unit :=
  on_self (set_progress value) ;;; emit progress_changed.

Definition report_error (message : string) : M St unit :=
  on_self (set_error message) ;;; emit changed.

Definition clear_error : M St unit :=
  e <- gets (fun s => error (snd s)) ;;
  when (negb (String.eqb e "")) (on_self (set_error "") ;;; emit changed).

Definition is_connected (c : ConnectionState) : bool :=
  match c with connected => true | _ => false end.

(** The [if]/[elif] chain of [_generate] with its assertions: which
    builder is called with which arguments. *)
Definition select_request (style : Style) (strength : Q) (bounds : Bounds)
    (conditioning : Conditioning) (image : option Image) (mask : option Mask)
    : result workflow.Request :=
  if is_None image && is_None mask then
    if Qeq_bool strength 1
    then inr (workflow.generate style (extent_of bounds) conditioning)
    else inl (AssertionError "")
  else if is_None mask && Qltb strength 1 then
    match image with
    | Some i => inr (workflow.refine style i conditioning strength)
    | None => inl (AssertionError "")
    end
  else if Qeq_bool strength 1 then
    match image, mask with
    | Some i, Some m => inr (workflow.inpaint style i m conditioning)
    | _, _ => inl (AssertionError "")
    end
  else
    match image, mask with
    | Some i, Some m =>
        if Qltb strength 1
        then inr (workflow.refine_region style i m conditioning strength)
        else inl (AssertionError "")
    | _, _ => inl (AssertionError "")
    end.

Definition of_result {S A} (r : result A) : M S A := fun s => (r, s).

(** The builder itself runs, and may raise. *)
Definition build (env : Env) (r : workflow.Request) : M St workflow.Request :=
  match workflow_raises env r with
  | Some e => raise e
  | None => ret r
  end.

(** [_generate]; the [await] is run without interleaving other tasks. *)
Definition _generate (env : Env) (bounds : Bounds) (conditioning : Conditioning)
    (image : option Image) (mask : option Mask) : M St unit :=
  cs <- gets (fun s => connection_state (fst s)) ;;
  assert (is_connected cs) "" ;;;
  style <- gets (fun s => style (snd s)) ;;
  strength <- gets (fun s => strength (snd s)) ;;
  ex <- in_jobs JobQueue.any_executing ;;
  when (negb ex) (on_self (set_progress 0) ;;; emit changed) ;;;
  let '(bounds, mask) :=
    match mask with
    | Some m =>
        let mb := mask_bounds m in
        let mask_bounds_rel :=
          mkBounds (x mb - x bounds) (y mb - y bounds) (bwidth mb) (bheight mb) in
        (mb, Some (mkMask mask_bounds_rel (mask_data m)))
    | None => (bounds, None)
    end in
  request <- of_result (select_request style strength bounds conditioning image mask) ;;
  job <- build env request ;;
  job_id <- of_result (enqueue env job) ;;
  in_jobs (JobQueue.add job_id (cond_prompt conditioning) bounds) ;;;
  emit changed.

Definition _generate_control_layer (env : Env) (job : ref) (image : Image)
    (mode : ControlMode) : M St unit :=
  cs <- gets (fun s => connection_state (fst s)) ;;
  assert (is_connected cs) "" ;;;
  work <- build env (workflow.create_control_image image mode) ;;
  job_id <- of_result (enqueue env work) ;;
  on_world (update_job job (Job.set_id (Some job_id))) ;;;
  emit changed.

(** The end of [generate], after the inputs were gathered. *)
Definition start_generate (image_bounds : Bounds) (conditioning : Conditioning)
    (image : option Image) (mask : option Mask) : M St unit :=
  clear_error ;;;
  on_self (set_task (Some (generate_task image_bounds conditioning image mask))).

Definition generate_control_layer (control : ref) : M St unit :=
  d <- gets (fun s => _doc (snd s)) ;;
  let (ok, msg) := Document.check_color_mode d in
  if negb ok then
    report_error (default "" msg)
  else
    let e := Document.extent d in
    image <- in_doc (Document.get_image (Some (mkBounds 0 0 (width e) (height e))) None) ;;
    let ie := img_extent image in
    job <- in_jobs (JobQueue.add_control control (mkBounds 0 0 (width ie) (height ie))) ;;
    clear_error ;;;
    mode <- gets (fun s => Control.mode (the_control (fst s) control)) ;;
    on_self (set_task (Some (control_layer_task job image mode))).

(** The event loop runs the task started last:
    [_report_errors(self, self._generate(...))], respectively
    [_report_errors(self, self._generate_control_layer(...))]. *)
Definition run_task (env : Env) : M St unit :=
  t <- gets (fun s => task (snd s)) ;;
  match t with
  | Some (generate_task bounds conditioning image mask) =>
      _report_errors env report_error (_generate env bounds conditioning image mask) ;;;
      ret tt
  | Some (control_layer_task job image mode) =>
      _report_errors env report_error (_generate_control_layer env job image mode) ;;;
      ret tt
  | None => ret tt
  end.

Definition key_of (id : option string) : JobQueue.Key :=
  match id with
  | Some s => JobQueue.KStr s
  | None => JobQueue.KOther
  end.

Definition show_preview (job_id : option string) (index : nat) : M St unit :=
  found <- in_jobs (JobQueue.find (key_of job_id)) ;;
  match found with
  | None => raise AttributeError
  | Some j =>
      jb <- gets (fun s => job (fst s) j) ;;
      let name := ("[Preview] " ++ Job.prompt jb)%string in
      l <- gets (fun s => _layer (snd s)) ;;
      (match l with
       | Some layer =>
           p <- gets (fun s => Node.has_parent (node (fst s) layer)) ;;
           when (negb p) (on_self (set_layer None))
       | None => ret tt
       end) ;;;
      l <- gets (fun s => _layer (snd s)) ;;
      (match l with
       | Some layer =>
           on_world (update_node layer (Node.setName name)) ;;;
           match Job.results jb !! index with
           | None => raise IndexError
           | Some img =>
               in_doc (Document.set_layer_content layer img (Job.bounds jb)) ;;; ret tt
           end
       | None =>
           match Job.results jb !! index with
           | None => raise IndexError
           | Some img =>
               layer <- in_doc (Document.insert_layer name img (Job.bounds jb) None) ;;
               on_self (set_layer (Some layer)) ;;;
               on_world (update_node layer (Node.setLocked true))
           end
       end) ;;;
      emit changed
  end.

Definition hide_preview : M St unit :=
  l <- gets (fun s => _layer (snd s)) ;;
  match l with
  | Some layer => in_doc (Document.hide_layer layer) ;;; emit changed
  | None => ret tt
  end.

Definition can_apply_result (s : St) : bool :=
  match _layer (snd s) with
  | Some layer => Node.visible (node (fst s) layer)
  | None => false
  end.

Definition add_control_layer (j : ref) : M St (option ref) :=
  jb <- gets (fun s => job (fst s) j) ;;
  assert (JobKind.eqb (Job.kind jb) JobKind.control_layer) "" ;;;
  match Job.results jb with
  | img :: _ =>
      below <- gets (fun s => _layer (snd s)) ;;
      layer <- in_doc (Document.insert_layer (Job.prompt jb) img (Job.bounds jb) below) ;;
      ret (Some layer)
  | [] => gets (fun s => Document.active_layer (_doc (snd s)))
  end.

Definition image_of_layer (l : option ref) : ControlImage :=
  match l with
  | Some layer => LayerRef layer
  | None => NoImage
  end.

Definition handle_message (message : ClientMessage.t) : M St unit :=
  found <- in_jobs (JobQueue.find (JobQueue.KStr (ClientMessage.job_id message))) ;;
  match found with
  | None => raise (AssertionError "Received message for unknown job.")
  | Some j =>
      match ClientMessage.event message with
      | ClientEvent.progress =>
          on_world (update_job j (Job.set_state State.executing)) ;;;
          report_progress (ClientMessage.progress message)
      | ClientEvent.finished =>
          on_world (update_job j (Job.set_state State.finished)) ;;;
          in_jobs (JobQueue.set_results j (ClientMessage.images message)) ;;;
          on_self (set_progress 1) ;;;
          k <- gets (fun s => Job.kind (job (fst s) j)) ;;
          l <- gets (fun s => _layer (snd s)) ;;
          when (JobKind.eqb k JobKind.diffusion && is_None l)
            (i <- gets (fun s => Job.id (job (fst s) j)) ;; show_preview i 0) ;;;
          k <- gets (fun s => Job.kind (job (fst s) j)) ;;
          when (JobKind.eqb k JobKind.control_layer)
            (layer <- add_control_layer j ;;
             c <- gets (fun s => Job.control (job (fst s) j)) ;;
             match c with
             | None => raise AttributeError
             | Some c =>
                 on_world (update_control c (Control.set_image (image_of_layer layer))) ;;;
                 in_jobs (JobQueue.remove j)
             end) ;;;
          emit (job_finished j) ;;;
          emit changed
      | ClientEvent.interrupted =>
          on_world (update_job j (Job.set_state State.cancelled)) ;;;
          report_progress 0
      | ClientEvent.error =>
          on_world (update_job j (Job.set_state State.cancelled)) ;;;
          report_error ("Server execution error: " ++ ClientMessage.error message)
      end
  end.

(** Finished jobs, in queue order. *)
Definition history (s : St) : list ref :=
  List.filter (fun r => State.eqb (Job.state (job (fst s) r)) State.finished)
         (JobQueue._entries (jobs (snd s))).
(** [_get_control_image]: the control's layer is read inside [bounds];
    [make_opaque] changes pixels only.  A control whose image is not a
    layer has no [pixelData]. *)
Definition _get_control_image (control : ref) (bounds : Bounds) : M St Control.t :=
  c <- gets (fun s => the_control (fst s) control) ;;
  match Control.image c with
  | LayerRef layer =>
      let image := Document.get_layer_image layer bounds in
      ret (Control.mk (Control.mode c) (ImageData image) (Control.strength c))
  | _ => raise AttributeError
  end.

(** [[self._get_control_image(c, image_bounds) for c in self.control]] *)
Fixpoint get_control_images (controls : list ref) (bounds : Bounds)
    : M St (list Control.t) :=
  match controls with
  | [] => ret []
  | c :: rest =>
      c' <- _get_control_image c bounds ;;
      rest' <- get_control_images rest bounds ;;
      ret (c' :: rest')
  end.

(** [generate]; [user_selection] is the selection of the Krita document
    and [compute_bounds] is [workflow.compute_bounds]. *)
Definition generate (ops : Document.SelectionOps)
    (user_selection : option Document.Selection)
    (compute_bounds : Extent -> option Bounds -> Q -> Bounds) : M St unit :=
  d <- gets (fun s => _doc (snd s)) ;;
  let (ok, msg) := Document.check_color_mode d in
  if negb ok then
    report_error (default "" msg)
  else
    let extent := Document.extent d in
    let mask := Document.create_mask_from_selection ops user_selection d in
    strength <- gets (fun s => strength (snd s)) ;;
    let image_bounds := compute_bounds extent (option_map mask_bounds mask) strength in
    layer <- gets (fun s => _layer (snd s)) ;;
    image <- (if negb (is_None mask) || Qltb strength 1
              then img <- in_doc (Document.get_image (Some image_bounds) layer) ;;
                   ret (Some img)
              else ret None) ;;
    controls <- gets (fun s => control (snd s)) ;;
    control <- get_control_images controls image_bounds ;;
    prompt <- gets (fun s => prompt (snd s)) ;;
    start_generate image_bounds (mkConditioning prompt control) image mask.

(** [str.replace(old, new)] for a non-empty [old]: the occurrences are
    replaced from left to right; [skip] counts the characters of the
    occurrence just replaced that are still to be passed over. *)
Fixpoint replace_from (old new : string) (skip : nat) (s : string) : string :=
  match s with
  | EmptyString => EmptyString
  | String c rest =>
      match skip with
      | S k => replace_from old new k rest
      | O =>
          if String.prefix old s
          then (new ++ replace_from old new (String.length old - 1) rest)%string
          else String c (replace_from old new 0 rest)
      end
  end.

Definition replace (old new s : string) : string := replace_from old new 0 s.

Definition apply_current_result : M St unit :=
  ok <- gets can_apply_result ;;
  assert ok "" ;;;
  l <- gets (fun s => _layer (snd s)) ;;
  match l with
  | None => raise AttributeError
  | Some layer =>
      on_world (update_node layer (Node.setLocked false)) ;;;
      on_world (update_node layer
                  (fun n => Node.setName
                              (replace "[Preview]" "[Generated]" (Node.name n)) n)) ;;;
      on_self (set_layer None) ;;;
      emit changed
  end.
End Model.

(** ** ModelRegistry *)

Module ModelRegistry.
Record t := mk {
  _models : list Model.t;
  _task : bool }.                  (* is the dispatch task running *)

Definition St : Type := World * t.

Definition set_models (v : list Model.t) (r : t) : t := mk v (_task r).
Definition set_task (v : bool) (r : t) : t := mk (_models r) v.

(** A method call on the [i]-th model. *)
Definition on_model {A} (i : nat) (op : M Model.St A) : M St A :=
  fun '(w, r) =>
    match _models r !! i with
    | Some m =>
        let '(res, (w', m')) := op (w, m) in
        (res, (w', set_models (<[i := m']> (_models r)) r))
    | None => (inl IndexError, (w, r))
    end.

(** The closure [handle_messages] connected to [connection.changed]. *)
Definition handle_messages : M St unit :=
  fun '(w, r) =>
    match _task r, connection_state w with
    | false, connected => (inr tt, (w, set_task true r))
    | true, disconnected => (inr tt, (w, set_task false r))
    | _, _ => (inr tt, (w, r))
    end.

Fixpoint report_error_from (i : nat) (n : nat) (message : string) : M St unit :=
  match n with
  | O => ret tt
  | S n' => on_model i (Model.report_error message) ;;;
            report_error_from (S i) n' message
  end.

Definition report_error (message : string) : M St unit :=
  n <- gets (fun s => length (_models (snd s))) ;;
  report_error_from 0 n message.

(** [m.jobs.find(job_id)] is truthy: it returned a job. *)
Definition owns (w : World) (job_id : string) (m : Model.t) : bool :=
  match fst (JobQueue.find (JobQueue.KStr job_id) (w, Model.jobs m)) with
  | inr (Some _) => true
  | _ => false
  end.

Fixpoint first_index {A} (p : A -> bool) (l : list A) : option nat :=
  match l with
  | [] => None
  | a :: rest => if p a then Some 0%nat else option_map S (first_index p rest)
  end.

(** The index of the first model whose queue has the job. *)
Definition _find_model (job_id : string) : M St (option nat) :=
  gets (fun '(w, r) => first_index (owns w job_id) (_models r)).

(** The body of the [async for] loop, for the messages of a stream. *)
Fixpoint dispatch (stream : list ClientMessage.t) : M St unit :=
  match stream with
  | [] => ret tt
  | msg :: rest =>
      model <- _find_model (ClientMessage.job_id msg) ;;
      (match model with
       | Some i => on_model i (Model.handle_message msg)
       | None => ret tt
       end) ;;;
      dispatch rest
  end.

Definition _handle_messages_impl (stream : list ClientMessage.t) : M St unit :=
  cs <- gets (fun s => connection_state (fst s)) ;;
  assert (Model.is_connected cs) "" ;;;
  dispatch stream.

(** One round of the [while True] loop of [_handle_messages], up to the
    sleep: whatever the inner loop raises is reported to every model. *)
Definition _handle_messages_round (env : Env) (stream : list ClientMessage.t) : M St unit :=
  _report_errors env report_error (_handle_messages_impl stream) ;;; ret tt.
End ModelRegistry.

(** * Statements: runs, footprints and example states *)

(** ** Footprints and runs of queue calls *)

(** The footprint in MB of the results of the jobs [l]. *)
Definition footprint (w : World) (l : list ref) : Q :=
  fold_right Qplus 0%Q (map (fun r => size_mb (Job._results (job w r))) l).

Definition is_diffusion (w : World) (r : ref) : bool :=
  JobKind.eqb (Job.kind (job w r)) JobKind.diffusion.

(** The footprint of the diffusion jobs the queue retains. *)
Definition retained_footprint (s : JobQueue.St) : Q :=
  footprint (fst s) (List.filter (is_diffusion (fst s)) (JobQueue._entries (snd s))).

(** What the owner of a queue does with it and with the jobs it holds. *)
Inductive Call :=
| CAdd (id prompt : string) (bounds : Bounds)
| CAddControl (control : ref) (bounds : Bounds)
| CRemove (job : ref)
| CSetResults (job : ref) (results : ImageCollection.t)
| CSetId (job : ref) (id : string)            (* [job.id = id] *)
| CSetState (job : ref) (state : State.t).    (* [job.state = state] *)

Definition call (c : Call) : M JobQueue.St unit :=
  match c with
  | CAdd i p b => JobQueue.add i p b
  | CAddControl c b => JobQueue.add_control c b ;;; ret tt
  | CRemove j => JobQueue.remove j
  | CSetResults j r => JobQueue.set_results j r
  | CSetId j i => modify (fun '(w, q) => (update_job j (Job.set_id (Some i)) w, q))
  | CSetState j s => modify (fun '(w, q) => (update_job j (Job.set_state s) w, q))
  end.

(** The calls are made one after the other; a call that raises leaves the
    state as it made it. *)
Fixpoint run (cs : list Call) (s : JobQueue.St) : JobQueue.St :=
  match cs with
  | [] => s
  | c :: cs' => run cs' (snd (call c s))
  end.

Definition add_or_set_results (c : Call) : bool :=
  match c with
  | CAdd _ _ _ | CSetResults _ _ => true
  | _ => false
  end.

(** Every [set_results] of the run is given a job that is in the queue and
    has no results yet. *)
Fixpoint first_results (cs : list Call) (s : JobQueue.St) : Prop :=
  match cs with
  | [] => True
  | c :: cs' =>
      match c with
      | CSetResults j _ =>
          j ∈ JobQueue._entries (snd s) /\ Job._results (job (fst s) j) = []
      | _ => True
      end /\ first_results cs' (snd (call c s))
  end.

(** A world with no objects and a retention ceiling of [limit] MB. *)
Definition empty_world (limit : Q) : World :=
  mkWorld [] [] [] (mkSettings limit) connected 0.

(** An image of [n] MB. *)
Definition image_mb (n : N) : Image :=
  mkImage (mkExtent 512 512) (n * 1048576)%N.

(** Three diffusion jobs of 80, 90 and 200 MB, oldest first, under a
    ceiling of 100 MB. *)
Definition three_jobs : JobQueue.St :=
  run [CAdd "a" "a" (mkBounds 0 0 512 512);
       CAdd "b" "b" (mkBounds 0 0 512 512);
       CAdd "c" "c" (mkBounds 0 0 512 512)]
      (empty_world 100, JobQueue.__init__).

Definition three_jobs_done : JobQueue.St :=
  let '(w, q) := three_jobs in
  (update_job 0 (Job.set_results [image_mb 80])
     (update_job 1 (Job.set_results [image_mb 90])
        (update_job 2 (Job.set_results [image_mb 200]) w)),
   JobQueue.set_memory 370 q).

(** The bookkeeping invariant of a queue that only holds diffusion jobs. *)
Record accounted (s : JobQueue.St) : Prop := {
  acc_valid : Forall (fun r => (r < length (job_store (fst s)))%nat)
                     (JobQueue._entries (snd s));
  acc_nodup : NoDup (JobQueue._entries (snd s));
  acc_kind : Forall (fun r => is_diffusion (fst s) r = true)
                    (JobQueue._entries (snd s));
  acc_memory : (JobQueue._memory_usage (snd s)
                  == footprint (fst s) (JobQueue._entries (snd s)))%Q }.

(** A world with one control specification and one layer. *)
Definition control_world (limit : Q) : World :=
  mkWorld [] [Control.mk (mkControlMode "Scribble" true) NoImage 1]
          [Node.mk "Background" false true true None]
          (mkSettings limit) connected 0.

(** A control job waits for its result in front of a diffusion job. *)
Definition control_then_diffusion : JobQueue.St :=
  run [CAddControl 0 (mkBounds 0 0 512 512);
       CAdd "a" "a" (mkBounds 0 0 512 512)]
      (control_world 100, JobQueue.__init__).

(** Jobs of a queue are objects of the store, and a diffusion job has no
    control specification. *)
Definition tidy_job (w : World) (r : ref) : Prop :=
  (r < length (job_store w))%nat /\
  (Job.kind (job w r) = JobKind.diffusion -> Job.control (job w r) = None).

Definition tidy (s : JobQueue.St) : Prop :=
  Forall (tidy_job (fst s)) (JobQueue._entries (snd s)).

(** The builder a request was made with. *)
Inductive Builder := b_generate | b_refine | b_inpaint | b_refine_region | b_control.

Definition builder_of (r : workflow.Request) : Builder :=
  match r with
  | workflow.generate _ _ _ => b_generate
  | workflow.refine _ _ _ _ => b_refine
  | workflow.inpaint _ _ _ _ => b_inpaint
  | workflow.refine_region _ _ _ _ _ => b_refine_region
  | workflow.create_control_image _ _ => b_control
  end.

(** The four request shapes by "is there a mask" and "is strength < 1". *)
Definition shape (mask_present strength_below_1 : bool) : Builder :=
  match mask_present, strength_below_1 with
  | false, false => b_generate
  | false, true => b_refine
  | true, false => b_inpaint
  | true, true => b_refine_region
  end.

(** A 512x512 RGBA document without layers, and its model. *)
Definition blank_document : Document.t :=
  Document.mk 512 512 "RGBA" "U8" [] None.

Definition model_with_strength (strength : Q) : Model.t :=
  Model.mk blank_document None "style" "" [] strength 0 JobQueue.__init__ "" None [].

(** Collaborators that never fail, and a client whose [enqueue] fails with
    a network error. *)
Definition ok_env : Env :=
  mkEnv (fun _ => None) (fun _ => inr "id-1") (fun _ => "error").

Definition offline_env : Env :=
  mkEnv (fun _ => None)
        (fun _ => inl (NetworkError "http://127.0.0.1:8188" 503 "unavailable"))
        (fun e => match e with
                  | NetworkError _ _ msg => msg
                  | _ => "error"
                  end).

Definition some_image : Image := mkImage (mkExtent 512 512) 1048576.
Definition some_mask : Mask := mkMask (mkBounds 0 0 64 64) 0.
Definition some_cond : Conditioning := mkConditioning "a cat" [].
Definition full_bounds : Bounds := mkBounds 0 0 512 512.

(** The text [_report_errors] hands to [report_error]. *)
Definition error_text (env : Env) (e : exn) : string :=
  match e with
  | NetworkError url code _ =>
      log_error env e ++ " [url=" ++ url ++ ", code=" ++ str_of_int code ++ "]"
  | _ => log_error env e
  end.

(** The messages are handled one after the other by [handle_message]; a
    call that raises leaves the state as it made it. *)
Definition handle_messages (msgs : list ClientMessage.t) (s : Model.St) : Model.St :=
  fold_left (fun s msg => snd (Model.handle_message msg s)) msgs s.

(** The computation [m] leaves the job object [j] as it is, whether it
    returns or raises. *)
Definition keeps (j : ref) {X A} (m : M (World * X) A) : Prop :=
  forall s, job (fst (snd (m s))) j = job (fst s) j.

Definition msg_progress (id : string) (p : Q) : ClientMessage.t :=
  ClientMessage.mk ClientEvent.progress id p [] "".
Definition msg_finished (id : string) (images : ImageCollection.t) : ClientMessage.t :=
  ClientMessage.mk ClientEvent.finished id 1 images "".
Definition msg_interrupted (id : string) : ClientMessage.t :=
  ClientMessage.mk ClientEvent.interrupted id 0 [] "".

(** A model after one successful submission: the job "id-1" is queued. *)
Definition one_job_queued : Model.St :=
  snd (Model._generate ok_env full_bounds some_cond None None
         (empty_world 100, model_with_strength 1)).

(** The same with a second job, "id-2", behind it. *)
Definition two_jobs_queued : Model.St :=
  snd (Model.in_jobs (JobQueue.add "id-2" "a dog" full_bounds) one_job_queued).

(** A document whose only layer is active, and a model of it that has
    sent a control-layer job, "id-1", for the control specification. *)
Definition layered_document : Document.t :=
  Document.mk 512 512 "RGBA" "U8" [0%nat] (Some 0%nat).

Definition control_job_sent : Model.St :=
  snd (Model.run_task ok_env
         (snd (Model.generate_control_layer 0
                 (control_world 100,
                  Model.__init__ layered_document "style")))).

(** The control job "id-1" is still waiting when a diffusion job, sent
    after it, finishes with 200 MB of results. *)
Definition diffusion_overtakes_control : Model.St :=
  snd (Model.handle_message (msg_finished "id-2" [image_mb 200])
         (snd (Model.in_jobs (JobQueue.add "id-2" "a dog" full_bounds)
                 control_job_sent))).

(** Two documents: the model of the first has the job "id-1", the model
    of the second has none. *)
Definition two_models : ModelRegistry.St :=
  (fst one_job_queued,
   ModelRegistry.mk [snd one_job_queued; model_with_strength 1] true).

(** ** More statements about the queue *)

(** The jobs of the queue are objects of the store, each held once. *)
Definition well_formed (s : JobQueue.St) : Prop :=
  Forall (fun r => (r < length (job_store (fst s)))%nat) (JobQueue._entries (snd s)) /\
  NoDup (JobQueue._entries (snd s)).

(** The value a computation returns, when it returns. *)
Definition returned {S A} (d : A) (m : M S A) (s : S) : A :=
  match fst (m s) with
  | inr a => a
  | inl _ => d
  end.

(** A control job, then two diffusion jobs; the first diffusion job is
    executing and the second has finished. *)
Definition mixed_queue : JobQueue.St :=
  run [CAddControl 0 (mkBounds 0 0 512 512);
       CAdd "a" "a" (mkBounds 0 0 512 512);
       CAdd "b" "b" (mkBounds 0 0 512 512);
       CSetState 1 State.executing;
       CSetState 2 State.finished]
      (control_world 100, JobQueue.__init__).

(** ** More statements about submission *)

(** The bounds [_generate] gives the job, and the mask it gives the
    builder: with a mask, the absolute bounds of the mask, and the mask
    moved relative to the image bounds. *)
Definition job_bounds (bounds : Bounds) (mask : option Mask) : Bounds :=
  match mask with
  | Some k => mask_bounds k
  | None => bounds
  end.

Definition relative_mask (bounds : Bounds) (mask : option Mask) : option Mask :=
  match mask with
  | Some k =>
      Some (mkMask (mkBounds (x (mask_bounds k) - x bounds) (y (mask_bounds k) - y bounds)
                             (bwidth (mask_bounds k)) (bheight (mask_bounds k)))
                   (mask_data k))
  | None => None
  end.

(** The model after the part of [_generate] that precedes the request. *)
Definition progress_reset (w : World) (m : Model.t) : Model.t :=
  if returned false JobQueue.any_executing (w, Model.jobs m)
  then Model.set_jobs (Model.jobs m) m
  else Model.add_signal Model.changed
         (Model.set_progress 0 (Model.set_jobs (Model.jobs m) m)).

(** Selection operations that leave a selection as it is, and bounds as
    [workflow.compute_bounds] might give them: the mask's, or the whole
    extent. *)
Definition plain_ops : Document.SelectionOps :=
  Document.mkSelectionOps (fun _ sel => sel) (fun _ => 0%Z) (fun b _ => b)
                          (fun b _ => b) (fun sel _ => Document.sel_data sel).

Definition plain_bounds (e : Extent) (mask_bounds : option Bounds) (strength : Q) : Bounds :=
  match mask_bounds with
  | Some b => b
  | None => mkBounds 0 0 (width e) (height e)
  end.

(** A document in a colour depth the plugin does not handle. *)
Definition deep_document : Document.t :=
  Document.mk 512 512 "RGBA" "U16" [] None.

(** The control [generate] hands to the workflow for the control
    specification [c]: its layer read inside [bounds]. *)
Definition control_input (w : World) (bounds : Bounds) (c : ref) : Control.t :=
  Control.mk (Control.mode (the_control w c))
             (ImageData (Document.read_pixels bounds))
             (Control.strength (the_control w c)).

(** The image [generate] gathers: the document inside the image bounds
    when there is a mask or the strength is below 1, none otherwise. *)
Definition gathered_image (mask : option Mask) (strength : Q) (image_bounds : Bounds)
    : option Image :=
  if negb (is_None mask) || Qltb strength 1
  then Some (Document.read_pixels image_bounds)
  else None.

(** ** More statements about the preview *)

(** The objects after [insert_layer] has created [name] with [img] at
    [bounds] on top of the document. *)
Definition layer_inserted (w : World) (name : string) (img : Image) (bounds : Bounds)
    : World :=
  update_node (length (node_store w)) (Node.setPixelData img bounds)
    (update_node (length (node_store w)) (Node.setParent true)
       (with_nodes (fun st => st ++ [Node.mk name false true false None]) w)).

(** A model whose job "id-1" has finished and is shown in a preview
    layer. *)
Definition preview_shown : Model.St :=
  handle_messages [msg_finished "id-1" [some_image]] one_job_queued.

(** ** More statements about the registry *)

(** What [report_error] does to one model. *)
Definition with_error (message : string) (m : Model.t) : Model.t :=
  Model.add_signal Model.changed (Model.set_error message m).

(** A stream that makes the handler of "id-1" fail: the job finishes
    without images. *)
Definition failing_stream : list ClientMessage.t :=
  [msg_finished "id-1" []; msg_progress "id-1" (1 # 2)].

Definition has_id (sid : string) (jb : Job.t) : bool :=
  match Job.id jb with
  | Some i => String.eqb i sid
  | None => false
  end.

Definition refers_to (c : ref) (jb : Job.t) : bool :=
  match Job.control jb with
  | Some c' => Nat.eqb c' c
  | None => false
  end.

(** What [_generate] does with a request [request] once the chain has
    selected it: the builder runs, its result is enqueued, the job is added
    under the id the server assigned, and [changed] is emitted. *)
Definition submit (env : Env) (request : workflow.Request) (prompt : string)
    (bounds : Bounds) : M Model.St unit :=
  job <- Model.build env request ;;
  job_id <- Model.of_result (enqueue env job) ;;
  Model.in_jobs (JobQueue.add job_id prompt bounds) ;;;
  Model.emit Model.changed.

(** The mask [_generate] hands to the builder: the mask [k] with its
    bounds relative to the image bounds. *)
Definition relative_to (bounds : Bounds) (k : Mask) : Mask :=
  mkMask (mkBounds (x (mask_bounds k) - x bounds) (y (mask_bounds k) - y bounds)
                   (bwidth (mask_bounds k)) (bheight (mask_bounds k)))
         (mask_data k).

(** The model of a blank document at strength 2 after [generate], without
    a selection, gathered the inputs and started its task; and the same at
    strength 1. *)
Definition generate_at_strength (strength : Q) : Model.St :=
  snd (Model.generate plain_ops None plain_bounds
         (empty_world 100, model_with_strength strength)).

(** * Properties *)

(** ** Arithmetic of footprints *)

Lemma Qgtb_true (a b : Q) : Qgtb a b = true <-> (b < a)%Q.
Proof.
  unfold Qgtb. rewrite negb_true_iff. split; intros H.
  - apply Qnot_le_lt. intros Hle. apply Qle_bool_iff in Hle. congruence.
  - destruct (Qle_bool a b) eqn:E; [|reflexivity].
    apply Qle_bool_iff in E. exfalso. apply (Qlt_not_le _ _ H E).
Qed.

Lemma Qgtb_false (a b : Q) : Qgtb a b = false <-> (a <= b)%Q.
Proof.
  unfold Qgtb. rewrite negb_false_iff. apply Qle_bool_iff.
Qed.

Lemma size_mb_nonneg (c : ImageCollection.t) : (0 <= size_mb c)%Q.
Proof.
  unfold size_mb. apply Qle_shift_div_l; [reflexivity|].
  rewrite Qmult_0_l. change 0%Q with (inject_Z 0).
  rewrite <- Zle_Qle. lia.
Qed.

Lemma size_mb_nil : (size_mb [] == 0)%Q.
Proof. reflexivity. Qed.

Lemma footprint_nil (w : World) : footprint w [] = 0%Q.
Proof. reflexivity. Qed.

Lemma footprint_cons (w : World) (r : ref) (l : list ref) :
  footprint w (r :: l) = (size_mb (Job._results (job w r)) + footprint w l)%Q.
Proof. reflexivity. Qed.

Lemma footprint_nonneg (w : World) (l : list ref) : (0 <= footprint w l)%Q.
Proof.
  induction l as [|r l IH]; [apply Qle_refl|].
  rewrite footprint_cons.
  pose proof (size_mb_nonneg (Job._results (job w r))). lra.
Qed.

Lemma footprint_app (w : World) (l1 l2 : list ref) :
  (footprint w (l1 ++ l2) == footprint w l1 + footprint w l2)%Q.
Proof.
  induction l1 as [|r l1 IH].
  - rewrite footprint_nil. simpl. lra.
  - change ((r :: l1) ++ l2) with (r :: (l1 ++ l2)).
    rewrite !footprint_cons. lra.
Qed.

(** Footprints only depend on the results of the jobs listed. *)
Lemma footprint_ext (w w' : World) (l : list ref) :
  (forall r, r ∈ l -> Job._results (job w' r) = Job._results (job w r)) ->
  footprint w' l = footprint w l.
Proof.
  induction l as [|r l IH]; intros H; [reflexivity|].
  rewrite !footprint_cons, H, IH; [reflexivity| |left].
  intros r' Hr'. apply H. now right.
Qed.

(** ** The eviction loop *)

(** The loop pops a prefix [evicted] of the jobs older than [keep]; it
    stops at [keep] at the latest, and earlier once the footprint is back
    under the ceiling. *)
Lemma prune_loop_spec (w : World) (keep : ref) (newer : list ref) :
  forall (older : list ref) (mem : Q),
    keep ∉ older ->
    exists evicted kept mem',
      older = evicted ++ kept /\
      JobQueue.prune_loop w keep (older ++ keep :: newer) mem
        = (inr tt, (kept ++ keep :: newer, mem')) /\
      (mem' == mem - footprint w evicted)%Q /\
      (kept <> [] -> (mem' <= history_size (settings w))%Q) /\
      ((history_size (settings w) < mem - footprint w older)%Q -> kept = []).
Proof.
  induction older as [|e older IH]; intros mem Hnot.
  - exists [], [], mem. simpl. rewrite Nat.eqb_refl. simpl.
    rewrite footprint_nil.
    repeat split; try (intros; congruence); try lra.
    destruct (Qgtb mem _); reflexivity.
  - assert (He : e <> keep) by (intros ->; apply Hnot; left).
    assert (Hnot' : keep ∉ older) by (intros Hin; apply Hnot; now right).
    destruct (Qgtb mem (history_size (settings w))) eqn:Hgt.
    + destruct (IH (mem - size_mb (Job._results (job w e)))%Q Hnot')
        as (evicted & kept & mem' & Hsplit & Hrun & Hmem & Hstop & Hall).
      exists (e :: evicted), kept, mem'. simpl. rewrite Hgt.
      apply Nat.eqb_neq in He. rewrite He. simpl.
      repeat split.
      * now rewrite Hsplit.
      * exact Hrun.
      * rewrite Hmem. rewrite footprint_cons. lra.
      * exact Hstop.
      * intros Hover. apply Hall. rewrite footprint_cons in Hover. lra.
    + exists [], (e :: older), mem. simpl. rewrite Hgt, footprint_nil.
      repeat split; try lra.
      * intros _. now apply Qgtb_false.
      * intros Hover. apply Qgtb_false in Hgt.
        pose proof (footprint_nonneg w (e :: older)). lra.
Qed.

(** A queue with [keep] in it splits at the first occurrence of [keep]. *)
Lemma split_first (keep : ref) (l : list ref) :
  keep ∈ l -> exists older newer, l = older ++ keep :: newer /\ keep ∉ older.
Proof.
  induction l as [|e l IH]; intros Hin.
  - inversion Hin.
  - destruct (Nat.eq_dec e keep) as [->|Hne].
    + exists [], l. split; [reflexivity|]. intros H. inversion H.
    + assert (Hin' : keep ∈ l) by (inversion Hin; subst; [congruence|assumption]).
      destruct (IH Hin') as (older & newer & -> & Hnot).
      exists (e :: older), newer. split; [reflexivity|].
      intros H. inversion H; subst; [congruence|]. now apply Hnot.
Qed.

(** ** Retention: what [prune] evicts *)

(** C1: whatever the queue and the footprint, [prune(keep)] returns
    normally and [keep], when it is in the queue, is still in the queue
    afterwards; the loop never pops it, also when the footprint stays over
    the ceiling. *)
Theorem prune_never_evicts_keep (w : World) (q : JobQueue.t) (keep : ref) :
  keep ∈ JobQueue._entries q ->
  exists q',
    JobQueue.prune keep (w, q) = (inr tt, (w, q')) /\
    keep ∈ JobQueue._entries q'.
Proof.
  intros Hin.
  destruct (split_first keep _ Hin) as (older & newer & Hq & Hnot).
  destruct (prune_loop_spec w keep newer older (JobQueue._memory_usage q) Hnot)
    as (evicted & kept & mem' & _ & Hrun & _).
  exists (JobQueue.mk (kept ++ keep :: newer) mem').
  unfold JobQueue.prune. rewrite Hq, Hrun. split; [reflexivity|].
  simpl. apply elem_of_app. right. left.
Qed.

Lemma prune_never_evicts_keep_witness :
  1%nat ∈ JobQueue._entries (snd three_jobs_done) /\
  exists q',
    JobQueue.prune 1 three_jobs_done = (inr tt, (fst three_jobs_done, q')) /\
    1%nat ∈ JobQueue._entries q'.
Proof.
  assert (H : 1%nat ∈ JobQueue._entries (snd three_jobs_done))
    by (right; left).
  split; [exact H|].
  exact (prune_never_evicts_keep (fst three_jobs_done) (snd three_jobs_done) 1%nat H).
Defined.

(** C10: [prune(keep)] pops a prefix of the jobs that precede [keep] in the
    queue: [keep] and every job after it stay, the footprint goes down by
    what the popped jobs held, and when the jobs from [keep] on account for
    more than the ceiling, all older jobs are popped and the footprint is
    still above the ceiling afterwards. *)
Theorem prune_evicts_only_older (w : World) (q : JobQueue.t) (keep : ref)
    (older newer : list ref) :
  JobQueue._entries q = older ++ keep :: newer ->
  keep ∉ older ->
  exists evicted kept q',
    older = evicted ++ kept /\
    JobQueue.prune keep (w, q) = (inr tt, (w, q')) /\
    JobQueue._entries q' = kept ++ keep :: newer /\
    (JobQueue._memory_usage q' == JobQueue._memory_usage q - footprint w evicted)%Q /\
    ((history_size (settings w) < JobQueue._memory_usage q - footprint w older)%Q ->
     kept = [] /\ (history_size (settings w) < JobQueue._memory_usage q')%Q).
Proof.
  intros Hq Hnot.
  destruct (prune_loop_spec w keep newer older (JobQueue._memory_usage q) Hnot)
    as (evicted & kept & mem' & Hsplit & Hrun & Hmem & _ & Hall).
  exists evicted, kept, (JobQueue.mk (kept ++ keep :: newer) mem').
  unfold JobQueue.prune. rewrite Hq, Hrun. simpl.
  repeat split; try assumption.
  - now apply Hall.
  - pose proof (Hall H) as ->. rewrite app_nil_r in Hsplit. subst evicted.
    lra.
Qed.

Lemma prune_evicts_only_older_witness :
  JobQueue._entries (snd three_jobs_done) = [0%nat] ++ 1%nat :: [2%nat] /\
  (1%nat ∉ [0%nat]) /\
  exists evicted kept q',
    [0%nat] = evicted ++ kept /\
    JobQueue.prune 1 three_jobs_done = (inr tt, (fst three_jobs_done, q')) /\
    JobQueue._entries q' = kept ++ 1%nat :: [2%nat] /\
    (JobQueue._memory_usage q'
       == JobQueue._memory_usage (snd three_jobs_done)
          - footprint (fst three_jobs_done) evicted)%Q /\
    ((history_size (settings (fst three_jobs_done))
        < JobQueue._memory_usage (snd three_jobs_done)
          - footprint (fst three_jobs_done) [0%nat])%Q ->
     kept = [] /\
     (history_size (settings (fst three_jobs_done)) < JobQueue._memory_usage q')%Q).
Proof.
  assert (H1 : JobQueue._entries (snd three_jobs_done) = [0%nat] ++ 1%nat :: [2%nat])
    by reflexivity.
  assert (H2 : 1%nat ∉ [0%nat])
    by (apply not_elem_of_cons; split; [lia | apply not_elem_of_nil]).
  split; [exact H1|]. split; [exact H2|].
  exact (prune_evicts_only_older (fst three_jobs_done) (snd three_jobs_done)
           1%nat [0%nat] [2%nat] H1 H2).
Defined.

(** The scenario of the specification: 80 MB and 90 MB against 100 MB,
    the second job is [keep]; only the second remains, with 90 MB. *)
Example prune_scenario :
  let '(w, q) := three_jobs in
  let s := (update_job 0 (Job.set_results [image_mb 80])
              (update_job 1 (Job.set_results [image_mb 90]) w),
            JobQueue.mk [0%nat; 1%nat] 170) in
  let '(r, (_, q')) := JobQueue.prune 1 s in
  r = inr tt /\ JobQueue._entries q' = [1%nat] /\ (JobQueue._memory_usage q' == 90)%Q.
Proof. vm_compute. repeat split. Qed.

(** ** Accounting of the footprint *)

Lemma job_update_eq (w : World) (r : ref) (f : Job.t -> Job.t) :
  (r < length (job_store w))%nat -> job (update_job r f w) r = f (job w r).
Proof.
  intros Hr. unfold job, update_job. simpl.
  rewrite list_lookup_total_insert_eq; [reflexivity|assumption].
Qed.

Lemma job_update_ne (w : World) (r r' : ref) (f : Job.t -> Job.t) :
  r <> r' -> job (update_job r f w) r' = job w r'.
Proof.
  intros Hr. unfold job, update_job. simpl.
  rewrite list_lookup_total_insert_ne; [reflexivity|assumption].
Qed.

Lemma length_update_job (w : World) (r : ref) (f : Job.t -> Job.t) :
  length (job_store (update_job r f w)) = length (job_store w).
Proof. unfold update_job. simpl. apply length_insert. Qed.

Lemma job_alloc_old (w : World) (j : Job.t) (r : ref) :
  (r < length (job_store w))%nat ->
  job (with_jobs (fun st => st ++ [j]) w) r = job w r.
Proof. intros Hr. unfold job. simpl. now apply lookup_total_app_l. Qed.

Lemma job_alloc_new (w : World) (j : Job.t) :
  job (with_jobs (fun st => st ++ [j]) w) (length (job_store w)) = j.
Proof. unfold job. simpl. apply list_lookup_total_middle. reflexivity. Qed.

Lemma filter_all {A} (p : A -> bool) (l : list A) :
  Forall (fun a => p a = true) l -> List.filter p l = l.
Proof.
  induction 1 as [|a l Ha _ IH]; simpl; [reflexivity|].
  now rewrite Ha, IH.
Qed.

Lemma accounted_retained (s : JobQueue.St) :
  accounted s -> (JobQueue.memory_usage (snd s) == retained_footprint s)%Q.
Proof.
  intros [_ _ Hk Hm]. unfold retained_footprint, JobQueue.memory_usage.
  rewrite Hm.
  replace (List.filter (is_diffusion (fst s)) (JobQueue._entries (snd s)))
    with (JobQueue._entries (snd s)); [reflexivity|].
  symmetry. apply filter_all. exact Hk.
Qed.

Lemma accounted_init (w : World) : accounted (w, JobQueue.__init__).
Proof.
  split; simpl; try constructor.
Qed.

Lemma accounted_add (s : JobQueue.St) (i p : string) (b : Bounds) :
  accounted s -> accounted (snd (JobQueue.add i p b s)).
Proof.
  destruct s as [w q]. intros [Hv Hn Hk Hm]. simpl in *.
  set (j := Job.__init__ (Some i) JobKind.diffusion p b (clock w)).
  assert (Hold : forall r, r ∈ JobQueue._entries q ->
            job (with_jobs (fun st => st ++ [j]) w) r = job w r).
  { intros r Hr. apply job_alloc_old. rewrite Forall_forall in Hv. now apply Hv. }
  split; simpl.
  - rewrite length_app. simpl. apply Forall_app. split.
    + eapply Forall_impl; [exact Hv|]. simpl. intros; lia.
    + constructor; [lia|constructor].
  - apply NoDup_app. repeat split; [assumption| |apply NoDup_singleton].
    intros r Hr Hr'. apply list_elem_of_singleton in Hr'. subst r.
    rewrite Forall_forall in Hv. specialize (Hv _ Hr). simpl in Hv. lia.
  - apply Forall_app. split.
    + rewrite Forall_forall in *. intros r Hr. unfold is_diffusion.
      rewrite Hold by assumption. now apply Hk.
    + constructor; [|constructor]. unfold is_diffusion.
      now rewrite job_alloc_new.
  - rewrite footprint_app, footprint_cons, footprint_nil, job_alloc_new.
    rewrite (footprint_ext w) by (intros r Hr; now rewrite Hold).
    rewrite Hm. simpl. rewrite size_mb_nil. lra.
Qed.

Lemma set_results_unfold (w : World) (q : JobQueue.t) (j : ref)
    (rs : ImageCollection.t) :
  is_diffusion (update_job j (Job.set_results rs) w) j = true ->
  JobQueue.set_results j rs (w, q)
  = JobQueue.prune j (update_job j (Job.set_results rs) w,
                      JobQueue.set_memory (JobQueue._memory_usage q + size_mb rs) q).
Proof.
  unfold is_diffusion. intros Hk.
  unfold JobQueue.set_results, bind, modify, gets, when. simpl. now rewrite Hk.
Qed.

Lemma accounted_set_results (s : JobQueue.St) (j : ref) (rs : ImageCollection.t) :
  accounted s ->
  j ∈ JobQueue._entries (snd s) ->
  Job._results (job (fst s) j) = [] ->
  accounted (snd (JobQueue.set_results j rs s)).
Proof.
  destruct s as [w q]. intros [Hv Hn Hk Hm] Hin Hres. simpl in *.
  set (w1 := update_job j (Job.set_results rs) w).
  assert (Hj : (j < length (job_store w))%nat)
    by (rewrite Forall_forall in Hv; now apply Hv).
  assert (Hjob : job w1 j = Job.set_results rs (job w j))
    by (now apply job_update_eq).
  assert (Hother : forall r, r <> j -> job w1 r = job w r)
    by (intros r Hr; apply job_update_ne; congruence).
  assert (Hkind : forall r, is_diffusion w1 r = is_diffusion w r).
  { intros r. unfold is_diffusion. destruct (Nat.eq_dec r j) as [->|Hr].
    - now rewrite Hjob.
    - now rewrite Hother. }
  rewrite set_results_unfold
    by (fold w1; rewrite Hkind; rewrite Forall_forall in Hk; now apply Hk).
  fold w1.
  destruct (split_first j _ Hin) as (older & newer & Hq & Hnot).
  destruct (prune_loop_spec w1 j newer older
              (JobQueue._memory_usage q + size_mb rs)%Q Hnot)
    as (evicted & kept & mem' & Hsplit & Hrun & Hmem & _).
  unfold JobQueue.prune. simpl. rewrite Hq, Hrun. simpl.
  rewrite Hq, Hsplit in Hv, Hn, Hk, Hm.
  rewrite <- app_assoc in Hv, Hn, Hk, Hm.
  apply Forall_app in Hv as [_ Hv]. apply Forall_app in Hk as [_ Hk].
  apply NoDup_app in Hn as (_ & _ & Hn).
  assert (Hjn : j ∉ newer).
  { apply NoDup_app in Hn as (_ & _ & Hn).
    apply NoDup_cons in Hn as [Hn _]. exact Hn. }
  assert (Hje : (j ∉ evicted) /\ (j ∉ kept)).
  { rewrite Hsplit in Hnot. now apply not_elem_of_app in Hnot. }
  destruct Hje as [Hje Hjk].
  assert (Hfp : forall l, j ∉ l -> footprint w1 l = footprint w l).
  { intros l Hl. apply footprint_ext. intros r Hr. rewrite Hother; [reflexivity|].
    intros ->. contradiction. }
  split; cbn [fst snd JobQueue._entries JobQueue._memory_usage].
  - unfold w1. rewrite length_update_job. exact Hv.
  - exact Hn.
  - eapply Forall_impl; [exact Hk|]. simpl. intros r Hr. now rewrite Hkind.
  - rewrite Hmem, Hm.
    rewrite !footprint_app, !footprint_cons, Hjob, Hres.
    rewrite !(Hfp evicted), !(Hfp kept), !(Hfp newer) by assumption.
    simpl. rewrite size_mb_nil. lra.
Qed.

Lemma accounted_run (cs : list Call) :
  forall s : JobQueue.St,
    forallb add_or_set_results cs = true ->
    first_results cs s ->
    accounted s ->
    accounted (run cs s).
Proof.
  induction cs as [|c cs IH]; intros s Hcs Hfirst Hacc; [exact Hacc|].
  simpl in Hcs. apply andb_true_iff in Hcs as [Hc Hcs].
  destruct Hfirst as [Hnow Hlater]. simpl.
  apply IH; [assumption|assumption|].
  destruct c; try discriminate; simpl.
  - now apply accounted_add.
  - destruct Hnow. now apply accounted_set_results.
Qed.

(** C2 as stated, at a run that hands results to the same job twice: the
    footprint of the first results stays in the total although the job no
    longer holds them. *)
Lemma memory_usage_counts_replaced_results :
  let cs := [CAdd "a" "a" (mkBounds 0 0 512 512);
             CSetResults 0 [image_mb 10];
             CSetResults 0 [image_mb 20]] in
  let s := run cs (empty_world 1000, JobQueue.__init__) in
  forallb add_or_set_results cs = true /\
  (JobQueue.memory_usage (snd s) == 30)%Q /\
  (retained_footprint s == 20)%Q /\
  ~ (JobQueue.memory_usage (snd s) == retained_footprint s)%Q.
Proof.
  vm_compute. repeat split. intros H. discriminate H.
Qed.

(** C2, amended: along every sequence of [add] and [set_results] calls on a
    new queue in which each [set_results] is given a job that is in the queue
    and has no results yet, the tracked [memory_usage] equals the footprint
    in MB of the results of the diffusion jobs in the queue. *)
Theorem memory_usage_is_retained_footprint (w0 : World) (cs : list Call) :
  forallb add_or_set_results cs = true ->
  first_results cs (w0, JobQueue.__init__) ->
  (JobQueue.memory_usage (snd (run cs (w0, JobQueue.__init__)))
     == retained_footprint (run cs (w0, JobQueue.__init__)))%Q.
Proof.
  intros Hcs Hfirst. apply accounted_retained.
  apply accounted_run; [assumption|assumption|apply accounted_init].
Qed.

Lemma memory_usage_is_retained_footprint_witness :
  let cs := [CAdd "a" "a" (mkBounds 0 0 512 512);
             CAdd "b" "b" (mkBounds 0 0 512 512);
             CSetResults 0 [image_mb 80];
             CSetResults 1 [image_mb 90]] in
  forallb add_or_set_results cs = true /\
  first_results cs (empty_world 100, JobQueue.__init__) /\
  (JobQueue.memory_usage (snd (run cs (empty_world 100, JobQueue.__init__)))
     == retained_footprint (run cs (empty_world 100, JobQueue.__init__)))%Q.
Proof.
  assert (H1 : forallb add_or_set_results
                 [CAdd "a" "a" (mkBounds 0 0 512 512);
                  CAdd "b" "b" (mkBounds 0 0 512 512);
                  CSetResults 0 [image_mb 80];
                  CSetResults 1 [image_mb 90]] = true) by reflexivity.
  assert (H2 : first_results
                 [CAdd "a" "a" (mkBounds 0 0 512 512);
                  CAdd "b" "b" (mkBounds 0 0 512 512);
                  CSetResults 0 [image_mb 80];
                  CSetResults 1 [image_mb 90]]
                 (empty_world 100, JobQueue.__init__)).
  { simpl. repeat split; try reflexivity.
    - left.
    - vm_compute. right. left. }
  split; [exact H1|]. split; [exact H2|].
  exact (memory_usage_is_retained_footprint (empty_world 100) _ H1 H2).
Defined.

(** ** Control jobs and retention *)

(** C3 at the failing input: the results of the diffusion job exceed the
    ceiling, and the loop of [prune] pops the control job that is older,
    without any call of [remove]. *)
Lemma prune_evicts_control_job :
  let s := control_then_diffusion in
  let s' := snd (JobQueue.set_results 1 [image_mb 200] s) in
  JobQueue._entries (snd s) = [0%nat; 1%nat] /\
  Job.kind (job (fst s) 0) = JobKind.control_layer /\
  fst (JobQueue.set_results 1 [image_mb 200] s) = inr tt /\
  JobQueue._entries (snd s') = [1%nat].
Proof. vm_compute. repeat split. Qed.

(** The same through the model: the finished diffusion job evicts the
    waiting control job, and the result of the control job, when it arrives,
    finds no owner: the control specification never gets its image. *)
Example evicted_control_job_is_orphaned :
  let s := diffusion_overtakes_control in
  let r := (fst s, ModelRegistry.mk [snd s] true) in
  JobQueue._entries (Model.jobs (snd control_job_sent)) = [0%nat] /\
  JobQueue._entries (Model.jobs (snd s)) = [1%nat] /\
  ModelRegistry.dispatch [msg_finished "id-1" [some_image]] r = (inr tt, r) /\
  Control.image (the_control (fst s) 0) = NoImage.
Proof. vm_compute. repeat split. Qed.

(** ** Lookup *)

Lemma job_update_field {B} (g : Job.t -> B) (f : Job.t -> Job.t) (w : World)
    (j r : ref) :
  (forall jb, g (f jb) = g jb) -> g (job (update_job j f w) r) = g (job w r).
Proof.
  intros Hg. destruct (Nat.eq_dec j r) as [->|Hne].
  - destruct (Nat.lt_ge_cases r (length (job_store w))) as [Hlt|Hge].
    + rewrite job_update_eq by assumption. apply Hg.
    + unfold job, update_job. simpl. now rewrite list_insert_ge.
  - now rewrite job_update_ne.
Qed.

(** Whatever happens, the loop of [prune] leaves a suffix of the deque. *)
Lemma prune_loop_suffix (w : World) (keep : ref) :
  forall (entries : list ref) (mem : Q),
    exists evicted,
      entries = evicted ++ fst (snd (JobQueue.prune_loop w keep entries mem)).
Proof.
  induction entries as [|e entries IH]; intros mem; simpl.
  - exists []. destruct (Qgtb mem _); reflexivity.
  - destruct (Qgtb mem _); [|now exists []].
    destruct (negb (e =? keep)%nat); [|now exists []].
    destruct (IH (mem - size_mb (Job._results (job w e)))%Q) as [ev Hev].
    exists (e :: ev). simpl. now rewrite <- Hev.
Qed.

Lemma remove_first_Forall (P : ref -> Prop) (r : ref) :
  forall l l', JobQueue.remove_first r l = Some l' -> Forall P l -> Forall P l'.
Proof.
  induction l as [|e l IH]; intros l' Hrm Hall; simpl in Hrm; [discriminate|].
  apply Forall_cons in Hall as [He Hall].
  destruct (e =? r)%nat.
  - now injection Hrm as <-.
  - destruct (JobQueue.remove_first r l) as [l0|]; [|discriminate].
    injection Hrm as <-. constructor; [assumption|]. now apply IH.
Qed.

Lemma tidy_update (w : World) (j : ref) (f : Job.t -> Job.t) (l : list ref) :
  (forall jb, Job.kind (f jb) = Job.kind jb) ->
  (forall jb, Job.control (f jb) = Job.control jb) ->
  Forall (tidy_job w) l -> Forall (tidy_job (update_job j f w)) l.
Proof.
  intros Hk Hc Hall. eapply Forall_impl; [exact Hall|]. intros r [Hr Hd]. split.
  - now rewrite length_update_job.
  - rewrite (job_update_field Job.kind), (job_update_field Job.control); assumption.
Qed.

Lemma tidy_append (w : World) (jb : Job.t) (l : list ref) :
  (Job.kind jb = JobKind.diffusion -> Job.control jb = None) ->
  Forall (tidy_job w) l ->
  Forall (tidy_job (with_jobs (fun st => st ++ [jb]) w)) (l ++ [length (job_store w)]).
Proof.
  intros Hjb Hall. apply Forall_app. split.
  - eapply Forall_impl; [exact Hall|]. intros r [Hr Hd]. split.
    + simpl. rewrite length_app. simpl. lia.
    + now rewrite job_alloc_old.
  - constructor; [|constructor]. split.
    + simpl. rewrite length_app. simpl. lia.
    + now rewrite job_alloc_new.
Qed.

Lemma tidy_call (c : Call) (s : JobQueue.St) : tidy s -> tidy (snd (call c s)).
Proof.
  destruct s as [w q]. unfold tidy. simpl. intros Hall.
  destruct c as [i p b|c b|j|j rs|j i|j st]; simpl.
  - now apply tidy_append.
  - apply tidy_append; [discriminate|assumption].
  - unfold JobQueue.remove, bind, gets, assert. simpl.
    destruct (JobKind.eqb _ _); simpl; [|assumption].
    destruct (JobQueue.remove_first j (JobQueue._entries q)) as [es|] eqn:Hrm;
      simpl; [|assumption].
    eapply remove_first_Forall; eassumption.
  - assert (Hup : Forall (tidy_job (update_job j (Job.set_results rs) w))
                         (JobQueue._entries q))
      by (apply tidy_update; [reflexivity|reflexivity|assumption]).
    unfold JobQueue.set_results, bind, modify, gets, when. simpl.
    destruct (JobKind.eqb _ _); simpl; [|assumption].
    destruct (prune_loop_suffix (update_job j (Job.set_results rs) w) j
                (JobQueue._entries q) (JobQueue._memory_usage q + size_mb rs)%Q)
      as [ev Hev].
    destruct (JobQueue.prune_loop _ _ _ _) as [r [es mem]]. simpl in *.
    rewrite Hev in Hup. now apply Forall_app in Hup as [_ Hup].
  - apply tidy_update; [reflexivity|reflexivity|assumption].
  - apply tidy_update; [reflexivity|reflexivity|assumption].
Qed.

Lemma tidy_run (cs : list Call) : forall s, tidy s -> tidy (run cs s).
Proof.
  induction cs as [|c cs IH]; intros s Hs; [exact Hs|].
  simpl. apply IH. now apply tidy_call.
Qed.

Lemma find_some_elem {A} (p : A -> bool) (l : list A) (a : A) :
  List.find p l = Some a -> a ∈ l /\ p a = true.
Proof.
  intros H. apply find_some in H as [Hin Hp]. split; [|assumption].
  now apply list_elem_of_In.
Qed.

(** C6 as stated, at a control job whose id has arrived: the lookup by that
    string returns the control job. *)
Lemma find_by_id_returns_control_job :
  let s := run [CAddControl 0 (mkBounds 0 0 512 512); CSetId 0 "x"]
               (control_world 100, JobQueue.__init__) in
  JobQueue.find (JobQueue.KStr "x") s = (inr (Some 0%nat), s) /\
  Job.kind (job (fst s) 0) = JobKind.control_layer.
Proof. vm_compute. split; reflexivity. Qed.

(** C6, amended: in every state a queue reaches from its creation, [find]
    called with a control-spec reference never returns a diffusion job (the
    job it returns is the control job that refers to that specification),
    and [find] called with a string returns a job of the queue with that
    id, of either kind. *)
Theorem find_by_control_returns_control_job (w0 : World) (cs : list Call)
    (c : ref) (sid : string) (j : ref) :
  let s := run cs (w0, JobQueue.__init__) in
  (JobQueue.find (JobQueue.KControl c) s = (inr (Some j), s) ->
   Job.kind (job (fst s) j) = JobKind.control_layer /\
   Job.control (job (fst s) j) = Some c /\
   j ∈ JobQueue._entries (snd s)) /\
  (JobQueue.find (JobQueue.KStr sid) s = (inr (Some j), s) ->
   Job.id (job (fst s) j) = Some sid /\
   j ∈ JobQueue._entries (snd s)).
Proof.
  intros s.
  assert (Ht : tidy s) by (apply tidy_run; constructor).
  destruct s as [w q]. unfold tidy in Ht. simpl in *.
  unfold gets. split; intros H; injection H as H;
    apply find_some_elem in H as [Hin Hp].
  - unfold JobQueue.control_is in Hp.
    destruct (Job.control (job w j)) as [c'|] eqn:Hc; [|discriminate].
    apply Nat.eqb_eq in Hp. subst c'.
    rewrite Forall_forall in Ht. destruct (Ht _ Hin) as [_ Hd].
    repeat split; [|assumption].
    destruct (Job.kind (job w j)); [|reflexivity].
    specialize (Hd eq_refl). congruence.
  - unfold JobQueue.id_is in Hp.
    destruct (Job.id (job w j)) as [i|] eqn:Hi; [|discriminate].
    apply String.eqb_eq in Hp. subst i. now split.
Qed.

Lemma find_by_control_returns_control_job_witness :
  let s := run [CAddControl 0 (mkBounds 0 0 512 512);
                CSetId 0 "x";
                CAdd "a" "a" (mkBounds 0 0 512 512)]
               (control_world 100, JobQueue.__init__) in
  (JobQueue.find (JobQueue.KControl 0) s = (inr (Some 0%nat), s) /\
   Job.kind (job (fst s) 0) = JobKind.control_layer /\
   Job.control (job (fst s) 0) = Some 0%nat /\
   0%nat ∈ JobQueue._entries (snd s)) /\
  (JobQueue.find (JobQueue.KStr "a") s = (inr (Some 1%nat), s) /\
   Job.id (job (fst s) 1) = Some "a" /\
   1%nat ∈ JobQueue._entries (snd s)).
Proof.
  split.
  - split; [reflexivity|].
    apply (find_by_control_returns_control_job (control_world 100)
             [CAddControl 0 (mkBounds 0 0 512 512);
              CSetId 0 "x";
              CAdd "a" "a" (mkBounds 0 0 512 512)] 0%nat "x" 0%nat).
    reflexivity.
  - split; [reflexivity|].
    apply (find_by_control_returns_control_job (control_world 100)
             [CAddControl 0 (mkBounds 0 0 512 512);
              CSetId 0 "x";
              CAdd "a" "a" (mkBounds 0 0 512 512)] 0%nat "a" 1%nat).
    reflexivity.
Defined.

(** ** Submission *)

Lemma Qltb_true (a b : Q) : Qltb a b = true <-> (a < b)%Q.
Proof. unfold Qltb. apply (Qgtb_true b a). Qed.

Lemma Qltb_false (a b : Q) : Qltb a b = false <-> (b <= a)%Q.
Proof. unfold Qltb. apply (Qgtb_false b a). Qed.

Lemma Qeq_bool_false (a b : Q) : Qeq_bool a b = false <-> ~ (a == b)%Q.
Proof.
  split; intros H.
  - now apply Qeq_bool_neq.
  - destruct (Qeq_bool a b) eqn:E; [|reflexivity].
    apply Qeq_bool_iff in E. contradiction.
Qed.

Lemma report_errors_catches {A} (env : Env) (coro : M Model.St A) (s : Model.St)
    (e : exn) (w' : World) (m' : Model.t) :
  coro s = (inl e, (w', m')) ->
  derives_from_Exception e = true ->
  _report_errors env Model.report_error coro s
  = (inr None,
     (w', Model.add_signal Model.changed (Model.set_error (error_text env e) m'))).
Proof.
  intros H He. unfold _report_errors. rewrite H.
  destruct e; try discriminate He; reflexivity.
Qed.

Lemma select_request_cases (style : Style) (strength : Q) (bounds : Bounds)
    (cond : Conditioning) (image : option Image) (mask : option Mask) :
  let select := Model.select_request style strength bounds cond image mask in
  (image = None -> mask = None -> (strength == 1)%Q ->
   select = inr (workflow.generate style (extent_of bounds) cond)) /\
  (forall i, image = Some i -> mask = None -> (strength < 1)%Q ->
   select = inr (workflow.refine style i cond strength)) /\
  (forall i k, image = Some i -> mask = Some k -> (strength == 1)%Q ->
   select = inr (workflow.inpaint style i k cond)) /\
  (forall i k, image = Some i -> mask = Some k -> (strength < 1)%Q ->
   select = inr (workflow.refine_region style i k cond strength)) /\
  (forall r, select = inr r ->
   builder_of r = shape (negb (is_None mask)) (Qltb strength 1)) /\
  (forall e, select = inl e -> e = AssertionError "") /\
  (image = None -> mask = None -> ~ (strength == 1)%Q ->
   select = inl (AssertionError "")).
Proof.
  intros select. unfold select, Model.select_request.
  split; [|split; [|split; [|split; [|split; [|split]]]]].
  - intros -> -> Hs. simpl. apply Qeq_bool_iff in Hs. now rewrite Hs.
  - intros i -> -> Hs. simpl. apply Qltb_true in Hs. now rewrite Hs.
  - intros i k -> -> Hs. simpl. apply Qeq_bool_iff in Hs. now rewrite Hs.
  - intros i k -> -> Hs. simpl.
    assert (Hne : Qeq_bool strength 1 = false) by (apply Qeq_bool_false; lra).
    apply Qltb_true in Hs. now rewrite Hne, Hs.
  - intros r. destruct image as [i|], mask as [k|]; simpl;
      destruct (Qeq_bool strength 1) eqn:He, (Qltb strength 1) eqn:Hl;
      try discriminate; try (intros H; injection H as <-; reflexivity).
    all: apply Qeq_bool_iff in He; apply Qltb_true in Hl; lra.
  - intros e. destruct image as [i|], mask as [k|]; simpl;
      destruct (Qeq_bool strength 1), (Qltb strength 1);
      try discriminate; intros H; now injection H as <-.
  - intros -> -> Hs. apply Qeq_bool_false in Hs. simpl. now rewrite Hs.
Qed.

(** With the connection up, [_generate] is: reset the progress unless a job
    is executing, select the request for the image and the mask made
    relative, and submit it under the bounds of the job. *)
Lemma generate_run (env : Env) (w : World) (m : Model.t) (bounds : Bounds)
    (cond : Conditioning) (image : option Image) (mask : option Mask) :
  connection_state w = connected ->
  Model._generate env bounds cond image mask (w, m)
  = match Model.select_request (Model.style m) (Model.strength m)
            (job_bounds bounds mask) cond image (relative_mask bounds mask) with
    | inr request =>
        submit env request (cond_prompt cond) (job_bounds bounds mask)
               (w, progress_reset w m)
    | inl e => (inl e, (w, progress_reset w m))
    end.
Proof.
  intros Hconn. unfold Model._generate, progress_reset, returned, submit.
  unfold bind at 1. unfold gets at 1. cbn [fst snd]. rewrite Hconn.
  cbn [Model.is_connected assert]. unfold bind at 1. cbn [ret].
  unfold bind at 1. unfold gets at 1. cbn [fst snd].
  unfold bind at 1. unfold gets at 1. cbn [fst snd].
  unfold bind at 1. unfold Model.in_jobs at 1. unfold zoom at 1.
  unfold JobQueue.any_executing, gets. cbn [fst snd].
  destruct (existsb _ _); cbn [negb when];
    unfold bind at 1; cbn [ret];
    [|unfold bind at 1; unfold Model.on_self at 1; unfold modify at 1;
      unfold Model.emit at 1; unfold Model.on_self at 1; unfold modify at 1];
    destruct mask as [k|]; cbn [job_bounds relative_mask];
    unfold bind at 1; unfold Model.of_result at 1;
    destruct (Model.select_request _ _ _ _ _ _); reflexivity.
Qed.

(** C5 as stated, at the call site of [_generate]: [generate] at strength 2
    without a selection gathers neither image nor mask, so the assertion of
    the first branch fails in [_generate].  [_report_errors] catches the
    [AssertionError]: the task returns normally, nothing is queued, and the
    error text of the model is set -- just as when [enqueue] fails with a
    network error at strength 1. *)
Lemma failed_assertion_is_recovered :
  let s := generate_at_strength 2 in
  let cond := mkConditioning "" [] in
  Model.task (snd s) = Some (Model.generate_task full_bounds cond None None) /\
  fst (Model._generate ok_env full_bounds cond None None s) = inl (AssertionError "") /\
  fst (Model.run_task ok_env s) = inr tt /\
  Model.error (snd (snd (Model.run_task ok_env s))) = log_error ok_env (AssertionError "") /\
  JobQueue._entries (Model.jobs (snd (snd (Model.run_task ok_env s)))) = [] /\
  let s1 := generate_at_strength 1 in
  Model.task (snd s1) = Some (Model.generate_task full_bounds cond None None) /\
  fst (Model.run_task offline_env s1) = inr tt /\
  Model.error (snd (snd (Model.run_task offline_env s1)))
  = "unavailable [url=http://127.0.0.1:8188, code=503]" /\
  JobQueue._entries (Model.jobs (snd (snd (Model.run_task offline_env s1)))) = [].
Proof. vm_compute. repeat split. Qed.

(** C5, amended: with the connection up, [_generate] picks the builder by
    the two tests and submits its request: no image, no mask and strength 1
    give [generate]; an image, no mask and strength below 1 give [refine];
    image, mask and strength 1 give [inpaint]; image, mask and strength
    below 1 give [refine_region], the last two on the mask made relative and
    under the bounds of the mask.  Whatever the inputs, it submits a request
    of the shape the two tests select or fails an assertion.  Without image
    and mask a strength other than 1 fails the assertion: no builder runs
    and no job is added; [_report_errors], around it at the call site,
    catches the [AssertionError] like any other exception and records it as
    the error text. *)
Theorem generate_selects_builder (env : Env) (w : World) (m : Model.t)
    (bounds : Bounds) (cond : Conditioning) (image : option Image)
    (mask : option Mask) :
  connection_state w = connected ->
  let style := Model.style m in
  let strength := Model.strength m in
  let prompt := cond_prompt cond in
  let s0 := (w, progress_reset w m) in
  let run := Model._generate env bounds cond image mask (w, m) in
  (image = None -> mask = None -> (strength == 1)%Q ->
   run = submit env (workflow.generate style (extent_of bounds) cond) prompt bounds s0) /\
  (forall i, image = Some i -> mask = None -> (strength < 1)%Q ->
   run = submit env (workflow.refine style i cond strength) prompt bounds s0) /\
  (forall i k, image = Some i -> mask = Some k -> (strength == 1)%Q ->
   run = submit env (workflow.inpaint style i (relative_to bounds k) cond) prompt
                (mask_bounds k) s0) /\
  (forall i k, image = Some i -> mask = Some k -> (strength < 1)%Q ->
   run = submit env (workflow.refine_region style i (relative_to bounds k) cond strength)
                prompt (mask_bounds k) s0) /\
  ((exists request,
      builder_of request = shape (negb (is_None mask)) (Qltb strength 1) /\
      run = submit env request prompt (job_bounds bounds mask) s0) \/
   run = (inl (AssertionError ""), s0)) /\
  (image = None -> mask = None -> ~ (strength == 1)%Q ->
   run = (inl (AssertionError ""), s0) /\
   _report_errors env Model.report_error
     (Model._generate env bounds cond image mask) (w, m)
   = (inr None,
      (w, with_error (log_error env (AssertionError "")) (progress_reset w m)))).
Proof.
  intros Hconn style strength prompt s0 run.
  assert (Hrun := generate_run env w m bounds cond image mask Hconn).
  fold run style strength prompt s0 in Hrun.
  destruct (select_request_cases style strength (job_bounds bounds mask) cond image
              (relative_mask bounds mask))
    as (Hgen & Href & Hinp & Hreg & Hshape & Hassert & Hfail).
  split; [|split; [|split; [|split; [|split]]]].
  - intros Hi Hm Hs. subst image mask. cbn [job_bounds relative_mask] in *.
    now rewrite Hrun, (Hgen eq_refl eq_refl Hs).
  - intros i Hi Hm Hs. subst image mask. cbn [job_bounds relative_mask] in *.
    now rewrite Hrun, (Href i eq_refl eq_refl Hs).
  - intros i k Hi Hm Hs. subst image mask. cbn [job_bounds relative_mask] in *.
    now rewrite Hrun, (Hinp i _ eq_refl eq_refl Hs).
  - intros i k Hi Hm Hs. subst image mask. cbn [job_bounds relative_mask] in *.
    now rewrite Hrun, (Hreg i _ eq_refl eq_refl Hs).
  - destruct (Model.select_request style strength (job_bounds bounds mask) cond image
                (relative_mask bounds mask)) as [e|request] eqn:Hsel.
    + right. now rewrite Hrun, (Hassert e eq_refl).
    + left. exists request. split; [|exact Hrun].
      rewrite (Hshape request eq_refl). now destruct mask.
  - intros Hi Hm Hs. subst image mask. cbn [job_bounds relative_mask] in *.
    rewrite (Hfail eq_refl eq_refl Hs) in Hrun. split; [exact Hrun|].
    unfold s0 in Hrun. unfold run in Hrun.
    now rewrite (report_errors_catches env _ _ _ _ _ Hrun eq_refl).
Qed.

Lemma generate_selects_builder_witness :
  let w := empty_world 100 in
  let m := model_with_strength (1 # 2) in
  connection_state w = connected /\
  Model._generate ok_env full_bounds some_cond (Some some_image) (Some some_mask) (w, m)
  = submit ok_env
      (workflow.refine_region (Model.style m) some_image
         (relative_to full_bounds some_mask) some_cond (1 # 2))
      "a cat" (mask_bounds some_mask) (w, progress_reset w m).
Proof.
  intros w m. split; [reflexivity|].
  apply (generate_selects_builder ok_env w m full_bounds some_cond (Some some_image)
           (Some some_mask) eq_refl); reflexivity.
Defined.

(** A failing [_generate] has not touched the queue nor the job store: the
    job is added only after [enqueue] returned. *)
Lemma failed_generate_adds_no_job (env : Env) (bounds : Bounds) (cond : Conditioning)
    (image : option Image) (mask : option Mask) (w : World) (m : Model.t)
    (e : exn) (w' : World) (m' : Model.t) :
  Model._generate env bounds cond image mask (w, m) = (inl e, (w', m')) ->
  w' = w /\ Model.jobs m' = Model.jobs m.
Proof.
  unfold Model._generate, bind, gets, assert, when, Model.in_jobs, zoom,
    Model.of_result, Model.build, Model.emit, Model.on_self, modify, ret, raise.
  simpl.
  destruct (Model.is_connected (connection_state w)); simpl;
    [|intros H; injection H as _ <- <-; now split].
  destruct (existsb _ _); simpl;
    destruct mask as [k|];
    destruct (Model.select_request _ _ _ _ _ _) as [e1|r]; simpl;
    try (intros H; injection H as _ <- <-; split; [reflexivity|now destruct m]).
  all: destruct (workflow_raises env r) as [e2|]; simpl;
    try (intros H; injection H as _ <- <-; split; [reflexivity|now destruct m]).
  all: destruct (enqueue env r) as [e3|i]; simpl;
    try (intros H; injection H as _ <- <-; split; [reflexivity|now destruct m]).
  all: intros H; discriminate H.
Qed.

(** C4 at the failing input: a control-layer submission whose [enqueue]
    fails with a network error.  The error is caught and becomes the model's
    error text, but the job that [generate_control_layer] put in the queue
    before starting the task stays there, without id and in state
    [queued]. *)
Lemma failed_control_submission_leaves_job :
  let s0 := (control_world 100, model_with_strength 1) in
  let s1 := snd (Model.generate_control_layer 0 s0) in
  let '(r, s2) := Model.run_task offline_env s1 in
  JobQueue._entries (Model.jobs (snd s0)) = [] /\
  r = inr tt /\
  Model.error (snd s2) = "unavailable [url=http://127.0.0.1:8188, code=503]" /\
  JobQueue._entries (Model.jobs (snd s2)) = [0%nat] /\
  Job.kind (job (fst s2) 0) = JobKind.control_layer /\
  Job.id (job (fst s2) 0) = None /\
  Job.state (job (fst s2) 0) = State.queued.
Proof. vm_compute. repeat split. Qed.

(** On the diffusion path the same failure leaves nothing behind: every
    [Exception] that [_generate] raises is caught, becomes the error text,
    and the queue and the job store are as before the submission. *)
Lemma failed_generate_is_reported (env : Env) (bounds : Bounds) (cond : Conditioning)
    (image : option Image) (mask : option Mask) (w : World) (m : Model.t)
    (e : exn) (s' : Model.St) :
  Model._generate env bounds cond image mask (w, m) = (inl e, s') ->
  derives_from_Exception e = true ->
  exists m'',
    _report_errors env Model.report_error
      (Model._generate env bounds cond image mask) (w, m) = (inr None, (w, m'')) /\
    Model.error m'' = error_text env e /\
    Model.jobs m'' = Model.jobs m.
Proof.
  destruct s' as [w' m']. intros H He.
  destruct (failed_generate_adds_no_job _ _ _ _ _ _ _ _ _ _ H) as [-> Hjobs].
  eexists. split; [apply report_errors_catches; [exact H|exact He]|].
  split; [reflexivity|simpl; exact Hjobs].
Qed.

(** ** Message handling *)

(** *** Frame rules: computations that leave the job [j] alone *)

Section Frame.
Variable j : ref.

Lemma keeps_ret {X A} (a : A) : keeps j (ret (S := World * X) a).
Proof. intros s. reflexivity. Qed.

Lemma keeps_raise {X A} (e : exn) : keeps j (raise (S := World * X) (A := A) e).
Proof. intros s. reflexivity. Qed.

Lemma keeps_gets {X A} (f : World * X -> A) : keeps j (gets f).
Proof. intros s. reflexivity. Qed.

Lemma keeps_assert {X} (b : bool) (msg : string) :
  keeps j (assert (S := World * X) b msg).
Proof. intros s. destruct b; reflexivity. Qed.

Lemma keeps_of_result {A} (r : result A) : keeps j (Model.of_result (S := Model.St) r).
Proof. intros s. reflexivity. Qed.

Lemma keeps_bind {X A B} (m : M (World * X) A) (k : A -> M (World * X) B) :
  keeps j m -> (forall a, keeps j (k a)) -> keeps j (bind m k).
Proof.
  intros Hm Hk s. unfold bind. specialize (Hm s).
  destruct (m s) as [[e|a] s']; simpl in *; [assumption|].
  rewrite <- Hm. apply Hk.
Qed.

Lemma keeps_when {X} (b : bool) (m : M (World * X) unit) :
  keeps j m -> keeps j (when b m).
Proof. intros Hm. destruct b; [assumption|apply keeps_ret]. Qed.

Lemma keeps_modify {X} (f : World * X -> World * X) :
  (forall s, job (fst (f s)) j = job (fst s) j) -> keeps j (modify f).
Proof. intros Hf s. apply Hf. Qed.

Lemma keeps_in_jobs {A} (op : M JobQueue.St A) : keeps j op -> keeps j (Model.in_jobs op).
Proof.
  intros Hop [w m]. unfold Model.in_jobs, zoom. specialize (Hop (w, Model.jobs m)).
  destruct (op (w, Model.jobs m)) as [r [w' q]]. exact Hop.
Qed.

Lemma keeps_in_doc {A} (op : M Document.St A) : keeps j op -> keeps j (Model.in_doc op).
Proof.
  intros Hop [w m]. unfold Model.in_doc, zoom. specialize (Hop (w, Model._doc m)).
  destruct (op (w, Model._doc m)) as [r [w' d]]. exact Hop.
Qed.

Lemma keeps_on_self (f : Model.t -> Model.t) : keeps j (Model.on_self f).
Proof. intros [w m]. reflexivity. Qed.

Lemma keeps_emit (s : Model.Signal) : keeps j (Model.emit s).
Proof. apply keeps_on_self. Qed.

Lemma keeps_on_world (f : World -> World) :
  (forall w, job (f w) j = job w j) -> keeps j (Model.on_world f).
Proof. intros Hf [w m]. apply Hf. Qed.

Lemma keeps_prune (keep : ref) : keeps j (JobQueue.prune keep).
Proof.
  intros [w q]. unfold JobQueue.prune.
  destruct (JobQueue.prune_loop _ _ _ _) as [r [es mem]]. reflexivity.
Qed.

Lemma keeps_set_results (r : ref) (rs : ImageCollection.t) :
  r <> j -> keeps j (JobQueue.set_results r rs).
Proof.
  intros Hr. unfold JobQueue.set_results.
  apply keeps_bind; [|intros _; apply keeps_bind; [apply keeps_gets|intros k]].
  - apply keeps_modify. intros [w q]. simpl. now apply job_update_ne.
  - apply keeps_when. apply keeps_bind; [|intros _; apply keeps_prune].
    apply keeps_modify. now intros [w q].
Qed.

Lemma keeps_remove (r : ref) : keeps j (JobQueue.remove r).
Proof.
  unfold JobQueue.remove.
  apply keeps_bind; [apply keeps_gets|intros k].
  apply keeps_bind; [apply keeps_assert|intros _].
  apply keeps_bind; [apply keeps_gets|intros es].
  destruct (JobQueue.remove_first r es); [|apply keeps_raise].
  apply keeps_modify. now intros [w q].
Qed.

Lemma keeps_find (key : JobQueue.Key) : keeps j (JobQueue.find key).
Proof. destruct key; [apply keeps_gets|apply keeps_gets|apply keeps_raise]. Qed.

Lemma keeps_insert_layer (name : string) (img : Image) (b : Bounds)
    (below : option ref) : keeps j (Document.insert_layer name img b below).
Proof.
  unfold Document.insert_layer.
  apply keeps_bind; [now intros [w d]|intros layer].
  apply keeps_bind.
  - destruct below; [|apply keeps_ret].
    apply keeps_bind; [apply keeps_gets|intros nodes].
    destruct (Document.index_of _ _); [|apply keeps_raise].
    destruct (1 <=? _)%nat; apply keeps_ret.
  - intros above.
    apply keeps_bind; [apply keeps_modify; now intros [w d]|intros _].
    apply keeps_bind; [apply keeps_modify; now intros [w d]|intros _].
    apply keeps_ret.
Qed.

Lemma keeps_set_layer_content (layer : ref) (img : Image) (b : Bounds) :
  keeps j (Document.set_layer_content layer img b).
Proof.
  unfold Document.set_layer_content.
  apply keeps_bind; [apply keeps_modify; now intros [w d]|intros _].
  apply keeps_bind; [apply keeps_modify; now intros [w d]|intros _].
  apply keeps_ret.
Qed.

Lemma keeps_show_preview (job_id : option string) (index : nat) :
  keeps j (Model.show_preview job_id index).
Proof.
  unfold Model.show_preview.
  apply keeps_bind; [apply keeps_in_jobs, keeps_find|intros [r|]];
    [|apply keeps_raise].
  apply keeps_bind; [apply keeps_gets|intros jb].
  apply keeps_bind; [apply keeps_gets|intros l].
  apply keeps_bind.
  { destruct l; [|apply keeps_ret].
    apply keeps_bind; [apply keeps_gets|intros p].
    apply keeps_when, keeps_on_self. }
  intros _. apply keeps_bind; [apply keeps_gets|intros l'].
  apply keeps_bind; [|intros _; apply keeps_emit].
  destruct l' as [layer|].
  - apply keeps_bind; [now apply keeps_on_world|intros _].
    destruct (Job.results jb !! index); [|apply keeps_raise].
    apply keeps_bind; [apply keeps_in_doc, keeps_set_layer_content|intros _].
    apply keeps_ret.
  - destruct (Job.results jb !! index); [|apply keeps_raise].
    apply keeps_bind; [apply keeps_in_doc, keeps_insert_layer|intros layer].
    apply keeps_bind; [apply keeps_on_self|intros _].
    now apply keeps_on_world.
Qed.

Lemma keeps_add_control_layer (r : ref) : keeps j (Model.add_control_layer r).
Proof.
  unfold Model.add_control_layer.
  apply keeps_bind; [apply keeps_gets|intros jb].
  apply keeps_bind; [apply keeps_assert|intros _].
  destruct (Job.results jb); [apply keeps_gets|].
  apply keeps_bind; [apply keeps_gets|intros below].
  apply keeps_bind; [apply keeps_in_doc, keeps_insert_layer|intros layer].
  apply keeps_ret.
Qed.

(** [handle_message] only writes to the job that [find] returned, and
    that job has the id of the message. *)
Lemma handle_message_keeps (message : ClientMessage.t) (s : Model.St) :
  Job.id (job (fst s) j) <> Some (ClientMessage.job_id message) ->
  job (fst (snd (Model.handle_message message s))) j = job (fst s) j.
Proof.
  destruct s as [w m]. simpl. intros Hid.
  unfold Model.handle_message. unfold bind at 1. simpl.
  destruct (List.find _ _) as [r|] eqn:Hfind; [|reflexivity].
  apply find_some_elem in Hfind as [_ Hr].
  assert (Hne : r <> j).
  { intros ->. unfold JobQueue.id_is in Hr.
    destruct (Job.id (job w j)) as [i|]; [|discriminate].
    apply String.eqb_eq in Hr. congruence. }
  assert (Hup : forall f, keeps j (Model.on_world (update_job r f)))
    by (intros f; apply keeps_on_world; intros w0; now apply job_update_ne).
  match goal with
  | |- job (fst (snd (?K ?s0))) j = _ => assert (HK : keeps j K)
  end.
  { destruct (ClientMessage.event message).
    - apply keeps_bind; [apply Hup|intros _].
      apply keeps_bind; [apply keeps_on_self|intros _; apply keeps_emit].
    - apply keeps_bind; [apply Hup|intros _].
      apply keeps_bind; [now apply keeps_in_jobs, keeps_set_results|intros _].
      apply keeps_bind; [apply keeps_on_self|intros _].
      apply keeps_bind; [apply keeps_gets|intros k].
      apply keeps_bind; [apply keeps_gets|intros l].
      apply keeps_bind.
      { apply keeps_when. apply keeps_bind; [apply keeps_gets|intros i].
        apply keeps_show_preview. }
      intros _. apply keeps_bind; [apply keeps_gets|intros k'].
      apply keeps_bind.
      { apply keeps_when.
        apply keeps_bind; [apply keeps_add_control_layer|intros layer].
        apply keeps_bind; [apply keeps_gets|intros [c|]]; [|apply keeps_raise].
        apply keeps_bind; [now apply keeps_on_world|intros _].
        apply keeps_in_jobs, keeps_remove. }
      intros _. apply keeps_bind; [apply keeps_emit|intros _; apply keeps_emit].
    - apply keeps_bind; [apply Hup|intros _].
      apply keeps_bind; [apply keeps_on_self|intros _; apply keeps_emit].
    - apply keeps_bind; [apply Hup|intros _].
      apply keeps_bind; [apply keeps_on_self|intros _; apply keeps_emit]. }
  apply HK.
Qed.
End Frame.

Lemma handle_messages_keeps (j : ref) (msgs : list ClientMessage.t) :
  forall s : Model.St,
    Forall (fun msg => Job.id (job (fst s) j) <> Some (ClientMessage.job_id msg)) msgs ->
    job (fst (handle_messages msgs s)) j = job (fst s) j.
Proof.
  induction msgs as [|msg msgs IH]; intros s Hall; [reflexivity|].
  apply Forall_cons in Hall as [Hmsg Hall]. simpl.
  pose proof (handle_message_keeps j msg s Hmsg) as Hstep.
  rewrite IH; [exact Hstep|]. now rewrite Hstep.
Qed.

(** C7 as stated, at a progress message that arrives after the terminal
    one: the finished job, and likewise the cancelled job, is set to
    [executing]. *)
Lemma terminal_job_executes_again :
  let s1 := handle_messages [msg_finished "id-1" [some_image]] one_job_queued in
  let s2 := handle_messages [msg_progress "id-1" (1 # 2)] s1 in
  let t1 := handle_messages [msg_interrupted "id-1"] one_job_queued in
  let t2 := handle_messages [msg_progress "id-1" (1 # 2)] t1 in
  Job.state (job (fst s1) 0) = State.finished /\
  Job.state (job (fst s2) 0) = State.executing /\
  Job.state (job (fst t1) 0) = State.cancelled /\
  Job.state (job (fst t2) 0) = State.executing.
Proof. vm_compute. repeat split. Qed.

(** C7, amended: [handle_message] sets the state its message asks for
    without looking at the current one, so the terminal states are final
    only under the ordering the server keeps: along every sequence of
    messages none of which carries the id of a job that is [finished] or
    [cancelled], that job stays in its state. *)
Theorem terminal_job_keeps_state (msgs : list ClientMessage.t) (s : Model.St)
    (j : ref) :
  Job.state (job (fst s) j) = State.finished \/
  Job.state (job (fst s) j) = State.cancelled ->
  Forall (fun msg => Job.id (job (fst s) j) <> Some (ClientMessage.job_id msg)) msgs ->
  Job.state (job (fst (handle_messages msgs s)) j) = Job.state (job (fst s) j).
Proof.
  intros _ Hall. now rewrite handle_messages_keeps.
Qed.

Lemma terminal_job_keeps_state_witness :
  let s := handle_messages [msg_finished "id-1" [some_image]] two_jobs_queued in
  let msgs := [msg_progress "id-2" (1 # 2); msg_finished "id-2" [some_image]] in
  Job.state (job (fst s) 0) = State.finished /\
  Job.state (job (fst (handle_messages msgs s)) 0) = State.finished.
Proof.
  assert (H1 : Job.state
                 (job (fst (handle_messages [msg_finished "id-1" [some_image]]
                              two_jobs_queued)) 0) = State.finished)
    by reflexivity.
  split; [exact H1|].
  rewrite (terminal_job_keeps_state
             [msg_progress "id-2" (1 # 2); msg_finished "id-2" [some_image]]
             (handle_messages [msg_finished "id-1" [some_image]] two_jobs_queued)
             0%nat (or_introl H1)).
  - exact H1.
  - repeat constructor; intros H; discriminate H.
Defined.

(** ** A control job that finishes *)

Lemma remove_first_elem (r : ref) :
  forall l, r ∈ l -> exists l', JobQueue.remove_first r l = Some l' /\
                                (NoDup l -> r ∉ l').
Proof.
  induction l as [|e l IH]; intros Hin; [inversion Hin|]. simpl.
  destruct (Nat.eqb_spec e r) as [->|Hne].
  - exists l. split; [reflexivity|]. intros Hnd. now apply NoDup_cons in Hnd.
  - assert (Hin' : r ∈ l) by (apply elem_of_cons in Hin as [->|]; [congruence|assumption]).
    destruct (IH Hin') as (l' & -> & Hl'). exists (e :: l'). split; [reflexivity|].
    intros Hnd. apply NoDup_cons in Hnd as [_ Hnd].
    apply not_elem_of_cons. split; [congruence|now apply Hl'].
Qed.

Lemma job_valid_of_kind (w : World) (r : ref) :
  Job.kind (job w r) = JobKind.control_layer -> (r < length (job_store w))%nat.
Proof.
  intros Hk. destruct (Nat.lt_ge_cases r (length (job_store w))) as [Hlt|Hge];
    [assumption|].
  unfold job in Hk. rewrite list_lookup_total_alt in Hk.
  rewrite lookup_ge_None_2 in Hk by assumption. discriminate Hk.
Qed.

Lemma job_update_control (w : World) (c r : ref) (f : Control.t -> Control.t) :
  job (update_control c f w) r = job w r.
Proof. reflexivity. Qed.

Lemma control_update_eq (w : World) (c : ref) (f : Control.t -> Control.t) :
  (c < length (control_store w))%nat ->
  the_control (update_control c f w) c = f (the_control w c).
Proof.
  intros Hc. unfold the_control, update_control. simpl.
  rewrite list_lookup_total_insert_eq; [reflexivity|assumption].
Qed.

Local Opaque job update_job update_control the_control.

(** C8: a [finished] message without images for a control job: the handler
    returns normally, the image of the control specification the job refers
    to is the active layer of the document, and the job is no longer in
    the queue. *)
Theorem control_job_without_results (w : World) (m : Model.t)
    (message : ClientMessage.t) (j c : ref) :
  ClientMessage.event message = ClientEvent.finished ->
  ClientMessage.images message = [] ->
  JobQueue.find (JobQueue.KStr (ClientMessage.job_id message)) (w, Model.jobs m)
    = (inr (Some j), (w, Model.jobs m)) ->
  Job.kind (job w j) = JobKind.control_layer ->
  Job.control (job w j) = Some c ->
  (c < length (control_store w))%nat ->
  NoDup (JobQueue._entries (Model.jobs m)) ->
  exists w' m',
    Model.handle_message message (w, m) = (inr tt, (w', m')) /\
    Control.image (the_control w' c)
      = Model.image_of_layer (Document.active_layer (Model._doc m)) /\
    (j ∉ JobQueue._entries (Model.jobs m')) /\
    Job.state (job w' j) = State.finished.
Proof.
  intros Hev Himg Hfind Hkind Hctl Hc Hnd.
  pose proof (job_valid_of_kind _ _ Hkind) as Hj.
  simpl in Hfind. unfold gets in Hfind. injection Hfind as Hfind.
  pose proof (find_some_elem _ _ _ Hfind) as [Hin _].
  destruct (remove_first_elem j _ Hin) as (es' & Hrm & Hnot).
  assert (Hjob : job (update_job j (Job.set_results [])
                        (update_job j (Job.set_state State.finished) w)) j
                 = Job.set_results [] (Job.set_state State.finished (job w j))).
  { rewrite job_update_eq by (now rewrite length_update_job).
    now rewrite job_update_eq. }
  unfold Model.handle_message. unfold bind at 1. simpl. rewrite Hfind, Hev, Himg.
  repeat (progress (unfold bind, gets, when, modify, assert, ret, raise,
                      Model.on_world, Model.on_self, Model.in_jobs, zoom,
                      JobQueue.set_results, Model.add_control_layer,
                      JobQueue.remove, Model.emit;
                    simpl; rewrite ?job_update_control, ?Hjob; simpl;
                    rewrite ?Hkind, ?Hctl, ?Hrm; simpl)).
  eexists. eexists. split; [reflexivity|].
  split; [|split].
  - now rewrite control_update_eq.
  - simpl. now apply Hnot.
  - now rewrite job_update_control, Hjob.
Qed.

Local Transparent job update_job update_control the_control.

Lemma control_job_without_results_witness :
  exists w' m',
    Model.handle_message (msg_finished "id-1" []) control_job_sent
      = (inr tt, (w', m')) /\
    Control.image (the_control w' 0) = LayerRef 0 /\
    (0%nat ∉ JobQueue._entries (Model.jobs m')) /\
    Job.state (job w' 0) = State.finished.
Proof.
  apply (control_job_without_results (fst control_job_sent) (snd control_job_sent)
           (msg_finished "id-1" []) 0%nat 0%nat).
  - reflexivity.
  - reflexivity.
  - reflexivity.
  - reflexivity.
  - reflexivity.
  - simpl. lia.
  - apply NoDup_singleton.
Defined.

(** ** Dispatch *)

Lemma first_index_none {A} (p : A -> bool) (l : list A) :
  (forall a, a ∈ l -> p a = false) -> ModelRegistry.first_index p l = None.
Proof.
  induction l as [|a l IH]; intros H; [reflexivity|]. simpl.
  rewrite (H a) by left. rewrite IH; [reflexivity|].
  intros b Hb. apply H. now right.
Qed.

(** C9: a message whose job id no queue of any model knows is skipped by
    the dispatch loop: the loop goes on with the rest of the stream from
    the same state, nothing is raised, and no model and no object has
    changed. *)
Theorem unknown_job_message_is_dropped (w : World) (r : ModelRegistry.t)
    (msg : ClientMessage.t) (rest : list ClientMessage.t) :
  (forall m, m ∈ ModelRegistry._models r ->
     JobQueue.find (JobQueue.KStr (ClientMessage.job_id msg)) (w, Model.jobs m)
       = (inr None, (w, Model.jobs m))) ->
  ModelRegistry.dispatch (msg :: rest) (w, r) = ModelRegistry.dispatch rest (w, r) /\
  ModelRegistry.dispatch [msg] (w, r) = (inr tt, (w, r)) /\
  (connection_state w = connected ->
   ModelRegistry._handle_messages_impl [msg] (w, r) = (inr tt, (w, r))).
Proof.
  intros Hunknown.
  assert (Hnone : ModelRegistry._find_model (ClientMessage.job_id msg) (w, r)
                  = (inr None, (w, r))).
  { unfold ModelRegistry._find_model, gets. f_equal. f_equal.
    apply first_index_none. intros m Hm. unfold ModelRegistry.owns.
    now rewrite (Hunknown m Hm). }
  assert (Hstep : forall l, ModelRegistry.dispatch (msg :: l) (w, r)
                            = ModelRegistry.dispatch l (w, r)).
  { intros l. simpl. unfold bind at 1. rewrite Hnone. reflexivity. }
  split; [apply Hstep|]. split; [apply Hstep|].
  intros Hconn. unfold ModelRegistry._handle_messages_impl.
  unfold bind at 1. unfold gets. cbn [fst]. rewrite Hconn.
  unfold bind at 1. cbn [assert Model.is_connected ret].
  apply (Hstep []).
Qed.

Lemma unknown_job_message_is_dropped_witness :
  ModelRegistry.dispatch [msg_finished "id-9" [some_image]] two_models
    = (inr tt, two_models).
Proof.
  refine (proj1 (proj2 (unknown_job_message_is_dropped
                          (fst two_models) (snd two_models)
                          (msg_finished "id-9" [some_image]) [] _))).
  intros m Hm.
  apply elem_of_cons in Hm as [->|Hm]; [reflexivity|].
  apply elem_of_cons in Hm as [->|Hm]; [reflexivity|].
  inversion Hm.
Defined.

(** * Further properties of the queue *)

(** ** Queues reached from a new queue *)

Lemma remove_first_split (r : ref) :
  forall l l', JobQueue.remove_first r l = Some l' ->
    exists older newer, l = older ++ r :: newer /\ l' = older ++ newer /\ r ∉ older.
Proof.
  induction l as [|e l IH]; intros l' H; simpl in H; [discriminate|].
  destruct (Nat.eqb_spec e r) as [->|Hne].
  - injection H as <-. exists [], l. repeat split. apply not_elem_of_nil.
  - destruct (JobQueue.remove_first r l) as [l0|]; [|discriminate].
    injection H as <-. destruct (IH l0 eq_refl) as (older & newer & -> & -> & Hnot).
    exists (e :: older), newer. repeat split.
    apply not_elem_of_cons. split; [congruence|assumption].
Qed.

Lemma remove_first_absent (r : ref) :
  forall l, r ∉ l -> JobQueue.remove_first r l = None.
Proof.
  induction l as [|e l IH]; intros H; [reflexivity|]. simpl.
  apply not_elem_of_cons in H as [Hne Hl].
  destruct (Nat.eqb_spec e r) as [->|_]; [congruence|].
  now rewrite IH.
Qed.

Lemma NoDup_remove_middle (l1 l2 : list ref) (r : ref) :
  NoDup (l1 ++ r :: l2) -> NoDup (l1 ++ l2) /\ r ∉ l1 ++ l2.
Proof.
  intros H. apply NoDup_app in H as (H1 & H12 & H2).
  apply NoDup_cons in H2 as [Hr H2]. split.
  - apply NoDup_app. repeat split; [assumption| |assumption].
    intros x Hx Hx2. apply (H12 x Hx). now right.
  - apply not_elem_of_app. split; [|assumption].
    intros Hr1. apply (H12 r Hr1). left.
Qed.

Lemma well_formed_call (c : Call) (s : JobQueue.St) :
  well_formed s -> well_formed (snd (call c s)).
Proof.
  destruct s as [w q]. unfold well_formed. simpl. intros [Hv Hn].
  assert (Happ : forall jb,
    Forall (fun r => (r < length (job_store (with_jobs (fun st => st ++ [jb]) w)))%nat)
           (JobQueue._entries q ++ [length (job_store w)]) /\
    NoDup (JobQueue._entries q ++ [length (job_store w)])).
  { intros jb. simpl. rewrite length_app. simpl. split.
    - apply Forall_app. split.
      + eapply Forall_impl; [exact Hv|]. simpl. intros; lia.
      + constructor; [lia|constructor].
    - apply NoDup_app. repeat split; [assumption| |apply NoDup_singleton].
      intros r Hr Hr'. apply list_elem_of_singleton in Hr'. subst r.
      rewrite Forall_forall in Hv. specialize (Hv _ Hr). simpl in Hv. lia. }
  assert (Hup : forall j f es,
    Forall (fun r => (r < length (job_store w))%nat) es ->
    Forall (fun r => (r < length (job_store (update_job j f w)))%nat) es).
  { intros j f es H. eapply Forall_impl; [exact H|]. intros r Hr.
    now rewrite length_update_job. }
  destruct c as [i p b|c b|j|j rs|j i|j st]; simpl.
  - apply Happ.
  - apply Happ.
  - unfold JobQueue.remove, bind, gets, assert. simpl.
    destruct (JobKind.eqb _ _); simpl; [|now split].
    destruct (JobQueue.remove_first j (JobQueue._entries q)) as [es|] eqn:Hrm;
      simpl; [|now split].
    apply remove_first_split in Hrm as (older & newer & Hq & -> & _).
    rewrite Hq in Hv, Hn. split.
    + apply Forall_app in Hv as [Hv1 Hv2]. apply Forall_cons in Hv2 as [_ Hv2].
      apply Forall_app. now split.
    + now apply NoDup_remove_middle in Hn.
  - unfold JobQueue.set_results, bind, modify, gets, when. simpl.
    destruct (JobKind.eqb _ _); simpl; [|split; [now apply Hup|assumption]].
    destruct (prune_loop_suffix (update_job j (Job.set_results rs) w) j
                (JobQueue._entries q) (JobQueue._memory_usage q + size_mb rs)%Q)
      as [ev Hev].
    destruct (JobQueue.prune_loop _ _ _ _) as [r [es mem]]. simpl in *.
    rewrite Hev in Hv, Hn. split.
    + apply Hup. now apply Forall_app in Hv as [_ Hv].
    + now apply NoDup_app in Hn as (_ & _ & Hn).
  - split; [now apply Hup|assumption].
  - split; [now apply Hup|assumption].
Qed.

Lemma well_formed_run (cs : list Call) : forall s, well_formed s -> well_formed (run cs s).
Proof.
  induction cs as [|c cs IH]; intros s Hs; [exact Hs|].
  simpl. apply IH. now apply well_formed_call.
Qed.

Lemma well_formed_new (w0 : World) (cs : list Call) :
  well_formed (run cs (w0, JobQueue.__init__)).
Proof. apply well_formed_run. split; constructor. Qed.

(** ** Insertion and lookup *)

Lemma find_app_first {A} (p : A -> bool) (l1 l2 : list A) :
  List.find p (l1 ++ l2)
  = match List.find p l1 with
    | Some a => Some a
    | None => List.find p l2
    end.
Proof.
  induction l1 as [|a l1 IH]; simpl; [reflexivity|].
  destruct (p a); [reflexivity|exact IH].
Qed.

Lemma find_ext_in {A} (p p' : A -> bool) (l : list A) :
  Forall (fun a => p' a = p a) l -> List.find p' l = List.find p l.
Proof.
  induction 1 as [|a l Ha _ IH]; simpl; [reflexivity|].
  rewrite Ha, IH. reflexivity.
Qed.

(** Lookup by a test on the job object, after a new job was allocated and
    appended: an older match wins, the new job is found otherwise. *)
Lemma find_after_alloc (p : Job.t -> bool) (w : World) (jb : Job.t) (es : list ref) :
  Forall (fun r => (r < length (job_store w))%nat) es ->
  List.find (fun r => p (job (with_jobs (fun st => st ++ [jb]) w) r))
            (es ++ [length (job_store w)])
  = match List.find (fun r => p (job w r)) es with
    | Some j => Some j
    | None => if p jb then Some (length (job_store w)) else None
    end.
Proof.
  intros Hv. rewrite find_app_first.
  rewrite (find_ext_in (fun r => p (job w r))).
  - destruct (List.find _ es); [reflexivity|]. simpl. now rewrite job_alloc_new.
  - eapply Forall_impl; [exact Hv|]. simpl. intros r Hr. now rewrite job_alloc_old.
Qed.

Lemma find_by_id_unfold (sid : string) (w : World) (q : JobQueue.t) :
  returned None (JobQueue.find (JobQueue.KStr sid)) (w, q)
  = List.find (fun r => has_id sid (job w r)) (JobQueue._entries q).
Proof. reflexivity. Qed.

Lemma find_by_control_unfold (c : ref) (w : World) (q : JobQueue.t) :
  returned None (JobQueue.find (JobQueue.KControl c)) (w, q)
  = List.find (fun r => refers_to c (job w r)) (JobQueue._entries q).
Proof. reflexivity. Qed.

Lemma add_unfold (id prompt : string) (bounds : Bounds) (w : World) (q : JobQueue.t) :
  JobQueue.add id prompt bounds (w, q)
  = (inr tt,
     (with_jobs (fun st => st ++ [Job.__init__ (Some id) JobKind.diffusion prompt
                                                bounds (clock w)]) w,
      JobQueue.set_entries (JobQueue._entries q ++ [length (job_store w)]) q)).
Proof. reflexivity. Qed.

Lemma add_control_unfold (control : ref) (bounds : Bounds) (w : World) (q : JobQueue.t) :
  JobQueue.add_control control bounds (w, q)
  = (inr (length (job_store w)),
     (with_jobs
        (fun st => st ++ [Job.set_control (Some control)
                            (Job.__init__ None JobKind.control_layer
                               ("[Control] " ++ text (Control.mode (the_control w control)))
                               bounds (clock w))]) w,
      JobQueue.set_entries (JobQueue._entries q ++ [length (job_store w)]) q)).
Proof. reflexivity. Qed.

(** X1: [add] appends a new diffusion job in state [queued], without
    results, and returns normally.  A lookup by string afterwards returns
    what it returned before, and the new job where it found none and the
    string is the new id. *)
Theorem add_then_find (w0 : World) (cs : list Call) (id prompt : string)
    (bounds : Bounds) (sid : string) :
  let s := run cs (w0, JobQueue.__init__) in
  let s' := snd (JobQueue.add id prompt bounds s) in
  let new := length (job_store (fst s)) in
  fst (JobQueue.add id prompt bounds s) = inr tt /\
  JobQueue._entries (snd s') = JobQueue._entries (snd s) ++ [new] /\
  job (fst s') new
    = Job.mk (Some id) JobKind.diffusion State.queued prompt bounds None
             (clock (fst s)) [] /\
  returned None (JobQueue.find (JobQueue.KStr sid)) s'
    = match returned None (JobQueue.find (JobQueue.KStr sid)) s with
      | Some j => Some j
      | None => if String.eqb id sid then Some new else None
      end.
Proof.
  intros s s' new.
  pose proof (well_formed_new w0 cs) as [Hv _]. fold s in Hv.
  subst s' new. destruct s as [w q]. rewrite add_unfold.
  cbn [fst snd JobQueue._entries JobQueue.set_entries] in *.
  split; [reflexivity|]. split; [reflexivity|].
  split; [apply job_alloc_new|].
  rewrite !find_by_id_unfold. cbn [JobQueue._entries JobQueue.set_entries].
  rewrite (find_after_alloc (has_id sid)) by exact Hv.
  reflexivity.
Qed.

(** X2: [add_control] appends a control job without id that refers to the
    control specification, and returns it.  A lookup by reference
    afterwards returns what it returned before, and the new job where it
    found none and the reference is the new one; no lookup by string
    changes. *)
Theorem add_control_then_find (w0 : World) (cs : list Call) (control : ref)
    (bounds : Bounds) (c : ref) (sid : string) :
  let s := run cs (w0, JobQueue.__init__) in
  let s' := snd (JobQueue.add_control control bounds s) in
  let new := length (job_store (fst s)) in
  fst (JobQueue.add_control control bounds s) = inr new /\
  JobQueue._entries (snd s') = JobQueue._entries (snd s) ++ [new] /\
  job (fst s') new
    = Job.mk None JobKind.control_layer State.queued
             ("[Control] " ++ text (Control.mode (the_control (fst s) control)))
             bounds (Some control) (clock (fst s)) [] /\
  returned None (JobQueue.find (JobQueue.KControl c)) s'
    = match returned None (JobQueue.find (JobQueue.KControl c)) s with
      | Some j => Some j
      | None => if Nat.eqb control c then Some new else None
      end /\
  returned None (JobQueue.find (JobQueue.KStr sid)) s'
    = returned None (JobQueue.find (JobQueue.KStr sid)) s.
Proof.
  intros s s' new.
  pose proof (well_formed_new w0 cs) as [Hv _]. fold s in Hv.
  subst s' new. destruct s as [w q]. rewrite add_control_unfold.
  cbn [fst snd JobQueue._entries JobQueue.set_entries] in *.
  split; [reflexivity|]. split; [reflexivity|].
  split; [apply job_alloc_new|].
  rewrite !find_by_id_unfold, !find_by_control_unfold.
  cbn [JobQueue._entries JobQueue.set_entries].
  rewrite (find_after_alloc (refers_to c)), (find_after_alloc (has_id sid)) by exact Hv.
  split; [reflexivity|]. now destruct (List.find _ _).
Qed.

(** ** Removal *)

(** X3: [remove] refuses a diffusion job with an [AssertionError], and
    raises [ValueError] for a control job that is not in the queue; in both
    cases nothing has changed. *)
Theorem remove_refuses (w : World) (q : JobQueue.t) (j : ref) :
  (Job.kind (job w j) = JobKind.diffusion ->
   JobQueue.remove j (w, q) = (inl (AssertionError ""), (w, q))) /\
  (Job.kind (job w j) = JobKind.control_layer ->
   j ∉ JobQueue._entries q ->
   JobQueue.remove j (w, q) = (inl ValueError, (w, q))).
Proof.
  unfold JobQueue.remove, bind, gets, assert. simpl. split.
  - intros ->. reflexivity.
  - intros -> Hnot. simpl. now rewrite remove_first_absent.
Qed.

Lemma remove_refuses_witness :
  JobQueue.remove 1 mixed_queue = (inl (AssertionError ""), mixed_queue) /\
  JobQueue.remove 0 (fst mixed_queue, JobQueue.__init__)
    = (inl ValueError, (fst mixed_queue, JobQueue.__init__)).
Proof.
  split.
  - apply (remove_refuses (fst mixed_queue) (snd mixed_queue) 1%nat). reflexivity.
  - apply (remove_refuses (fst mixed_queue) JobQueue.__init__ 0%nat);
      [reflexivity|apply not_elem_of_nil].
Defined.

(** X4: in a queue reached from a new queue, [remove] of a control job
    that is in the queue returns normally; the job is no longer in the
    queue, the other jobs keep their order, and neither the objects nor the
    tracked footprint change. *)
Theorem remove_takes_job_out (w0 : World) (cs : list Call) (j : ref) :
  let s := run cs (w0, JobQueue.__init__) in
  Job.kind (job (fst s) j) = JobKind.control_layer ->
  j ∈ JobQueue._entries (snd s) ->
  exists older newer,
    JobQueue._entries (snd s) = older ++ j :: newer /\
    JobQueue.remove j s
      = (inr tt, (fst s, JobQueue.mk (older ++ newer) (JobQueue._memory_usage (snd s)))) /\
    (j ∉ older ++ newer).
Proof.
  intros s Hk Hin.
  pose proof (well_formed_new w0 cs) as [_ Hn]. fold s in Hn.
  destruct s as [w q]. cbn [fst snd] in *.
  destruct (remove_first_elem j _ Hin) as (es' & Hrm & _).
  pose proof (remove_first_split _ _ _ Hrm) as (older & newer & Hq & -> & _).
  exists older, newer. split; [exact Hq|]. split.
  - unfold JobQueue.remove, bind, gets, assert, modify. simpl.
    rewrite Hk. simpl. rewrite Hrm. reflexivity.
  - rewrite Hq in Hn. now apply NoDup_remove_middle in Hn.
Qed.

Lemma remove_takes_job_out_witness :
  exists older newer,
    JobQueue._entries (snd mixed_queue) = older ++ 0%nat :: newer /\
    JobQueue.remove 0 mixed_queue
      = (inr tt, (fst mixed_queue,
                  JobQueue.mk (older ++ newer) (JobQueue._memory_usage (snd mixed_queue)))) /\
    (0%nat ∉ older ++ newer).
Proof.
  apply (remove_takes_job_out (control_world 100)
           [CAddControl 0 (mkBounds 0 0 512 512);
            CAdd "a" "a" (mkBounds 0 0 512 512);
            CAdd "b" "b" (mkBounds 0 0 512 512);
            CSetState 1 State.executing;
            CSetState 2 State.finished] 0%nat).
  - reflexivity.
  - left.
Defined.

(** ** Counting *)

Lemma filter_states_length (f : ref -> State.t) (l : list ref) :
  (length (List.filter (fun r => State.eqb (f r) State.queued) l)
   + length (List.filter (fun r => State.eqb (f r) State.executing) l)
   + length (List.filter (fun r => State.eqb (f r) State.finished) l)
   + length (List.filter (fun r => State.eqb (f r) State.cancelled) l)
   = length l)%nat.
Proof.
  induction l as [|r l IH]; [reflexivity|]. simpl.
  destruct (f r); simpl; lia.
Qed.

(** X5: every job is counted in exactly one state: the four counts add up
    to the length of the queue. *)
Theorem counts_add_up (s : JobQueue.St) :
  (returned 0 (JobQueue.count State.queued) s
   + returned 0 (JobQueue.count State.executing) s
   + returned 0 (JobQueue.count State.finished) s
   + returned 0 (JobQueue.count State.cancelled) s
   = JobQueue.__len__ (snd s))%nat.
Proof.
  destruct s as [w q]. unfold returned, JobQueue.count, gets, JobQueue.__len__.
  cbn [fst snd].
  apply (filter_states_length (fun r => Job.state (job w r))).
Qed.

Lemma existsb_filter_length {A} (p : A -> bool) (l : list A) :
  existsb p l = negb (Nat.eqb (length (List.filter p l)) 0).
Proof.
  induction l as [|a l IH]; [reflexivity|]. simpl.
  destruct (p a); [reflexivity|exact IH].
Qed.

(** X6: [any_executing] answers whether the count of executing jobs is
    not zero. *)
Theorem any_executing_is_count (s : JobQueue.St) :
  returned false JobQueue.any_executing s
  = negb (Nat.eqb (returned 0%nat (JobQueue.count State.executing) s) 0).
Proof.
  destruct s as [w q]. unfold returned, JobQueue.any_executing, JobQueue.count, gets.
  cbn [fst]. apply existsb_filter_length.
Qed.

(** ** More on eviction *)

Lemma prune_loop_absent (w : World) (keep : ref) :
  forall (entries : list ref) (mem : Q),
    keep ∉ entries ->
    exists evicted rest mem',
      entries = evicted ++ rest /\
      (mem' == mem - footprint w evicted)%Q /\
      ((JobQueue.prune_loop w keep entries mem = (inr tt, (rest, mem')) /\
        (mem' <= history_size (settings w))%Q) \/
       (JobQueue.prune_loop w keep entries mem = (inl IndexError, ([], mem')) /\
        rest = [] /\ (history_size (settings w) < mem')%Q)).
Proof.
  induction entries as [|e entries IH]; intros mem Hnot.
  - exists [], [], mem. rewrite footprint_nil. split; [reflexivity|].
    split; [lra|]. simpl.
    destruct (Qgtb mem (history_size (settings w))) eqn:Hgt.
    + right. repeat split. now apply Qgtb_true.
    + left. split; [reflexivity|]. now apply Qgtb_false.
  - apply not_elem_of_cons in Hnot as [Hne Hnot]. simpl.
    destruct (Qgtb mem (history_size (settings w))) eqn:Hgt.
    + assert (He : (e =? keep)%nat = false) by (apply Nat.eqb_neq; congruence).
      rewrite He. simpl.
      destruct (IH (mem - size_mb (Job._results (job w e)))%Q Hnot)
        as (evicted & rest & mem' & Hsplit & Hmem & Hend).
      exists (e :: evicted), rest, mem'. split; [now rewrite Hsplit|].
      split; [rewrite Hmem, footprint_cons; lra|exact Hend].
    + exists [], (e :: entries), mem. rewrite footprint_nil.
      split; [reflexivity|]. split; [lra|].
      left. split; [reflexivity|]. now apply Qgtb_false.
Qed.

(** X7: [prune] with a [keep] that is not in the queue pops jobs from the
    front, oldest first, and either returns once the footprint is within
    the ceiling, or has popped every job with the footprint still above the
    ceiling and raises [IndexError] on the empty deque. *)
Theorem prune_without_keep (w : World) (q : JobQueue.t) (keep : ref) :
  keep ∉ JobQueue._entries q ->
  exists evicted rest mem',
    JobQueue._entries q = evicted ++ rest /\
    (mem' == JobQueue._memory_usage q - footprint w evicted)%Q /\
    ((JobQueue.prune keep (w, q) = (inr tt, (w, JobQueue.mk rest mem')) /\
      (mem' <= history_size (settings w))%Q) \/
     (JobQueue.prune keep (w, q) = (inl IndexError, (w, JobQueue.mk [] mem')) /\
      rest = [] /\ (history_size (settings w) < mem')%Q)).
Proof.
  intros Hnot.
  destruct (prune_loop_absent w keep _ (JobQueue._memory_usage q) Hnot)
    as (evicted & rest & mem' & Hsplit & Hmem & Hend).
  exists evicted, rest, mem'. split; [exact Hsplit|]. split; [exact Hmem|].
  unfold JobQueue.prune.
  destruct Hend as [[-> Hle]|(-> & Hrest & Hlt)]; [left|right]; repeat split;
    assumption.
Qed.

Lemma prune_without_keep_witness :
  exists evicted rest mem',
    JobQueue._entries (snd three_jobs_done) = evicted ++ rest /\
    (mem' == JobQueue._memory_usage (snd three_jobs_done)
             - footprint (fst three_jobs_done) evicted)%Q /\
    ((JobQueue.prune 7 three_jobs_done
        = (inr tt, (fst three_jobs_done, JobQueue.mk rest mem')) /\
      (mem' <= history_size (settings (fst three_jobs_done)))%Q) \/
     (JobQueue.prune 7 three_jobs_done
        = (inl IndexError, (fst three_jobs_done, JobQueue.mk [] mem')) /\
      rest = [] /\ (history_size (settings (fst three_jobs_done)) < mem')%Q)).
Proof.
  apply (prune_without_keep (fst three_jobs_done) (snd three_jobs_done) 7%nat).
  intros H. repeat (apply elem_of_cons in H as [H|H]; [discriminate H|]).
  inversion H.
Defined.

Lemma prune_present (w : World) (q : JobQueue.t) (keep : ref) :
  keep ∈ JobQueue._entries q ->
  exists kept newer mem',
    JobQueue.prune keep (w, q) = (inr tt, (w, JobQueue.mk (kept ++ keep :: newer) mem')) /\
    (kept <> [] -> (mem' <= history_size (settings w))%Q).
Proof.
  intros Hin.
  destruct (split_first keep _ Hin) as (older & newer & Hq & Hnot).
  destruct (prune_loop_spec w keep newer older (JobQueue._memory_usage q) Hnot)
    as (evicted & kept & mem' & _ & Hrun & _ & Hstop & _).
  exists kept, newer, mem'.
  unfold JobQueue.prune. rewrite Hq, Hrun. split; [reflexivity|exact Hstop].
Qed.

(** X8: when [prune(keep)] has returned for a [keep] that is in the queue,
    the footprint is within the ceiling, or [keep] is the oldest job
    left. *)
Theorem prune_stops_at_ceiling_or_keep (w : World) (q : JobQueue.t) (keep : ref) :
  keep ∈ JobQueue._entries q ->
  exists q',
    JobQueue.prune keep (w, q) = (inr tt, (w, q')) /\
    ((JobQueue._memory_usage q' <= history_size (settings w))%Q \/
     JobQueue.__getitem__ q' 0 = Some keep).
Proof.
  intros Hin.
  destruct (prune_present w q keep Hin) as (kept & newer & mem' & Hrun & Hstop).
  exists (JobQueue.mk (kept ++ keep :: newer) mem').
  split; [exact Hrun|].
  destruct kept as [|k kept]; [right; reflexivity|left].
  apply Hstop. discriminate.
Qed.

Lemma prune_stops_at_ceiling_or_keep_witness :
  exists q',
    JobQueue.prune 2 three_jobs_done = (inr tt, (fst three_jobs_done, q')) /\
    ((JobQueue._memory_usage q' <= history_size (settings (fst three_jobs_done)))%Q \/
     JobQueue.__getitem__ q' 0 = Some 2%nat).
Proof.
  apply (prune_stops_at_ceiling_or_keep (fst three_jobs_done) (snd three_jobs_done) 2%nat).
  right. right. left.
Defined.

Lemma prune_loop_again (w : World) (keep : ref) :
  forall (entries : list ref) (mem : Q),
    let '(r, (es, mem')) := JobQueue.prune_loop w keep entries mem in
    JobQueue.prune_loop w keep es mem' = (r, (es, mem')).
Proof.
  induction entries as [|e entries IH]; intros mem; simpl.
  - destruct (Qgtb mem _) eqn:Hgt; simpl; now rewrite Hgt.
  - destruct (Qgtb mem _) eqn:Hgt.
    + destruct (negb (e =? keep)%nat) eqn:He.
      * apply IH.
      * simpl. now rewrite Hgt, He.
    + simpl. now rewrite Hgt.
Qed.

(** X9: pruning again changes nothing: a second [prune(keep)] right after
    the first ends as the first did, in the same state. *)
Theorem prune_twice (s : JobQueue.St) (keep : ref) :
  JobQueue.prune keep (snd (JobQueue.prune keep s)) = JobQueue.prune keep s.
Proof.
  destruct s as [w q]. unfold JobQueue.prune.
  pose proof (prune_loop_again w keep (JobQueue._entries q) (JobQueue._memory_usage q))
    as H.
  destruct (JobQueue.prune_loop w keep (JobQueue._entries q) (JobQueue._memory_usage q))
    as [r [es mem]].
  cbn [snd JobQueue._entries JobQueue._memory_usage]. now rewrite H.
Qed.

(** ** Attaching results *)

(** X10: in a queue reached from a new queue, [set_results] for a job of
    the queue returns normally: the job holds the results and is still in
    the queue, and no other job object has changed.  For a control job the
    queue is as before; for a diffusion job the footprint is within the
    ceiling afterwards, or the job is the oldest one left. *)
Theorem set_results_attaches (w0 : World) (cs : list Call) (j : ref)
    (rs : ImageCollection.t) (other : ref) :
  let s := run cs (w0, JobQueue.__init__) in
  let s' := snd (JobQueue.set_results j rs s) in
  j ∈ JobQueue._entries (snd s) ->
  fst (JobQueue.set_results j rs s) = inr tt /\
  job (fst s') j = Job.set_results rs (job (fst s) j) /\
  j ∈ JobQueue._entries (snd s') /\
  (other <> j -> job (fst s') other = job (fst s) other) /\
  match Job.kind (job (fst s) j) with
  | JobKind.control_layer => snd s' = snd s
  | JobKind.diffusion =>
      (JobQueue._memory_usage (snd s') <= history_size (settings (fst s)))%Q \/
      JobQueue.__getitem__ (snd s') 0 = Some j
  end.
Proof.
  intros s s' Hin.
  pose proof (well_formed_new w0 cs) as [Hv _]. fold s in Hv.
  subst s'. destruct s as [w q]. cbn [fst snd] in *.
  assert (Hj : (j < length (job_store w))%nat)
    by (rewrite Forall_forall in Hv; now apply Hv).
  set (w1 := update_job j (Job.set_results rs) w).
  assert (Hjob : job w1 j = Job.set_results rs (job w j)) by (now apply job_update_eq).
  destruct (Job.kind (job w j)) eqn:Hk.
  - rewrite set_results_unfold
      by (unfold is_diffusion; fold w1; rewrite Hjob; simpl; now rewrite Hk).
    fold w1.
    destruct (prune_present w1
                (JobQueue.set_memory (JobQueue._memory_usage q + size_mb rs) q) j Hin)
      as (kept & newer & mem' & Hrun & Hstop).
    rewrite Hrun. cbn [fst snd JobQueue._entries JobQueue._memory_usage].
    split; [reflexivity|]. split; [exact Hjob|].
    split; [apply elem_of_app; right; left|].
    split; [intros Hne; apply job_update_ne; congruence|].
    destruct kept as [|k kept]; [right; reflexivity|left].
    apply Hstop. discriminate.
  - unfold JobQueue.set_results, bind, modify, gets, when. cbn [fst snd].
    fold w1. rewrite Hjob. cbn [Job.kind Job.set_results]. rewrite Hk.
    cbn [JobKind.eqb fst snd ret]. repeat split; try assumption.
    intros Hne. apply job_update_ne. congruence.
Qed.

Lemma set_results_attaches_witness :
  let s := mixed_queue in
  let s' := snd (JobQueue.set_results 1 [image_mb 200] s) in
  fst (JobQueue.set_results 1 [image_mb 200] s) = inr tt /\
  job (fst s') 1 = Job.set_results [image_mb 200] (job (fst s) 1) /\
  1%nat ∈ JobQueue._entries (snd s') /\
  JobQueue.__getitem__ (snd s') 0 = Some 1%nat.
Proof.
  destruct (set_results_attaches (control_world 100)
              [CAddControl 0 (mkBounds 0 0 512 512);
               CAdd "a" "a" (mkBounds 0 0 512 512);
               CAdd "b" "b" (mkBounds 0 0 512 512);
               CSetState 1 State.executing;
               CSetState 2 State.finished] 1%nat [image_mb 200] 2%nat)
    as (H1 & H2 & H3 & _ & _).
  - right. left.
  - repeat split; assumption || reflexivity.
Defined.

(** * Properties of the document wrapper *)

Lemma with_nodes_id (w : World) (f : list Node.t -> list Node.t) :
  f (node_store w) = node_store w -> with_nodes f w = w.
Proof. intros H. unfold with_nodes. rewrite H. now destruct w. Qed.

Lemma hide_and_show (w : World) (l : ref) :
  Node.visible (node w l) = true ->
  update_node l (Node.setVisible true) (update_node l (Node.setVisible false) w) = w.
Proof.
  intros Hv.
  assert (Hl : (l < length (node_store w))%nat).
  { destruct (Nat.lt_ge_cases l (length (node_store w))) as [Hlt|Hge]; [assumption|].
    unfold node in Hv. rewrite list_lookup_total_alt in Hv.
    rewrite lookup_ge_None_2 in Hv by assumption. discriminate Hv. }
  unfold update_node at 1. unfold with_nodes.
  replace (node_store (update_node l (Node.setVisible false) w))
    with (<[l := Node.setVisible false (node_store w !!! l)]> (node_store w))
    by reflexivity.
  rewrite list_lookup_total_insert_eq by assumption.
  rewrite list_insert_insert_eq.
  replace (Node.setVisible true (Node.setVisible false (node_store w !!! l)))
    with (node_store w !!! l)
    by (unfold node in Hv; destruct (node_store w !!! l); simpl in *; now subst).
  rewrite list_insert_id by (now apply list_lookup_lookup_total_lt).
  now destruct w.
Qed.

Lemma get_image_run (w : World) (d : Document.t) (bounds : option Bounds)
    (exclude_layer : option ref) :
  Document.get_image bounds exclude_layer (w, d)
  = (inr (Document.read_pixels
            (default (mkBounds 0 0 (Document.kwidth d) (Document.kheight d)) bounds)),
     (w, d)).
Proof.
  unfold Document.get_image, bind, gets, modify, ret.
  destruct exclude_layer as [l|]; cbn [fst snd].
  - destruct (Node.visible (node w l)) eqn:Hv; cbn [fst snd].
    + rewrite hide_and_show by assumption. now destruct bounds.
    + now destruct bounds.
  - now destruct bounds.
Qed.

(** X11: [get_image] never raises and leaves everything as it was: a
    visible layer to exclude is hidden for the read and shown again.  The
    image has the extent of the bounds asked for, and of the whole document
    when none are given. *)
Theorem get_image_restores (w : World) (d : Document.t) (bounds : option Bounds)
    (exclude_layer : option ref) :
  Document.get_image bounds exclude_layer (w, d)
  = (inr (Document.read_pixels
            (default (mkBounds 0 0 (Document.kwidth d) (Document.kheight d)) bounds)),
     (w, d)) /\
  img_extent (returned some_image (Document.get_image bounds exclude_layer) (w, d))
  = match bounds with
    | Some b => extent_of b
    | None => Document.extent d
    end.
Proof.
  split; [apply get_image_run|].
  unfold returned. rewrite get_image_run. cbn [fst].
  now destruct bounds.
Qed.

Lemma add_above_perm (layer above : ref) (l : list ref) :
  Document.add_above layer above l ≡ₚ layer :: l.
Proof.
  induction l as [|e l IH]; simpl; [reflexivity|].
  destruct (e =? above)%nat.
  - apply Permutation_swap.
  - rewrite IH. apply Permutation_swap.
Qed.

Lemma addChildNode_perm (layer : ref) (above : option ref) (l : list ref) :
  Document.addChildNode layer above l ≡ₚ layer :: l.
Proof.
  destruct above as [a|]; simpl; [apply add_above_perm|].
  symmetry. apply Permutation_cons_append.
Qed.

Lemma index_of_elem (r : ref) (l : list ref) :
  r ∈ l <-> exists i, Document.index_of r l = Some i.
Proof.
  induction l as [|e l IH]; simpl.
  - split; [intros H; inversion H|intros [i H]; discriminate].
  - destruct (Nat.eqb_spec e r) as [->|Hne].
    + split; [eauto|intros _; left].
    + rewrite elem_of_cons, IH. split.
      * intros [->|[i Hi]]; [congruence|]. rewrite Hi. simpl. eauto.
      * intros [i Hi]. right.
        destruct (Document.index_of r l) as [k|]; [eauto|discriminate].
Qed.

Lemma node_alloc_new (w : World) (n : Node.t) :
  node (with_nodes (fun st => st ++ [n]) w) (length (node_store w)) = n.
Proof. unfold node. simpl. apply list_lookup_total_middle. reflexivity. Qed.

Lemma node_update_eq (w : World) (r : ref) (f : Node.t -> Node.t) :
  (r < length (node_store w))%nat -> node (update_node r f w) r = f (node w r).
Proof.
  intros Hr. unfold node, update_node. simpl.
  rewrite list_lookup_total_insert_eq; [reflexivity|assumption].
Qed.

Lemma node_update_ne (w : World) (r r' : ref) (f : Node.t -> Node.t) :
  r <> r' -> node (update_node r f w) r' = node w r'.
Proof.
  intros Hr. unfold node, update_node. simpl.
  rewrite list_lookup_total_insert_ne; [reflexivity|assumption].
Qed.

Lemma length_update_node (w : World) (r : ref) (f : Node.t -> Node.t) :
  length (node_store (update_node r f w)) = length (node_store w).
Proof. unfold update_node. simpl. apply length_insert. Qed.

(** What [insert_layer] leaves behind when [above] has been computed. *)
Lemma insert_layer_result (w : World) (d : Document.t) (name : string) (img : Image)
    (bounds : Bounds) (above : option ref) :
  let layer := length (node_store w) in
  let w' := update_node layer (Node.setPixelData img bounds)
              (update_node layer (Node.setParent true)
                 (with_nodes (fun st => st ++ [Node.mk name false true false None]) w)) in
  node w' layer = Node.mk name false true true (Some (img, bounds)) /\
  (forall r, (r < layer)%nat -> node w' r = node w r) /\
  length (node_store w') = S layer /\
  job_store w' = job_store w /\ control_store w' = control_store w.
Proof.
  intros layer w'.
  assert (Hlen : (layer < length (node_store
            (with_nodes (fun st => st ++ [Node.mk name false true false None]) w)))%nat)
    by (simpl; rewrite length_app; simpl; unfold layer; lia).
  repeat split.
  - unfold w'. rewrite node_update_eq by (now rewrite length_update_node).
    rewrite node_update_eq by assumption.
    unfold layer. now rewrite node_alloc_new.
  - intros r Hr. unfold w'.
    rewrite !node_update_ne by lia.
    unfold node. simpl. apply lookup_total_app_l. exact Hr.
  - unfold w'. rewrite !length_update_node. simpl. rewrite length_app. simpl.
    unfold layer. lia.
Qed.

(** X12: [insert_layer] without [below], or below a layer of the
    document, returns a new layer: it carries the name and the image at the
    bounds, it is a child of the document beside the layers that were
    there, and no other layer has changed. *)
Theorem insert_layer_adds_layer (w : World) (d : Document.t) (name : string)
    (img : Image) (bounds : Bounds) (below : option ref) :
  match below with
  | Some b => b ∈ Document.childNodes d
  | None => True
  end ->
  exists w' d',
    let layer := length (node_store w) in
    Document.insert_layer name img bounds below (w, d) = (inr layer, (w', d')) /\
    Node.name (node w' layer) = name /\
    Node.pixels (node w' layer) = Some (img, bounds) /\
    Node.has_parent (node w' layer) = true /\
    (forall r, (r < layer)%nat -> node w' r = node w r) /\
    Document.childNodes d' ≡ₚ layer :: Document.childNodes d.
Proof.
  intros Hbelow.
  assert (Habove : exists above,
    Document.insert_layer name img bounds below (w, d)
    = (inr (length (node_store w)),
       (update_node (length (node_store w)) (Node.setPixelData img bounds)
          (update_node (length (node_store w)) (Node.setParent true)
             (with_nodes (fun st => st ++ [Node.mk name false true false None]) w)),
        Document.set_childNodes
          (Document.addChildNode (length (node_store w)) above (Document.childNodes d))
          d))).
  { unfold Document.insert_layer, bind, gets, modify, ret, raise. simpl.
    destruct below as [b|]; [|now exists None].
    apply index_of_elem in Hbelow as [i Hi]. simpl. rewrite Hi.
    destruct i; eexists; reflexivity. }
  destruct Habove as [above ->].
  destruct (insert_layer_result w d name img bounds above) as (Hn & Hold & _).
  eexists. eexists. cbn zeta. split; [reflexivity|].
  rewrite Hn. cbn [Node.name Node.pixels Node.has_parent].
  repeat split; [exact Hold|].
  apply addChildNode_perm.
Qed.

Lemma insert_layer_adds_layer_witness :
  exists w' d',
    let layer := length (node_store (control_world 100)) in
    Document.insert_layer "sketch" some_image full_bounds (Some 0%nat)
      (control_world 100, layered_document) = (inr layer, (w', d')) /\
    Node.name (node w' layer) = "sketch" /\
    Node.pixels (node w' layer) = Some (some_image, full_bounds) /\
    Node.has_parent (node w' layer) = true /\
    (forall r, (r < layer)%nat -> node w' r = node (control_world 100) r) /\
    Document.childNodes d' ≡ₚ layer :: Document.childNodes layered_document.
Proof.
  apply (insert_layer_adds_layer (control_world 100) layered_document "sketch"
           some_image full_bounds (Some 0%nat)).
  left.
Defined.

(** X13: [insert_layer] below a layer that is not a child of the document
    raises [ValueError]: the node was created but is not attached, and the
    children of the document are as before. *)
Theorem insert_layer_below_stranger (w : World) (d : Document.t) (name : string)
    (img : Image) (bounds : Bounds) (below : ref) :
  below ∉ Document.childNodes d ->
  Document.insert_layer name img bounds (Some below) (w, d)
  = (inl ValueError,
     (with_nodes (fun st => st ++ [Node.mk name false true false None]) w, d)).
Proof.
  intros Hnot.
  unfold Document.insert_layer, bind, gets, modify, ret, raise. simpl.
  destruct (Document.index_of below (Document.childNodes d)) as [i|] eqn:Hi;
    [|reflexivity].
  exfalso. apply Hnot. apply index_of_elem. eauto.
Qed.

Lemma insert_layer_below_stranger_witness :
  Document.insert_layer "sketch" some_image full_bounds (Some 0%nat)
    (control_world 100, blank_document)
  = (inl ValueError,
     (with_nodes (fun st => st ++ [Node.mk "sketch" false true false None])
                 (control_world 100), blank_document)).
Proof.
  apply (insert_layer_below_stranger (control_world 100) blank_document "sketch"
           some_image full_bounds 0%nat).
  apply not_elem_of_nil.
Defined.

(** * Properties of submission *)

Local Opaque job update_job update_control the_control.

(** X14: when the connection is up, the chain accepts the inputs, the
    builder does not raise and [enqueue] answers with an id, [_generate]
    returns normally and has appended exactly one job: a diffusion job in
    state [queued] with that id, the prompt of the conditioning, no results,
    and the bounds of the mask when there is one, the given bounds
    otherwise.  The footprint, the error text and the other job objects are
    as before, and [changed] is the last signal. *)
Theorem generate_enqueues_job (env : Env) (w : World) (m : Model.t)
    (bounds : Bounds) (cond : Conditioning) (image : option Image)
    (mask : option Mask) (request : workflow.Request) (id : string) :
  connection_state w = connected ->
  Model.select_request (Model.style m) (Model.strength m) (job_bounds bounds mask) cond
    image (relative_mask bounds mask) = inr request ->
  workflow_raises env request = None ->
  enqueue env request = inr id ->
  let new := length (job_store w) in
  exists m',
    Model._generate env bounds cond image mask (w, m)
    = (inr tt,
       (with_jobs (fun st => st ++ [Job.mk (Some id) JobKind.diffusion State.queued
                                      (cond_prompt cond) (job_bounds bounds mask) None
                                      (clock w) []]) w,
        m')) /\
    JobQueue._entries (Model.jobs m') = JobQueue._entries (Model.jobs m) ++ [new] /\
    JobQueue._memory_usage (Model.jobs m') = JobQueue._memory_usage (Model.jobs m) /\
    Model.error m' = Model.error m /\
    Model._layer m' = Model._layer m /\
    last (Model.signals m') = Some Model.changed.
Proof.
  intros Hconn Hsel Hbuild Henq new.
  unfold Model._generate.
  repeat (progress (unfold bind, gets, when, modify, assert, ret, raise,
                      Model.on_world, Model.on_self, Model.in_jobs, zoom,
                      Model.of_result, Model.build, Model.emit;
                    cbn [fst snd]; rewrite ?Hconn; cbn [Model.is_connected])).
  unfold JobQueue.any_executing, gets. cbn [fst snd].
  destruct (existsb _ _); cbn [negb fst snd];
    destruct mask as [k|]; cbn [job_bounds relative_mask] in Hsel;
    rewrite Hsel, Hbuild, Henq; cbn [fst snd]; rewrite add_unfold;
    (eexists; split; [reflexivity|]);
    cbn [Model.jobs Model.set_jobs Model.add_signal Model.set_progress
         JobQueue._entries JobQueue.set_entries JobQueue._memory_usage
         Model.error Model._layer Model.signals];
    (repeat split; try reflexivity; apply last_snoc).
Qed.

Lemma generate_enqueues_job_witness :
  exists m',
    Model._generate ok_env full_bounds some_cond (Some some_image) (Some some_mask)
      (empty_world 100, model_with_strength 1)
    = (inr tt,
       (with_jobs (fun st => st ++ [Job.mk (Some "id-1") JobKind.diffusion State.queued
                                      "a cat" (mkBounds 0 0 64 64) None 0 []])
                  (empty_world 100),
        m')) /\
    JobQueue._entries (Model.jobs m') = [0%nat] /\
    JobQueue._memory_usage (Model.jobs m') = 0%Q /\
    Model.error m' = "" /\
    Model._layer m' = None /\
    last (Model.signals m') = Some Model.changed.
Proof.
  apply (generate_enqueues_job ok_env (empty_world 100) (model_with_strength 1)
           full_bounds some_cond (Some some_image) (Some some_mask)
           (workflow.inpaint "style" some_image (mkMask (mkBounds 0 0 64 64) 0) some_cond)
           "id-1"); reflexivity.
Defined.

Local Transparent job update_job update_control the_control.

Lemma check_color_mode_wrong (d : Document.t) :
  Document.colorModel d <> "RGBA" \/ Document.colorDepth d <> "U8" ->
  exists msg, Document.check_color_mode d = (false, Some msg).
Proof.
  intros H. unfold Document.check_color_mode.
  destruct (String.eqb_spec (Document.colorModel d) "RGBA") as [Hm|Hm]; simpl;
    [|eauto].
  destruct (String.eqb_spec (Document.colorDepth d) "U8") as [Hd|Hd]; simpl;
    [|eauto].
  destruct H; contradiction.
Qed.

Lemma check_color_mode_right (d : Document.t) :
  Document.colorModel d = "RGBA" -> Document.colorDepth d = "U8" ->
  Document.check_color_mode d = (true, None).
Proof.
  intros Hm Hd. unfold Document.check_color_mode. now rewrite Hm, Hd.
Qed.

(** X15: on a document that is not RGBA with 8 bits per channel, [generate]
    and [generate_control_layer] only record the message of
    [check_color_mode] as the error and emit [changed]: no task is started,
    no job is added, and the document is not read. *)
Theorem wrong_color_mode_is_reported (ops : Document.SelectionOps)
    (user_selection : option Document.Selection)
    (compute_bounds : Extent -> option Bounds -> Q -> Bounds) (control : ref)
    (w : World) (m : Model.t) :
  Document.colorModel (Model._doc m) <> "RGBA" \/
  Document.colorDepth (Model._doc m) <> "U8" ->
  exists msg,
    Document.check_color_mode (Model._doc m) = (false, Some msg) /\
    Model.generate ops user_selection compute_bounds (w, m)
    = (inr tt, (w, Model.add_signal Model.changed (Model.set_error msg m))) /\
    Model.generate_control_layer control (w, m)
    = (inr tt, (w, Model.add_signal Model.changed (Model.set_error msg m))).
Proof.
  intros H. destruct (check_color_mode_wrong _ H) as [msg Hmsg].
  exists msg. split; [exact Hmsg|].
  unfold Model.generate, Model.generate_control_layer, bind, gets. cbn [fst snd].
  rewrite Hmsg. split; reflexivity.
Qed.

Lemma wrong_color_mode_is_reported_witness :
  exists msg,
    Document.check_color_mode deep_document = (false, Some msg) /\
    Model.generate plain_ops None plain_bounds
      (control_world 100, Model.__init__ deep_document "style")
    = (inr tt, (control_world 100,
                Model.add_signal Model.changed
                  (Model.set_error msg (Model.__init__ deep_document "style")))) /\
    Model.generate_control_layer 0
      (control_world 100, Model.__init__ deep_document "style")
    = (inr tt, (control_world 100,
                Model.add_signal Model.changed
                  (Model.set_error msg (Model.__init__ deep_document "style")))).
Proof.
  apply (wrong_color_mode_is_reported plain_ops None plain_bounds 0%nat
           (control_world 100) (Model.__init__ deep_document "style")).
  right. discriminate.
Defined.

Lemma in_doc_get_image (w : World) (m : Model.t) (bounds : Bounds)
    (exclude_layer : option ref) :
  Model.in_doc (Document.get_image (Some bounds) exclude_layer) (w, m)
  = (inr (Document.read_pixels bounds), (w, m)).
Proof.
  unfold Model.in_doc, zoom.
  rewrite get_image_run. now destruct m.
Qed.

Lemma get_control_images_layers (bounds : Bounds) (w : World) (m : Model.t) :
  forall controls,
    Forall (fun c => exists l, Control.image (the_control w c) = LayerRef l) controls ->
    Model.get_control_images controls bounds (w, m)
    = (inr (map (control_input w bounds) controls), (w, m)).
Proof.
  induction controls as [|c controls IH]; intros Hall; [reflexivity|].
  apply Forall_cons in Hall as [[l Hl] Hall]. simpl.
  unfold bind at 1. unfold Model._get_control_image, bind, gets. cbn [fst snd].
  rewrite Hl. cbn [ret fst snd]. rewrite (IH Hall). reflexivity.
Qed.

(** X16: on an RGBA document with 8 bits per channel whose controls all
    have a layer, [generate] returns normally, leaves the objects, the queue
    and the preview layer alone, clears the error text, and starts a task
    for [_generate] with: the mask of the selection, the bounds
    [compute_bounds] gives for it, the prompt with one control input per
    control, and the document's pixels inside those bounds exactly when
    there is a mask or the strength is below 1. *)
Theorem generate_starts_task (ops : Document.SelectionOps)
    (user_selection : option Document.Selection)
    (compute_bounds : Extent -> option Bounds -> Q -> Bounds)
    (w : World) (m : Model.t) :
  Document.colorModel (Model._doc m) = "RGBA" ->
  Document.colorDepth (Model._doc m) = "U8" ->
  Forall (fun c => exists l, Control.image (the_control w c) = LayerRef l)
         (Model.control m) ->
  let mask := Document.create_mask_from_selection ops user_selection (Model._doc m) in
  let image_bounds :=
    compute_bounds (Document.extent (Model._doc m)) (option_map mask_bounds mask)
                   (Model.strength m) in
  exists m',
    Model.generate ops user_selection compute_bounds (w, m) = (inr tt, (w, m')) /\
    Model.task m'
    = Some (Model.generate_task image_bounds
              (mkConditioning (Model.prompt m)
                 (map (control_input w image_bounds) (Model.control m)))
              (gathered_image mask (Model.strength m) image_bounds) mask) /\
    Model.error m' = "" /\
    Model.jobs m' = Model.jobs m /\
    Model._layer m' = Model._layer m /\
    Model._doc m' = Model._doc m.
Proof.
  intros Hm Hd Hctl mask image_bounds.
  unfold Model.generate. unfold bind at 1. unfold gets at 1. cbn [fst snd].
  rewrite (check_color_mode_right _ Hm Hd). cbn [negb].
  fold mask. unfold bind at 1. unfold gets at 1. cbn [fst snd]. fold image_bounds.
  unfold bind at 1. unfold gets at 1. cbn [fst snd].
  unfold bind at 1.
  assert (Himg :
    (if negb (is_None mask) || Qltb (Model.strength m) 1
     then img <- Model.in_doc (Document.get_image (Some image_bounds) (Model._layer m)) ;;
          ret (Some img)
     else ret None) (w, m)
    = (inr (gathered_image mask (Model.strength m) image_bounds), (w, m))).
  { unfold gathered_image.
    destruct (negb (is_None mask) || Qltb (Model.strength m) 1); [|reflexivity].
    unfold bind. now rewrite in_doc_get_image. }
  rewrite Himg. unfold bind at 1. unfold gets at 1. cbn [fst snd].
  unfold bind at 1. rewrite (get_control_images_layers _ _ _ _ Hctl).
  unfold bind at 1. unfold gets at 1. cbn [fst snd].
  unfold Model.start_generate, Model.clear_error, bind, gets, when, Model.on_self,
    Model.emit, modify, ret. cbn [fst snd].
  destruct (negb (Model.error m =? "")%string) eqn:He; cbn [fst snd].
  - eexists. split; [reflexivity|]. repeat split.
  - eexists. split; [reflexivity|]. repeat split.
    cbn [Model.error Model.set_task]. apply negb_false_iff in He.
    now apply String.eqb_eq in He.
Qed.

Lemma generate_starts_task_witness :
  exists m',
    Model.generate plain_ops None plain_bounds
      (control_world 100, model_with_strength (1 # 2))
    = (inr tt, (control_world 100, m')) /\
    Model.task m'
    = Some (Model.generate_task full_bounds (mkConditioning "" [])
              (Some (Document.read_pixels full_bounds)) None) /\
    Model.error m' = "" /\
    Model.jobs m' = JobQueue.__init__ /\
    Model._layer m' = None /\
    Model._doc m' = blank_document.
Proof.
  apply (generate_starts_task plain_ops None plain_bounds (control_world 100)
           (model_with_strength (1 # 2))).
  - reflexivity.
  - reflexivity.
  - constructor.
Defined.

(** X17: the inputs [generate] gathers pass the assertions of [_generate]
    exactly when the strength is at most 1: the chain then makes the request
    whose shape the two tests select, and with a strength above 1 it fails
    an assertion whatever the selection. *)
Theorem gathered_inputs_pass_assertions (style : Style) (strength : Q)
    (bounds image_bounds : Bounds) (cond : Conditioning) (mask : option Mask) :
  let select :=
    Model.select_request style strength bounds cond
      (gathered_image mask strength image_bounds) mask in
  if Qle_bool strength 1
  then exists r, select = inr r /\
                 builder_of r = shape (negb (is_None mask)) (Qltb strength 1)
  else select = inl (AssertionError "").
Proof.
  intros select. subst select. unfold Model.select_request, gathered_image.
  destruct (Qle_bool strength 1) eqn:Hle.
  - apply Qle_bool_iff in Hle.
    destruct mask as [k|]; cbn [is_None negb orb andb];
      destruct (Qltb strength 1) eqn:Hlt; cbn [is_None negb orb andb].
    + assert (Hne : Qeq_bool strength 1 = false)
        by (apply Qeq_bool_false; apply Qltb_true in Hlt; lra).
      rewrite Hne. eexists. split; reflexivity.
    + assert (Heq : Qeq_bool strength 1 = true)
        by (apply Qeq_bool_iff; apply Qltb_false in Hlt; lra).
      rewrite Heq. eexists. split; reflexivity.
    + eexists. split; reflexivity.
    + assert (Heq : Qeq_bool strength 1 = true)
        by (apply Qeq_bool_iff; apply Qltb_false in Hlt; lra).
      rewrite Heq. eexists. split; reflexivity.
  - assert (Hgt : (1 < strength)%Q).
    { apply Qnot_le_lt. intros H. apply Qle_bool_iff in H. congruence. }
    assert (Hlt : Qltb strength 1 = false) by (apply Qltb_false; lra).
    assert (Hne : Qeq_bool strength 1 = false) by (apply Qeq_bool_false; lra).
    destruct mask as [k|]; cbn [is_None negb orb andb]; rewrite Hlt;
      cbn [is_None negb orb andb]; rewrite Hne; try rewrite Hlt; reflexivity.
Qed.

(** X18: a control-layer submission that goes through.  On an RGBA
    document with 8 bits per channel, [generate_control_layer] followed by
    its task, with the connection up, a builder that does not raise and an
    [enqueue] that answers with an id, returns normally: the queue has one
    more job, a control job in state [queued] for the whole extent of the
    document, that refers to the control specification and carries the id;
    the error text is empty and the footprint is as before. *)
Theorem control_submission_queues_job (env : Env) (control : ref) (w : World)
    (m : Model.t) (id : string) :
  Document.colorModel (Model._doc m) = "RGBA" ->
  Document.colorDepth (Model._doc m) = "U8" ->
  connection_state w = connected ->
  let whole := mkBounds 0 0 (Document.kwidth (Model._doc m))
                        (Document.kheight (Model._doc m)) in
  let mode := Control.mode (the_control w control) in
  let request := workflow.create_control_image (Document.read_pixels whole) mode in
  workflow_raises env request = None ->
  enqueue env request = inr id ->
  let new := length (job_store w) in
  exists w' m',
    Model.run_task env (snd (Model.generate_control_layer control (w, m)))
      = (inr tt, (w', m')) /\
    fst (Model.generate_control_layer control (w, m)) = inr tt /\
    JobQueue._entries (Model.jobs m') = JobQueue._entries (Model.jobs m) ++ [new] /\
    JobQueue._memory_usage (Model.jobs m') = JobQueue._memory_usage (Model.jobs m) /\
    job w' new
      = Job.mk (Some id) JobKind.control_layer State.queued
               ("[Control] " ++ text mode) whole (Some control) (clock w) [] /\
    Model.error m' = "".
Proof.
  intros Hm Hd Hconn whole mode request Hbuild Henq new.
  assert (Hgen : exists m1,
    Model.generate_control_layer control (w, m)
    = (inr tt,
       (with_jobs
          (fun st => st ++ [Job.mk None JobKind.control_layer State.queued
                              ("[Control] " ++ text mode) whole (Some control)
                              (clock w) []]) w, m1)) /\
    Model.task m1 = Some (Model.control_layer_task new (Document.read_pixels whole) mode) /\
    JobQueue._entries (Model.jobs m1) = JobQueue._entries (Model.jobs m) ++ [new] /\
    JobQueue._memory_usage (Model.jobs m1) = JobQueue._memory_usage (Model.jobs m) /\
    Model.error m1 = "").
  { unfold Model.generate_control_layer. unfold bind at 1. unfold gets at 1.
    cbn [fst snd]. rewrite (check_color_mode_right _ Hm Hd). cbn [negb].
    unfold bind at 1. cbn [Document.extent width height]. fold whole.
    rewrite in_doc_get_image.
    unfold bind at 1. unfold Model.in_jobs, zoom. rewrite add_control_unfold.
    cbn [Document.read_pixels img_extent extent_of width height bwidth bheight whole].
    fold whole. fold mode.
    unfold Model.clear_error, bind, gets, when, Model.on_self, Model.emit, modify, ret.
    cbn [fst snd].
    destruct (negb (Model.error (Model.set_jobs _ m) =? "")%string) eqn:He;
      cbn [fst snd]; (eexists; split; [reflexivity|]).
    - repeat split.
    - repeat split. cbn [Model.error Model.set_task].
      apply negb_false_iff in He. now apply String.eqb_eq in He. }
  destruct Hgen as (m1 & Hgen & Htask & Hes & Hmem & Herr).
  rewrite Hgen. cbn [fst snd].
  unfold Model.run_task. unfold bind at 1. unfold gets at 1. cbn [fst snd].
  rewrite Htask.
  assert (Hrun :
    Model._generate_control_layer env new (Document.read_pixels whole) mode
      (with_jobs
         (fun st => st ++ [Job.mk None JobKind.control_layer State.queued
                             ("[Control] " ++ text mode) whole (Some control)
                             (clock w) []]) w, m1)
    = (inr tt,
       (update_job new (Job.set_id (Some id))
          (with_jobs
             (fun st => st ++ [Job.mk None JobKind.control_layer State.queued
                                 ("[Control] " ++ text mode) whole (Some control)
                                 (clock w) []]) w),
        Model.add_signal Model.changed m1))).
  { unfold Model._generate_control_layer, bind, gets, assert, Model.build,
      Model.of_result, Model.on_world, Model.emit, Model.on_self, modify, ret.
    cbn [fst snd connection_state with_jobs]. rewrite Hconn.
    cbn [Model.is_connected]. fold request. rewrite Hbuild, Henq. reflexivity. }
  unfold bind, _report_errors. rewrite Hrun. cbn [ret].
  eexists. eexists. split; [reflexivity|]. split; [reflexivity|].
  split; [exact Hes|]. split; [exact Hmem|]. split; [|exact Herr].
  rewrite job_update_eq by (simpl; rewrite length_app; simpl; unfold new; lia).
  unfold new. now rewrite job_alloc_new.
Qed.

Lemma control_submission_queues_job_witness :
  exists w' m',
    Model.run_task ok_env
      (snd (Model.generate_control_layer 0
              (control_world 100, Model.__init__ layered_document "style")))
      = (inr tt, (w', m')) /\
    fst (Model.generate_control_layer 0
           (control_world 100, Model.__init__ layered_document "style")) = inr tt /\
    JobQueue._entries (Model.jobs m') = [0%nat] /\
    JobQueue._memory_usage (Model.jobs m') = 0%Q /\
    job w' 0
      = Job.mk (Some "id-1") JobKind.control_layer State.queued
               "[Control] Scribble" full_bounds (Some 0%nat) 0 [] /\
    Model.error m' = "".
Proof.
  apply (control_submission_queues_job ok_env 0%nat (control_world 100)
           (Model.__init__ layered_document "style") "id-1"); reflexivity.
Defined.

(** * Properties of message handling *)

Lemma set_jobs_same (m : Model.t) : Model.set_jobs (Model.jobs m) m = m.
Proof. now destruct m. Qed.

Lemma find_in_model (w : World) (m : Model.t) (key : JobQueue.Key) (r : option ref) :
  JobQueue.find key (w, Model.jobs m) = (inr r, (w, Model.jobs m)) ->
  Model.in_jobs (JobQueue.find key) (w, m) = (inr r, (w, m)).
Proof.
  intros H. unfold Model.in_jobs, zoom. rewrite H. now rewrite set_jobs_same.
Qed.

Lemma found_by_id (w : World) (q : JobQueue.t) (sid : string) (j : ref) :
  JobQueue.find (JobQueue.KStr sid) (w, q) = (inr (Some j), (w, q)) ->
  j ∈ JobQueue._entries q /\ Job.id (job w j) = Some sid /\
  (j < length (job_store w))%nat.
Proof.
  intros H. unfold JobQueue.find, gets in H. injection H as H.
  apply find_some_elem in H as [Hin Hp]. unfold JobQueue.id_is in Hp.
  destruct (Job.id (job w j)) as [i|] eqn:Hi; [|discriminate].
  apply String.eqb_eq in Hp. subst i. repeat split; [assumption|].
  destruct (Nat.lt_ge_cases j (length (job_store w))) as [Hlt|Hge]; [assumption|].
  unfold job in Hi. rewrite list_lookup_total_alt in Hi.
  rewrite lookup_ge_None_2 in Hi by assumption. discriminate Hi.
Qed.

(** X19: a message for a job that the queue of the model does not have
    fails the assertion of [handle_message], and nothing has changed. *)
Theorem handle_message_unknown_job (w : World) (m : Model.t) (message : ClientMessage.t) :
  JobQueue.find (JobQueue.KStr (ClientMessage.job_id message)) (w, Model.jobs m)
    = (inr None, (w, Model.jobs m)) ->
  Model.handle_message message (w, m)
  = (inl (AssertionError "Received message for unknown job."), (w, m)).
Proof.
  intros H. unfold Model.handle_message. unfold bind at 1.
  now rewrite (find_in_model _ _ _ _ H).
Qed.

Lemma handle_message_unknown_job_witness :
  Model.handle_message (msg_progress "id-9" (1 # 2)) one_job_queued
  = (inl (AssertionError "Received message for unknown job."), one_job_queued).
Proof.
  apply (handle_message_unknown_job (fst one_job_queued) (snd one_job_queued)
           (msg_progress "id-9" (1 # 2))).
  reflexivity.
Defined.

(** X20: a progress, interrupted or error message for a job of the queue
    is handled without raising.  The job becomes [executing] for progress
    and [cancelled] otherwise, and keeps its id, kind and results; the queue
    is as before.  Progress sets the model's progress to the value of the
    message, interrupted sets it to 0, and error records the server's text
    behind "Server execution error: ". *)
Theorem handle_message_sets_state (w : World) (m : Model.t) (message : ClientMessage.t)
    (j : ref) :
  JobQueue.find (JobQueue.KStr (ClientMessage.job_id message)) (w, Model.jobs m)
    = (inr (Some j), (w, Model.jobs m)) ->
  ClientMessage.event message <> ClientEvent.finished ->
  let st := match ClientMessage.event message with
            | ClientEvent.progress => State.executing
            | _ => State.cancelled
            end in
  exists m',
    Model.handle_message message (w, m)
      = (inr tt, (update_job j (Job.set_state st) w, m')) /\
    job (update_job j (Job.set_state st) w) j = Job.set_state st (job w j) /\
    Model.jobs m' = Model.jobs m /\
    Model.progress m'
      = match ClientMessage.event message with
        | ClientEvent.progress => ClientMessage.progress message
        | ClientEvent.interrupted => 0%Q
        | _ => Model.progress m
        end /\
    Model.error m'
      = match ClientMessage.event message with
        | ClientEvent.error =>
            ("Server execution error: " ++ ClientMessage.error message)%string
        | _ => Model.error m
        end.
Proof.
  intros Hfind Hev st. subst st.
  destruct (found_by_id _ _ _ _ Hfind) as (_ & _ & Hj).
  unfold Model.handle_message. unfold bind at 1.
  rewrite (find_in_model _ _ _ _ Hfind).
  destruct (ClientMessage.event message); [| congruence | |];
    (eexists; split; [reflexivity|]);
    (split; [now apply job_update_eq|]); repeat split.
Qed.

Lemma handle_message_sets_state_witness :
  exists m',
    Model.handle_message (msg_interrupted "id-1") one_job_queued
      = (inr tt, (update_job 0 (Job.set_state State.cancelled) (fst one_job_queued), m')) /\
    job (update_job 0 (Job.set_state State.cancelled) (fst one_job_queued)) 0
      = Job.set_state State.cancelled (job (fst one_job_queued) 0) /\
    Model.jobs m' = Model.jobs (snd one_job_queued) /\
    Model.progress m' = 0%Q /\
    Model.error m' = Model.error (snd one_job_queued).
Proof.
  apply (handle_message_sets_state (fst one_job_queued) (snd one_job_queued)
           (msg_interrupted "id-1") 0%nat).
  - reflexivity.
  - discriminate.
Defined.

(** * Properties of the preview *)

Lemma insert_layer_on_top (w : World) (d : Document.t) (name : string) (img : Image)
    (bounds : Bounds) :
  Document.insert_layer name img bounds None (w, d)
  = (inr (length (node_store w)),
     (layer_inserted w name img bounds,
      Document.set_childNodes (Document.childNodes d ++ [length (node_store w)]) d)).
Proof. reflexivity. Qed.

Lemma layer_inserted_spec (w : World) (name : string) (img : Image) (bounds : Bounds) :
  node (layer_inserted w name img bounds) (length (node_store w))
    = Node.mk name false true true (Some (img, bounds)) /\
  (forall r, (r < length (node_store w))%nat ->
             node (layer_inserted w name img bounds) r = node w r) /\
  length (node_store (layer_inserted w name img bounds)) = S (length (node_store w)) /\
  job_store (layer_inserted w name img bounds) = job_store w.
Proof.
  destruct (insert_layer_result w (Document.mk 0 0 "" "" [] None) name img bounds None)
    as (H1 & H2 & H3 & H4 & _).
  repeat split; assumption.
Qed.

(** The run of [show_preview] when the model has no preview layer. *)
Lemma show_preview_new (w : World) (m : Model.t) (sid : string) (index : nat)
    (j : ref) (img : Image) :
  JobQueue.find (JobQueue.KStr sid) (w, Model.jobs m) = (inr (Some j), (w, Model.jobs m)) ->
  Model._layer m = None ->
  Job.results (job w j) !! index = Some img ->
  Model.show_preview (Some sid) index (w, m)
  = (inr tt,
     (update_node (length (node_store w)) (Node.setLocked true)
        (layer_inserted w ("[Preview] " ++ Job.prompt (job w j)) img (Job.bounds (job w j))),
      Model.add_signal Model.changed
        (Model.set_layer (Some (length (node_store w)))
           (Model.set_doc
              (Document.set_childNodes
                 (Document.childNodes (Model._doc m) ++ [length (node_store w)])
                 (Model._doc m)) m)))).
Proof.
  intros Hfind Hlayer Himg.
  unfold Model.show_preview. unfold bind at 1. cbn [Model.key_of].
  rewrite (find_in_model _ _ _ _ Hfind).
  unfold bind at 1. unfold gets at 1. cbn [fst snd].
  unfold bind at 1. unfold gets at 1. cbn [fst snd]. rewrite Hlayer.
  unfold bind at 1. cbn [ret].
  unfold bind at 1. unfold gets at 1. cbn [fst snd]. rewrite Hlayer.
  rewrite Himg.
  unfold bind at 1. unfold bind at 1. unfold Model.in_doc, zoom.
  rewrite insert_layer_on_top.
  unfold bind, Model.on_self, Model.on_world, Model.emit, modify. cbn [fst snd].
  reflexivity.
Qed.

Lemma show_preview_detached (w : World) (m : Model.t) (sid : string)
    (index : nat) (j l : ref) :
  JobQueue.find (JobQueue.KStr sid) (w, Model.jobs m) = (inr (Some j), (w, Model.jobs m)) ->
  Model._layer m = Some l ->
  Node.has_parent (node w l) = false ->
  Model.show_preview (Some sid) index (w, m)
  = Model.show_preview (Some sid) index (w, Model.set_layer None m).
Proof.
  intros Hfind Hl Hp. destruct m as [d lay sty pr ctl str prog q err tsk sig].
  cbn [Model._layer Model.jobs] in Hl, Hfind. subst lay.
  unfold Model.show_preview, bind, gets, when, Model.in_jobs, zoom, Model.on_self,
    modify, Model.key_of.
  cbn [fst snd Model.jobs Model.set_jobs Model.set_layer Model._layer].
  rewrite Hfind.
  cbn [fst snd Model.jobs Model.set_jobs Model.set_layer Model._layer].
  rewrite Hp. reflexivity.
Qed.

Lemma valid_of_parent (w : World) (l : ref) :
  Node.has_parent (node w l) = true -> (l < length (node_store w))%nat.
Proof.
  intros Hp. destruct (Nat.lt_ge_cases l (length (node_store w))) as [Hlt|Hge];
    [assumption|].
  unfold node in Hp. rewrite list_lookup_total_alt in Hp.
  rewrite lookup_ge_None_2 in Hp by assumption. discriminate Hp.
Qed.

(** X21: [show_preview] for a result the job has, when the model has no
    preview layer or its layer has been taken out of the document, returns
    normally with a new layer as the preview: it is named after the prompt,
    locked, attached, and holds the result at the bounds of the job.  The
    layers that existed, the jobs and the queue are untouched, and
    [changed] is emitted. *)
Theorem show_preview_creates_layer (w : World) (m : Model.t) (sid : string)
    (index : nat) (j : ref) (img : Image) :
  JobQueue.find (JobQueue.KStr sid) (w, Model.jobs m) = (inr (Some j), (w, Model.jobs m)) ->
  Job.results (job w j) !! index = Some img ->
  match Model._layer m with
  | None => True
  | Some l => Node.has_parent (node w l) = false
  end ->
  let layer := length (node_store w) in
  exists w' m',
    Model.show_preview (Some sid) index (w, m) = (inr tt, (w', m')) /\
    Model._layer m' = Some layer /\
    node w' layer
      = Node.mk ("[Preview] " ++ Job.prompt (job w j)) true true true
                (Some (img, Job.bounds (job w j))) /\
    (forall r, (r < layer)%nat -> node w' r = node w r) /\
    job_store w' = job_store w /\
    Model.jobs m' = Model.jobs m /\
    last (Model.signals m') = Some Model.changed.
Proof.
  intros Hfind Himg Hlayer layer. subst layer.
  assert (Hrun : exists m0, Model.jobs m0 = Model.jobs m /\ Model._layer m0 = None /\
            Model.show_preview (Some sid) index (w, m)
            = Model.show_preview (Some sid) index (w, m0)).
  { destruct (Model._layer m) as [l|] eqn:Hl.
    - exists (Model.set_layer None m). repeat split.
      now apply (show_preview_detached w m sid index j l).
    - exists m. repeat split. exact Hl. }
  destruct Hrun as (m0 & Hjobs & Hnone & ->).
  rewrite <- Hjobs in Hfind.
  rewrite (show_preview_new w m0 sid index j img Hfind Hnone Himg).
  destruct (layer_inserted_spec w ("[Preview] " ++ Job.prompt (job w j)) img
              (Job.bounds (job w j))) as (Hnew & Hold & Hlen & Hstore).
  eexists. eexists. split; [reflexivity|]. split; [reflexivity|].
  split; [|split; [|split; [|split]]].
  - rewrite node_update_eq by (rewrite Hlen; lia). now rewrite Hnew.
  - intros r Hr. rewrite node_update_ne by lia. now apply Hold.
  - exact Hstore.
  - cbn [Model.jobs Model.add_signal Model.set_layer Model.set_doc]. exact Hjobs.
  - cbn [Model.signals Model.add_signal]. apply last_snoc.
Qed.

Lemma show_preview_creates_layer_witness :
  let w := fst preview_shown in
  let m := Model.set_layer None (snd preview_shown) in
  let layer := length (node_store w) in
  exists w' m',
    Model.show_preview (Some "id-1") 0 (w, m) = (inr tt, (w', m')) /\
    Model._layer m' = Some layer /\
    node w' layer
      = Node.mk ("[Preview] " ++ Job.prompt (job w 0)) true true true
                (Some (some_image, Job.bounds (job w 0))) /\
    (forall r, (r < layer)%nat -> node w' r = node w r) /\
    job_store w' = job_store w /\
    Model.jobs m' = Model.jobs m /\
    last (Model.signals m') = Some Model.changed.
Proof.
  intros w m.
  apply (show_preview_creates_layer w m "id-1" 0%nat 0%nat some_image).
  - vm_compute. reflexivity.
  - vm_compute. reflexivity.
  - exact I.
Defined.

(** X22: [show_preview] for a result the job has, when the preview layer
    of the model is still in the document, returns normally and reuses the
    layer: it is renamed after the prompt, holds the result at the bounds of
    the job and is visible.  No layer is created and the document's children
    are as before. *)
Theorem show_preview_reuses_layer (w : World) (m : Model.t) (sid : string)
    (index : nat) (j : ref) (img : Image) (l : ref) :
  JobQueue.find (JobQueue.KStr sid) (w, Model.jobs m) = (inr (Some j), (w, Model.jobs m)) ->
  Job.results (job w j) !! index = Some img ->
  Model._layer m = Some l ->
  Node.has_parent (node w l) = true ->
  exists w',
    Model.show_preview (Some sid) index (w, m)
      = (inr tt, (w', Model.add_signal Model.changed m)) /\
    node w' l
      = Node.setVisible true
          (Node.setPixelData img (Job.bounds (job w j))
             (Node.setName ("[Preview] " ++ Job.prompt (job w j)) (node w l))) /\
    (forall r, r <> l -> node w' r = node w r) /\
    length (node_store w') = length (node_store w) /\
    job_store w' = job_store w.
Proof.
  intros Hfind Himg Hl Hp.
  pose proof (valid_of_parent _ _ Hp) as Hvalid.
  unfold Model.show_preview. unfold bind at 1. cbn [Model.key_of].
  rewrite (find_in_model _ _ _ _ Hfind).
  unfold bind at 1. unfold gets at 1. cbn [fst snd].
  unfold bind at 1. unfold gets at 1. cbn [fst snd]. rewrite Hl.
  unfold bind at 1. unfold bind at 1. unfold gets at 1. cbn [fst snd]. rewrite Hp.
  cbn [negb when ret].
  unfold bind at 1. unfold gets at 1. cbn [fst snd]. rewrite Hl.
  unfold bind at 1. unfold bind at 1. unfold Model.on_world at 1. unfold modify at 1.
  rewrite Himg. unfold bind at 1.
  unfold Model.in_doc, zoom, Document.set_layer_content, bind, modify, ret,
    Model.emit, Model.on_self. cbn [fst snd].
  exists (update_node l (Node.setVisible true)
            (update_node l (Node.setPixelData img (Job.bounds (job w j)))
               (update_node l (Node.setName ("[Preview] " ++ Job.prompt (job w j))) w))).
  split.
  - destruct m; reflexivity.
  - repeat split.
    + rewrite node_update_eq by (now rewrite !length_update_node).
      rewrite node_update_eq by (now rewrite length_update_node).
      now rewrite node_update_eq.
    + intros r Hr. now rewrite !node_update_ne by congruence.
    + now rewrite !length_update_node.
Qed.

Lemma show_preview_reuses_layer_witness :
  let w := fst preview_shown in
  let m := snd preview_shown in
  exists w',
    Model.show_preview (Some "id-1") 0 (w, m)
      = (inr tt, (w', Model.add_signal Model.changed m)) /\
    node w' 0
      = Node.setVisible true
          (Node.setPixelData some_image (Job.bounds (job w 0))
             (Node.setName ("[Preview] " ++ Job.prompt (job w 0)) (node w 0))) /\
    (forall r, r <> 0%nat -> node w' r = node w r) /\
    length (node_store w') = length (node_store w) /\
    job_store w' = job_store w.
Proof.
  intros w m.
  apply (show_preview_reuses_layer w m "id-1" 0%nat 0%nat some_image 0%nat).
  - vm_compute. reflexivity.
  - vm_compute. reflexivity.
  - vm_compute. reflexivity.
  - vm_compute. reflexivity.
Defined.

Lemma bind_ok {S A B} (c : M S A) (k : A -> M S B) (s s' : S) (a : A) :
  c s = (inr a, s') -> bind c k s = k a s'.
Proof. intros H. unfold bind. now rewrite H. Qed.

Lemma bind_raise {S A B} (c : M S A) (k : A -> M S B) (s s' : S) (e : exn) :
  c s = (inl e, s') -> bind c k s = (inl e, s').
Proof. intros H. unfold bind. now rewrite H. Qed.

(** A lookup that returns the job [j] has passed every job in front of
    it. *)
Lemma find_passes_older {A} (p : A -> bool) (older newer : list A) (a : A) :
  List.find p (older ++ a :: newer) = Some a -> a ∉ older ->
  Forall (fun b => p b = false) older /\ p a = true.
Proof.
  induction older as [|e older IH]; simpl; intros H Hnot.
  - split; [constructor|]. destruct (p a) eqn:Hp; [reflexivity|].
    apply find_some in H as [_ H]. congruence.
  - apply not_elem_of_cons in Hnot as [Hne Hnot].
    destruct (p e) eqn:Hp; [injection H as ->; congruence|].
    destruct (IH H Hnot) as [Hall Ha]. split; [|assumption].
    now constructor.
Qed.

Lemma find_skips {A} (p : A -> bool) (kept newer : list A) (a : A) :
  Forall (fun b => p b = false) kept -> p a = true ->
  List.find p (kept ++ a :: newer) = Some a.
Proof.
  induction 1 as [|e kept He _ IH]; simpl; intros Ha; [now rewrite Ha|].
  rewrite He. now apply IH.
Qed.

Lemma show_preview_unknown (w : World) (m : Model.t) (sid : string) (index : nat) :
  JobQueue.find (JobQueue.KStr sid) (w, Model.jobs m) = (inr None, (w, Model.jobs m)) ->
  Model.show_preview (Some sid) index (w, m) = (inl AttributeError, (w, m)).
Proof.
  intros Hfind. unfold Model.show_preview. cbn [Model.key_of].
  now rewrite (bind_ok _ _ _ _ _ (find_in_model _ _ _ _ Hfind)).
Qed.

Lemma show_preview_no_result (w : World) (m : Model.t) (sid : string) (index : nat)
    (j : ref) :
  JobQueue.find (JobQueue.KStr sid) (w, Model.jobs m)
    = (inr (Some j), (w, Model.jobs m)) ->
  Job.results (job w j) !! index = None ->
  Model._layer m = None ->
  Model.show_preview (Some sid) index (w, m) = (inl IndexError, (w, m)).
Proof.
  intros Hfind Hres Hlayer. unfold Model.show_preview. cbn [Model.key_of].
  rewrite (bind_ok _ _ _ _ _ (find_in_model _ _ _ _ Hfind)).
  unfold bind, gets. cbn [fst snd]. rewrite Hlayer. cbn [ret fst snd].
  rewrite Hlayer, Hres. reflexivity.
Qed.

(** X23: [show_preview] fails without touching the preview when it cannot
    show the result: an id the queue does not have raises [AttributeError]
    and, with no preview layer, an index the job has no result for raises
    [IndexError]; nothing has changed in either case. *)
Theorem show_preview_fails (w : World) (m : Model.t) (sid : string) (index : nat)
    (j : ref) :
  (JobQueue.find (JobQueue.KStr sid) (w, Model.jobs m) = (inr None, (w, Model.jobs m)) ->
   Model.show_preview (Some sid) index (w, m) = (inl AttributeError, (w, m))) /\
  (JobQueue.find (JobQueue.KStr sid) (w, Model.jobs m)
     = (inr (Some j), (w, Model.jobs m)) ->
   Job.results (job w j) !! index = None ->
   Model._layer m = None ->
   Model.show_preview (Some sid) index (w, m) = (inl IndexError, (w, m))).
Proof.
  split; [apply show_preview_unknown|apply show_preview_no_result].
Qed.

Lemma show_preview_fails_witness :
  let w := fst one_job_queued in
  let m := snd one_job_queued in
  Model.show_preview (Some "id-9") 0 (w, m) = (inl AttributeError, (w, m)) /\
  Model.show_preview (Some "id-1") 0 (w, m) = (inl IndexError, (w, m)).
Proof.
  intros w m. split.
  - apply (show_preview_fails w m "id-9" 0%nat 0%nat). vm_compute. reflexivity.
  - apply (show_preview_fails w m "id-1" 0%nat 0%nat); vm_compute; reflexivity.
Defined.

(** The run of [set_results] for the diffusion job a lookup by [sid]
    returned: the job still comes first among the jobs with that id. *)
Lemma set_results_found (w : World) (m : Model.t) (sid : string) (j : ref)
    (rs : ImageCollection.t) :
  JobQueue.find (JobQueue.KStr sid) (w, Model.jobs m) = (inr (Some j), (w, Model.jobs m)) ->
  Job.kind (job w j) = JobKind.diffusion ->
  exists q',
    Model.in_jobs (JobQueue.set_results j rs) (w, m)
      = (inr tt, (update_job j (Job.set_results rs) w, Model.set_jobs q' m)) /\
    JobQueue.find (JobQueue.KStr sid) (update_job j (Job.set_results rs) w, q')
      = (inr (Some j), (update_job j (Job.set_results rs) w, q')) /\
    j ∈ JobQueue._entries q'.
Proof.
  intros Hfind Hkind.
  destruct (found_by_id _ _ _ _ Hfind) as (Hin & Hid & Hj).
  set (w2 := update_job j (Job.set_results rs) w).
  assert (Hjob : job w2 j = Job.set_results rs (job w j)) by (now apply job_update_eq).
  destruct (split_first j _ Hin) as (older & newer & Hq & Hnot).
  destruct (prune_loop_spec w2 j newer older
              (JobQueue._memory_usage (Model.jobs m) + size_mb rs)%Q Hnot)
    as (evicted & kept & mem' & Hsplit & Hrun & _).
  exists (JobQueue.mk (kept ++ j :: newer) mem'). split; [|split].
  - unfold Model.in_jobs, zoom.
    rewrite set_results_unfold
      by (unfold is_diffusion; fold w2; rewrite Hjob; simpl; now rewrite Hkind).
    fold w2. unfold JobQueue.prune.
    cbn [JobQueue._entries JobQueue._memory_usage JobQueue.set_memory].
    rewrite Hq, Hrun. reflexivity.
  - unfold JobQueue.find, gets in Hfind |- *. injection Hfind as Hfind.
    rewrite Hq in Hfind. apply find_passes_older in Hfind as [Hall Hp]; [|assumption].
    do 2 f_equal. cbn [JobQueue._entries].
    assert (Hsame : forall r, JobQueue.id_is w2 sid r = JobQueue.id_is w sid r).
    { intros r. unfold JobQueue.id_is, w2.
      now rewrite (job_update_field Job.id). }
    apply find_skips.
    + rewrite Hsplit in Hall. apply Forall_app in Hall as [_ Hall].
      eapply Forall_impl; [exact Hall|]. intros r Hr. now rewrite Hsame.
    + now rewrite Hsame.
  - cbn [JobQueue._entries]. apply elem_of_app. right. left.
Qed.

(** X24: a [finished] message with at least one image for a diffusion job
    of a model without preview layer is handled without raising.  The job
    is [finished], holds the images and is still in the queue; the first
    image is shown in a new, locked preview layer named after the prompt;
    the progress is 1, and [changed], [job_finished] and [changed] are
    emitted in this order. *)
Theorem finished_diffusion_job_is_previewed (w : World) (m : Model.t)
    (message : ClientMessage.t) (j : ref) (img : Image) (rest : ImageCollection.t) :
  ClientMessage.event message = ClientEvent.finished ->
  ClientMessage.images message = img :: rest ->
  JobQueue.find (JobQueue.KStr (ClientMessage.job_id message)) (w, Model.jobs m)
    = (inr (Some j), (w, Model.jobs m)) ->
  Job.kind (job w j) = JobKind.diffusion ->
  Model._layer m = None ->
  let layer := length (node_store w) in
  exists w' m',
    Model.handle_message message (w, m) = (inr tt, (w', m')) /\
    job w' j = Job.set_results (img :: rest) (Job.set_state State.finished (job w j)) /\
    j ∈ JobQueue._entries (Model.jobs m') /\
    Model._layer m' = Some layer /\
    node w' layer
      = Node.mk ("[Preview] " ++ Job.prompt (job w j)) true true true
                (Some (img, Job.bounds (job w j))) /\
    Model.progress m' = 1%Q /\
    Model.signals m'
      = Model.signals m ++ [Model.changed; Model.job_finished j; Model.changed].
Proof.
  intros Hev Himg Hfind Hkind Hlayer layer. subst layer.
  destruct (found_by_id _ _ _ _ Hfind) as (Hin & Hid & Hj).
  set (w1 := update_job j (Job.set_state State.finished) w).
  assert (Hjob1 : job w1 j = Job.set_state State.finished (job w j))
    by (now apply job_update_eq).
  assert (Hfind1 : JobQueue.find (JobQueue.KStr (ClientMessage.job_id message))
                     (w1, Model.jobs m) = (inr (Some j), (w1, Model.jobs m))).
  { unfold JobQueue.find, gets in Hfind |- *. injection Hfind as Hfind.
    do 2 f_equal. rewrite <- Hfind. apply find_ext_in, Forall_forall. intros r _.
    unfold JobQueue.id_is, w1. now rewrite (job_update_field Job.id). }
  destruct (set_results_found w1 m _ j (img :: rest) Hfind1)
    as (q' & Hset & Hfind2 & Hin').
  { now rewrite Hjob1. }
  set (w2 := update_job j (Job.set_results (img :: rest)) w1) in *.
  assert (Hjob2 : job w2 j
                  = Job.set_results (img :: rest) (Job.set_state State.finished (job w j))).
  { unfold w2. rewrite job_update_eq by (unfold w1; now rewrite length_update_job).
    now rewrite Hjob1. }
  set (m2 := Model.set_progress 1 (Model.set_jobs q' m)).
  assert (Hshow := show_preview_new w2 m2 (ClientMessage.job_id message) 0 j img).
  unfold Model.handle_message.
  rewrite (bind_ok _ _ _ _ _ (find_in_model _ _ _ _ Hfind)). rewrite Hev, Himg.
  unfold Model.on_world at 1. unfold modify at 1. unfold bind at 1. fold w1.
  rewrite (bind_ok _ _ _ _ _ Hset).
  unfold Model.on_self at 1. unfold modify at 1. unfold bind at 1. fold m2.
  unfold bind at 1. unfold gets at 1. cbn [fst snd].
  unfold bind at 1. unfold gets at 1. cbn [fst snd].
  rewrite Hjob2. cbn [Job.kind Job.set_results Job.set_state]. rewrite Hkind.
  replace (Model._layer m2) with (@None ref) by (symmetry; exact Hlayer).
  cbn [JobKind.eqb is_None andb when].
  unfold bind at 1. unfold bind at 1. unfold gets at 1. cbn [fst snd].
  rewrite Hjob2. cbn [Job.id Job.set_results Job.set_state]. rewrite Hid.
  rewrite Hshow; [|exact Hfind2|exact Hlayer|now rewrite Hjob2].
  unfold bind at 1. unfold gets at 1. cbn [fst snd].
  change (job (update_node (length (node_store w2)) (Node.setLocked true)
                 (layer_inserted w2 ("[Preview] " ++ Job.prompt (job w2 j)) img
                    (Job.bounds (job w2 j)))) j) with (job w2 j).
  rewrite Hjob2. cbn [Job.kind Job.set_results Job.set_state Job.prompt Job.bounds].
  rewrite Hkind. cbn [JobKind.eqb when].
  unfold bind, ret, Model.emit, Model.on_self, modify. cbn [fst snd].
  change (node_store w2) with (node_store w).
  destruct (layer_inserted_spec w2 ("[Preview] " ++ Job.prompt (job w j)) img
              (Job.bounds (job w j))) as (Hnew & _ & Hlen & _).
  change (node_store w2) with (node_store w) in Hnew, Hlen.
  eexists. eexists. split; [reflexivity|].
  split; [exact Hjob2|]. split; [exact Hin'|]. split; [reflexivity|].
  split; [|split].
  - rewrite node_update_eq by (rewrite Hlen; lia). now rewrite Hnew.
  - reflexivity.
  - cbn [Model.signals Model.add_signal Model.set_layer Model.set_doc m2
         Model.set_progress Model.set_jobs].
    now rewrite <- !app_assoc.
Qed.

Lemma finished_diffusion_job_is_previewed_witness :
  let w := fst one_job_queued in
  let m := snd one_job_queued in
  let message := msg_finished "id-1" [some_image] in
  let layer := length (node_store w) in
  exists w' m',
    Model.handle_message message (w, m) = (inr tt, (w', m')) /\
    job w' 0 = Job.set_results [some_image] (Job.set_state State.finished (job w 0)) /\
    0%nat ∈ JobQueue._entries (Model.jobs m') /\
    Model._layer m' = Some layer /\
    node w' layer
      = Node.mk ("[Preview] " ++ Job.prompt (job w 0)) true true true
                (Some (some_image, Job.bounds (job w 0))) /\
    Model.progress m' = 1%Q /\
    Model.signals m'
      = Model.signals m ++ [Model.changed; Model.job_finished 0%nat; Model.changed].
Proof.
  intros w m message.
  apply (finished_diffusion_job_is_previewed w m message 0%nat some_image []).
  - reflexivity.
  - reflexivity.
  - vm_compute. reflexivity.
  - vm_compute. reflexivity.
  - vm_compute. reflexivity.
Defined.

(** X25: a [finished] message without images for a diffusion job of a model
    without preview layer raises [IndexError]: the handler marks the job
    [finished], attaches the empty results and sets the progress to 1, then
    fails to show a first result that does not exist.  The job stays in the
    queue, and neither [job_finished] nor [changed] is emitted. *)
Theorem finished_diffusion_job_without_images (w : World) (m : Model.t)
    (message : ClientMessage.t) (j : ref) :
  ClientMessage.event message = ClientEvent.finished ->
  ClientMessage.images message = [] ->
  JobQueue.find (JobQueue.KStr (ClientMessage.job_id message)) (w, Model.jobs m)
    = (inr (Some j), (w, Model.jobs m)) ->
  Job.kind (job w j) = JobKind.diffusion ->
  Model._layer m = None ->
  exists w' m',
    Model.handle_message message (w, m) = (inl IndexError, (w', m')) /\
    job w' j = Job.set_results [] (Job.set_state State.finished (job w j)) /\
    j ∈ JobQueue._entries (Model.jobs m') /\
    Model.progress m' = 1%Q /\
    Model.signals m' = Model.signals m /\
    Model._layer m' = None.
Proof.
  intros Hev Himg Hfind Hkind Hlayer.
  destruct (found_by_id _ _ _ _ Hfind) as (Hin & Hid & Hj).
  set (w1 := update_job j (Job.set_state State.finished) w).
  assert (Hjob1 : job w1 j = Job.set_state State.finished (job w j))
    by (now apply job_update_eq).
  assert (Hfind1 : JobQueue.find (JobQueue.KStr (ClientMessage.job_id message))
                     (w1, Model.jobs m) = (inr (Some j), (w1, Model.jobs m))).
  { unfold JobQueue.find, gets in Hfind |- *. injection Hfind as Hfind.
    do 2 f_equal. rewrite <- Hfind. apply find_ext_in, Forall_forall. intros r _.
    unfold JobQueue.id_is, w1. now rewrite (job_update_field Job.id). }
  destruct (set_results_found w1 m _ j [] Hfind1) as (q' & Hset & Hfind2 & Hin').
  { now rewrite Hjob1. }
  set (w2 := update_job j (Job.set_results []) w1) in *.
  assert (Hjob2 : job w2 j = Job.set_results [] (Job.set_state State.finished (job w j))).
  { unfold w2. rewrite job_update_eq by (unfold w1; now rewrite length_update_job).
    now rewrite Hjob1. }
  set (m2 := Model.set_progress 1 (Model.set_jobs q' m)).
  assert (Hshow := show_preview_no_result w2 m2 (ClientMessage.job_id message) 0 j).
  unfold Model.handle_message.
  rewrite (bind_ok _ _ _ _ _ (find_in_model _ _ _ _ Hfind)). rewrite Hev, Himg.
  unfold Model.on_world at 1. unfold modify at 1. unfold bind at 1. fold w1.
  rewrite (bind_ok _ _ _ _ _ Hset).
  unfold Model.on_self at 1. unfold modify at 1. unfold bind at 1. fold m2.
  unfold bind at 1. unfold gets at 1. cbn [fst snd].
  unfold bind at 1. unfold gets at 1. cbn [fst snd].
  rewrite Hjob2. cbn [Job.kind Job.set_results Job.set_state]. rewrite Hkind.
  replace (Model._layer m2) with (@None ref) by (symmetry; exact Hlayer).
  cbn [JobKind.eqb is_None andb when].
  unfold bind at 1. unfold bind at 1. unfold gets at 1. cbn [fst snd].
  rewrite Hjob2. cbn [Job.id Job.set_results Job.set_state]. rewrite Hid.
  rewrite Hshow; [|exact Hfind2|now rewrite Hjob2|exact Hlayer].
  exists w2, m2. repeat split; assumption.
Qed.

Lemma finished_diffusion_job_without_images_witness :
  let w := fst one_job_queued in
  let m := snd one_job_queued in
  let message := msg_finished "id-1" [] in
  exists w' m',
    Model.handle_message message (w, m) = (inl IndexError, (w', m')) /\
    job w' 0 = Job.set_results [] (Job.set_state State.finished (job w 0)) /\
    0%nat ∈ JobQueue._entries (Model.jobs m') /\
    Model.progress m' = 1%Q /\
    Model.signals m' = Model.signals m /\
    Model._layer m' = None.
Proof.
  intros w m message.
  apply (finished_diffusion_job_without_images w m message 0%nat).
  - reflexivity.
  - reflexivity.
  - vm_compute. reflexivity.
  - vm_compute. reflexivity.
  - vm_compute. reflexivity.
Defined.

(** ** Hiding and applying the preview *)

Lemma replace_preview_label (p : string) :
  Model.replace "[Preview]" "[Generated]" ("[Preview] " ++ p)
  = ("[Generated] " ++ Model.replace "[Preview]" "[Generated]" p)%string.
Proof. reflexivity. Qed.

Lemma valid_of_visible (w : World) (l : ref) :
  Node.visible (node w l) = true -> (l < length (node_store w))%nat.
Proof.
  intros Hv. destruct (Nat.lt_ge_cases l (length (node_store w))) as [Hlt|Hge];
    [assumption|].
  unfold node in Hv. rewrite list_lookup_total_alt in Hv.
  rewrite lookup_ge_None_2 in Hv by assumption. discriminate Hv.
Qed.

Lemma apply_without_preview (s : Model.St) :
  Model.can_apply_result s = false ->
  Model.apply_current_result s = (inl (AssertionError ""), s).
Proof.
  intros H. unfold Model.apply_current_result, bind, gets, assert. now rewrite H.
Qed.

(** X26: [apply_current_result] on a visible preview layer returns
    normally: the layer is unlocked, every "[Preview]" in its name reads
    "[Generated]" (so the name [show_preview] gave it starts with
    "[Generated] "), no other layer changes, and the model lets go of the
    layer.  There is then nothing to apply: a second call fails its
    assertion and changes nothing. *)
Theorem apply_current_result_releases_layer (w : World) (m : Model.t) (l : ref)
    (p : string) :
  Model._layer m = Some l ->
  Node.visible (node w l) = true ->
  Node.name (node w l) = ("[Preview] " ++ p)%string ->
  exists w',
    let s' := (w', Model.add_signal Model.changed (Model.set_layer None m)) in
    Model.apply_current_result (w, m) = (inr tt, s') /\
    Node.locked (node w' l) = false /\
    Node.name (node w' l)
      = ("[Generated] " ++ Model.replace "[Preview]" "[Generated]" p)%string /\
    Node.pixels (node w' l) = Node.pixels (node w l) /\
    (forall r, r <> l -> node w' r = node w r) /\
    Model.apply_current_result s' = (inl (AssertionError ""), s').
Proof.
  intros Hl Hv Hname. pose proof (valid_of_visible _ _ Hv) as Hvalid.
  exists (update_node l
            (fun n => Node.setName (Model.replace "[Preview]" "[Generated]" (Node.name n)) n)
            (update_node l (Node.setLocked false) w)).
  cbn zeta.
  assert (Hnode : node (update_node l
                          (fun n => Node.setName
                                      (Model.replace "[Preview]" "[Generated]" (Node.name n)) n)
                          (update_node l (Node.setLocked false) w)) l
                  = Node.setName (Model.replace "[Preview]" "[Generated]" ("[Preview] " ++ p))
                      (Node.setLocked false (node w l))).
  { rewrite node_update_eq by (now rewrite length_update_node).
    rewrite node_update_eq by assumption.
    cbn [Node.name Node.setLocked]. now rewrite Hname. }
  split; [|split; [|split; [|split; [|split]]]].
  - unfold Model.apply_current_result, bind, gets, assert, Model.can_apply_result,
      Model.on_world, Model.on_self, Model.emit, modify, ret.
    cbv beta iota delta [fst snd]. rewrite Hl, Hv.
    cbv beta iota delta [fst snd]. rewrite Hl. reflexivity.
  - now rewrite Hnode.
  - rewrite Hnode. cbn [Node.name Node.setName]. apply replace_preview_label.
  - now rewrite Hnode.
  - intros r Hr. now rewrite !node_update_ne by congruence.
  - now apply apply_without_preview.
Qed.

Lemma apply_current_result_releases_layer_witness :
  let w := fst preview_shown in
  let m := snd preview_shown in
  exists w',
    let s' := (w', Model.add_signal Model.changed (Model.set_layer None m)) in
    Model.apply_current_result (w, m) = (inr tt, s') /\
    Node.locked (node w' 0) = false /\
    Node.name (node w' 0)
      = ("[Generated] " ++ Model.replace "[Preview]" "[Generated]" "a cat")%string /\
    Node.pixels (node w' 0) = Node.pixels (node w 0) /\
    (forall r, r <> 0%nat -> node w' r = node w r) /\
    Model.apply_current_result s' = (inl (AssertionError ""), s').
Proof.
  intros w m.
  apply (apply_current_result_releases_layer w m 0%nat "a cat").
  - vm_compute. reflexivity.
  - vm_compute. reflexivity.
  - vm_compute. reflexivity.
Defined.

Lemma hide_preview_run (w : World) (m : Model.t) :
  Model.hide_preview (w, m)
  = match Model._layer m with
    | Some l => (inr tt, (update_node l (Node.setVisible false) w,
                          Model.add_signal Model.changed m))
    | None => (inr tt, (w, m))
    end.
Proof. destruct m as [d [l|] sty pr ctl str prog q err tsk sig]; reflexivity. Qed.

(** X27: after [hide_preview] there is nothing to apply: the layer, when
    there is one, is invisible but still the model's preview layer, and
    [apply_current_result] fails its assertion. *)
Theorem hide_preview_disables_apply (w : World) (m : Model.t) :
  let s' := snd (Model.hide_preview (w, m)) in
  fst (Model.hide_preview (w, m)) = inr tt /\
  Model._layer (snd s') = Model._layer m /\
  Model.can_apply_result s' = false /\
  Model.apply_current_result s' = (inl (AssertionError ""), s').
Proof.
  assert (H : fst (Model.hide_preview (w, m)) = inr tt /\
              Model._layer (snd (snd (Model.hide_preview (w, m)))) = Model._layer m /\
              Model.can_apply_result (snd (Model.hide_preview (w, m))) = false).
  { rewrite hide_preview_run. unfold Model.can_apply_result.
    destruct (Model._layer m) as [l|] eqn:Hl; cbn [fst snd].
    - split; [reflexivity|]. cbn [Model._layer Model.add_signal].
      split; [exact Hl|]. rewrite Hl.
      destruct (Nat.lt_ge_cases l (length (node_store w))) as [Hlt|Hge].
      + now rewrite node_update_eq.
      + unfold node, update_node. cbn [node_store with_nodes].
        rewrite list_insert_ge by assumption.
        rewrite list_lookup_total_alt, lookup_ge_None_2 by assumption. reflexivity.
    - split; [reflexivity|]. split; [exact Hl|]. now rewrite Hl. }
  destruct H as (H1 & H2 & H3). cbn zeta.
  repeat split; try assumption. now apply apply_without_preview.
Qed.

(** * Properties of the registry *)

Lemma on_model_report_error (w : World) (r : ModelRegistry.t) (i : nat) (m : Model.t)
    (message : string) :
  ModelRegistry._models r !! i = Some m ->
  ModelRegistry.on_model i (Model.report_error message) (w, r)
  = (inr tt, (w, ModelRegistry.set_models
                   (<[i := with_error message m]> (ModelRegistry._models r)) r)).
Proof.
  intros H. unfold ModelRegistry.on_model. rewrite H. reflexivity.
Qed.

Lemma report_error_from_run (message : string) (w : World) (task : bool) :
  forall (rest done : list Model.t),
    ModelRegistry.report_error_from (length done) (length rest) message
      (w, ModelRegistry.mk (done ++ rest) task)
    = (inr tt, (w, ModelRegistry.mk (done ++ map (with_error message) rest) task)).
Proof.
  induction rest as [|m rest IH]; intros done; [reflexivity|].
  cbn [length ModelRegistry.report_error_from].
  rewrite (bind_ok _ _ _ _ _
             (on_model_report_error w (ModelRegistry.mk (done ++ m :: rest) task)
                (length done) m message
                (list_lookup_middle done rest m _ eq_refl))).
  cbn [ModelRegistry._models ModelRegistry.set_models ModelRegistry._task].
  rewrite (insert_app_r_alt done (m :: rest) (length done)) by lia.
  rewrite Nat.sub_diag. cbn [insert list_insert].
  replace (done ++ with_error message m :: rest)
    with ((done ++ [with_error message m]) ++ rest) by (now rewrite <- app_assoc).
  replace (S (length done)) with (length (done ++ [with_error message m]))
    by (rewrite length_app; simpl; lia).
  rewrite IH. now rewrite <- app_assoc.
Qed.

Lemma report_error_run (message : string) (w : World) (r : ModelRegistry.t) :
  ModelRegistry.report_error message (w, r)
  = (inr tt, (w, ModelRegistry.set_models
                   (map (with_error message) (ModelRegistry._models r)) r)).
Proof.
  destruct r as [models task]. unfold ModelRegistry.report_error.
  unfold bind at 1. unfold gets at 1. cbn [fst snd ModelRegistry._models].
  apply (report_error_from_run message w task models []).
Qed.

(** X28: [report_error] of the registry never raises and reaches every
    model: each one has the message as its error text and has emitted
    [changed]; their queues, the order of the models and all objects are as
    before. *)
Theorem report_error_reaches_every_model (message : string) (w : World)
    (r : ModelRegistry.t) (i : nat) :
  let s' := snd (ModelRegistry.report_error message (w, r)) in
  fst (ModelRegistry.report_error message (w, r)) = inr tt /\
  fst s' = w /\
  length (ModelRegistry._models (snd s')) = length (ModelRegistry._models r) /\
  match ModelRegistry._models r !! i with
  | Some m =>
      exists m', ModelRegistry._models (snd s') !! i = Some m' /\
                 Model.error m' = message /\
                 Model.jobs m' = Model.jobs m /\
                 Model.signals m' = Model.signals m ++ [Model.changed]
  | None => ModelRegistry._models (snd s') !! i = None
  end.
Proof.
  cbn zeta. rewrite report_error_run.
  cbn [fst snd ModelRegistry._models ModelRegistry.set_models].
  split; [reflexivity|]. split; [reflexivity|]. split; [apply length_map|].
  rewrite list_lookup_fmap.
  destruct (ModelRegistry._models r !! i) as [m|]; [|reflexivity].
  exists (with_error message m). repeat split.
Qed.

Lemma first_index_spec {A} (p : A -> bool) (l : list A) (i : nat) :
  ModelRegistry.first_index p l = Some i ->
  exists a, l !! i = Some a /\ p a = true /\
            forall k b, (k < i)%nat -> l !! k = Some b -> p b = false.
Proof.
  revert i. induction l as [|a l IH]; intros i H; simpl in H; [discriminate|].
  destruct (p a) eqn:Hp.
  - injection H as <-. exists a. repeat split; [assumption|]. intros k b Hk. lia.
  - destruct (ModelRegistry.first_index p l) as [i0|]; [|discriminate].
    injection H as <-. destruct (IH i0 eq_refl) as (b & Hb & Hpb & Hbefore).
    exists b. repeat split; [assumption..|].
    intros k c Hk Hc. destruct k as [|k]; simpl in Hc.
    + now injection Hc as <-.
    + apply (Hbefore k c); [lia|assumption].
Qed.

(** X29: the dispatch loop hands a message to the first model whose queue
    has the job, and to no other: the models in front of it do not have the
    job, the message is handled by that model's [handle_message], with its
    outcome, and every other model is as before. *)
Theorem dispatch_reaches_first_owner (w : World) (r : ModelRegistry.t)
    (msg : ClientMessage.t) (i k : nat) :
  ModelRegistry._find_model (ClientMessage.job_id msg) (w, r) = (inr (Some i), (w, r)) ->
  exists m,
    ModelRegistry._models r !! i = Some m /\
    ModelRegistry.owns w (ClientMessage.job_id msg) m = true /\
    (forall b, (k < i)%nat -> ModelRegistry._models r !! k = Some b ->
               ModelRegistry.owns w (ClientMessage.job_id msg) b = false) /\
    let outcome := Model.handle_message msg (w, m) in
    ModelRegistry.dispatch [msg] (w, r)
    = (fst outcome,
       (fst (snd outcome),
        ModelRegistry.set_models (<[i := snd (snd outcome)]> (ModelRegistry._models r)) r)) /\
    (k <> i ->
     ModelRegistry._models (snd (snd (ModelRegistry.dispatch [msg] (w, r)))) !! k
     = ModelRegistry._models r !! k).
Proof.
  intros Hfind.
  assert (Hidx : ModelRegistry.first_index (ModelRegistry.owns w (ClientMessage.job_id msg))
                   (ModelRegistry._models r) = Some i).
  { unfold ModelRegistry._find_model, gets in Hfind. now injection Hfind. }
  destruct (first_index_spec _ _ _ Hidx) as (m & Hm & Hown & Hbefore).
  exists m. split; [exact Hm|]. split; [exact Hown|].
  split; [intros b Hk Hb; now apply (Hbefore k b)|].
  assert (Hrun : ModelRegistry.dispatch [msg] (w, r)
                 = (fst (Model.handle_message msg (w, m)),
                    (fst (snd (Model.handle_message msg (w, m))),
                     ModelRegistry.set_models
                       (<[i := snd (snd (Model.handle_message msg (w, m)))]>
                          (ModelRegistry._models r)) r))).
  { cbn [ModelRegistry.dispatch].
    rewrite (bind_ok _ _ _ _ _ Hfind).
    unfold bind, ModelRegistry.on_model, ret. rewrite Hm.
    destruct (Model.handle_message msg (w, m)) as [[e|[]] [w' m']]; reflexivity. }
  cbn zeta. split; [exact Hrun|].
  intros Hk. rewrite Hrun. cbn [fst snd ModelRegistry._models ModelRegistry.set_models].
  apply list_lookup_insert_ne. congruence.
Qed.

Lemma dispatch_reaches_first_owner_witness :
  let w := fst two_models in
  let r := snd two_models in
  let msg := msg_progress "id-1" (1 # 2) in
  exists m,
    ModelRegistry._models r !! 0%nat = Some m /\
    ModelRegistry.owns w (ClientMessage.job_id msg) m = true /\
    (forall b, (1 < 0)%nat -> ModelRegistry._models r !! 1%nat = Some b ->
               ModelRegistry.owns w (ClientMessage.job_id msg) b = false) /\
    let outcome := Model.handle_message msg (w, m) in
    ModelRegistry.dispatch [msg] (w, r)
    = (fst outcome,
       (fst (snd outcome),
        ModelRegistry.set_models (<[0%nat := snd (snd outcome)]> (ModelRegistry._models r)) r)) /\
    (1%nat <> 0%nat ->
     ModelRegistry._models (snd (snd (ModelRegistry.dispatch [msg] (w, r)))) !! 1%nat
     = ModelRegistry._models r !! 1%nat).
Proof.
  intros w r msg.
  apply (dispatch_reaches_first_owner w r msg 0%nat 1%nat).
  vm_compute. reflexivity.
Defined.



(** The round at a stream whose first message makes a handler raise: the
    [IndexError] ends the inner loop, the second message is not handled, and
    both models carry the error text. *)
Example failed_handler_is_reported :
  let s' := snd (ModelRegistry._handle_messages_round ok_env failing_stream two_models) in
  map Model.error (ModelRegistry._models (snd s')) = ["error"; "error"] /\
  Job.state (job (fst s') 0) = State.finished.
Proof. vm_compute. split; reflexivity. Qed.
